(** * pi-minimax-mcp: the output formatter and the MCP client session

    A shallow embedding of [src/utils.ts] (formatToolOutput, truncateHead,
    formatBytes, writeTempFile) and of [src/client.ts] (MiniMaxMcpClient),
    with the properties the specification states about them; then of the
    configuration (config.ts) and of the argument handling of the two front
    ends, with further properties of all of them.

    Conventions of the embedding.
    - A JavaScript string is the list of its UTF-16 code units ([jsstring]);
      [Buffer.byteLength], [Buffer.from] and [Buffer.toString] go through the
      UTF-8 encoder and decoder below.
    - A JavaScript number that counts or indexes is a [Z]; JSON numbers are
      the integer-valued ones.
    - Code that can throw returns [option] or a sum.
    - The client is a record of its fields together with the runtime they
      live in: the promises, the armed timers, the subprocesses, the code
      suspended at an [await] and the microtask queue. One step of the event
      loop is one call of the API, one event of the subprocess, one timer,
      or one microtask. *)

From Stdlib Require Import String Ascii List ZArith NArith Lia Bool Sorted.
From Stdlib Require Import Numbers.DecimalString Numbers.DecimalPos.
Import ListNotations.

Set Implicit Arguments.
Set Warnings "-register-all,-abstract-large-number".

(** Splits a conjunction into its parts, and nothing else. *)
Ltac split_all := repeat match goal with |- _ /\ _ => split end.

(* ===================================================================== *)
(** ** JavaScript strings, arrays and buffers *)
(* ===================================================================== *)

Module Js.

Local Open Scope N_scope.

(** UTF-16 code units. *)
Definition jsstring := list N.

(** An ASCII literal of the source as a JavaScript string. *)
Definition str (s : string) : jsstring :=
  map N_of_ascii (list_ascii_of_string s).

(** The line separator ["\n"]. *)
Definition LF : N := 10.

Fixpoint eqb (a b : jsstring) : bool :=
  match a, b with
  | [], [] => true
  | x :: a', y :: b' => (x =? y) && eqb a' b'
  | _, _ => false
  end.

(** [s.indexOf(c)] for a one-unit needle: the first index, or -1. *)
Fixpoint indexOf (c : N) (s : jsstring) : Z :=
  match s with
  | [] => (-1)%Z
  | u :: rest =>
      if u =? c then 0%Z
      else let i := indexOf c rest in
           if (i <? 0)%Z then (-1)%Z else (i + 1)%Z
  end.

(** [s.split(c)] for a one-unit separator: never the empty array. *)
Fixpoint split (sep : N) (s : jsstring) : list jsstring :=
  match s with
  | [] => [[]]
  | u :: rest =>
      if u =? sep then [] :: split sep rest
      else match split sep rest with
           | l :: ls => (u :: l) :: ls
           | [] => [[u]]
           end
  end.

(** [lines.join(sep)]. *)
Fixpoint join (sep : jsstring) (ls : list jsstring) : jsstring :=
  match ls with
  | [] => []
  | l :: rest =>
      match rest with
      | [] => l
      | _ :: _ => l ++ sep ++ join sep rest
      end
  end.

(** The relative index of [slice]: negative counts from the end, and the
    result is clamped to [0, len]. *)
Definition clamp (len : nat) (i : Z) : nat :=
  if (i <? 0)%Z then Z.to_nat (Z.max (Z.of_nat len + i) 0)
  else Z.to_nat (Z.min i (Z.of_nat len)).

(** [xs.slice(start)] on arrays, buffers and strings. *)
Definition slice_from {A} (start : Z) (xs : list A) : list A :=
  skipn (clamp (length xs) start) xs.

(** [xs.slice(start, stop)]. *)
Definition slice {A} (start stop : Z) (xs : list A) : list A :=
  let a := clamp (length xs) start in
  let b := clamp (length xs) stop in
  firstn (b - a) (skipn a xs).

(** *** UTF-8: [Buffer.from(s, "utf-8")] *)

Definition is_high (u : N) : bool := (0xD800 <=? u) && (u <=? 0xDBFF).
Definition is_low (u : N) : bool := (0xDC00 <=? u) && (u <=? 0xDFFF).

Definition cont_byte (x : N) : N := N.lor 0x80 (N.land x 0x3F).

Definition encode_bmp (u : N) : list N :=
  if u <? 0x80 then [u]
  else if u <? 0x800 then [N.lor 0xC0 (N.shiftr u 6); cont_byte u]
  else [N.lor 0xE0 (N.shiftr u 12); cont_byte (N.shiftr u 6); cont_byte u].

Definition encode_pair (hi lo : N) : list N :=
  let c := 0x10000 + N.shiftl (hi - 0xD800) 10 + (lo - 0xDC00) in
  [N.lor 0xF0 (N.shiftr c 18); cont_byte (N.shiftr c 12);
   cont_byte (N.shiftr c 6); cont_byte c].

(** U+FFFD, which replaces a lone surrogate. *)
Definition replacement : N := 0xFFFD.

Fixpoint utf8_encode (s : jsstring) : list N :=
  match s with
  | [] => []
  | u :: rest =>
      if is_high u then
        match rest with
        | l :: rest' =>
            if is_low l then encode_pair u l ++ utf8_encode rest'
            else encode_bmp replacement ++ utf8_encode rest
        | [] => encode_bmp replacement
        end
      else if is_low u then encode_bmp replacement ++ utf8_encode rest
      else encode_bmp u ++ utf8_encode rest
  end.

(** [Buffer.byteLength(s, "utf-8")]. *)
Definition byteLength (s : jsstring) : Z := Z.of_nat (length (utf8_encode s)).

(** *** UTF-8: [buffer.toString("utf-8")]

    The decoder replaces every ill-formed sequence by U+FFFD, one per
    maximal subpart, and resumes at the byte that broke the sequence. *)

Record decoder := mkDecoder {
  d_need : nat;      (* continuation bytes still expected *)
  d_acc : N;         (* code point bits read so far *)
  d_lower : N;       (* range allowed for the next byte *)
  d_upper : N
}.

Definition idle : decoder := mkDecoder 0 0 0x80 0xBF.

Definition units_of_code_point (c : N) : jsstring :=
  if c <? 0x10000 then [c]
  else [0xD800 + N.shiftr (c - 0x10000) 10; 0xDC00 + N.land (c - 0x10000) 0x3FF].

(** A byte read with no sequence in progress. *)
Definition lead (b : N) : jsstring * decoder :=
  if b <=? 0x7F then ([b], idle)
  else if (0xC2 <=? b) && (b <=? 0xDF) then
    ([], mkDecoder 1 (N.land b 0x1F) 0x80 0xBF)
  else if (0xE0 <=? b) && (b <=? 0xEF) then
    ([], mkDecoder 2 (N.land b 0xF)
           (if b =? 0xE0 then 0xA0 else 0x80)
           (if b =? 0xED then 0x9F else 0xBF))
  else if (0xF0 <=? b) && (b <=? 0xF4) then
    ([], mkDecoder 3 (N.land b 0x7)
           (if b =? 0xF0 then 0x90 else 0x80)
           (if b =? 0xF4 then 0x8F else 0xBF))
  else ([replacement], idle).

Fixpoint utf8_decode_from (st : decoder) (bs : list N) : jsstring :=
  match bs with
  | [] => match d_need st with O => [] | S _ => [replacement] end
  | b :: rest =>
      match d_need st with
      | O => let (out, st') := lead b in out ++ utf8_decode_from st' rest
      | S k =>
          if (d_lower st <=? b) && (b <=? d_upper st) then
            let acc := N.lor (N.shiftl (d_acc st) 6) (N.land b 0x3F) in
            match k with
            | O => units_of_code_point acc ++ utf8_decode_from idle rest
            | S _ => utf8_decode_from (mkDecoder k acc 0x80 0xBF) rest
            end
          else
            let (out, st') := lead b in
            replacement :: out ++ utf8_decode_from st' rest
      end
  end.

Definition utf8_decode (bs : list N) : jsstring := utf8_decode_from idle bs.

(** *** Numbers as text *)

(** [String(n)] for an integer. *)
Definition of_Z (z : Z) : jsstring :=
  str (NilEmpty.string_of_int (Z.to_int z)).

(** [x.toFixed(1)] for [x = num / den] with [0 <= num] and [0 < den]: the
    closest multiple of one tenth, the larger one on a tie. *)
Definition toFixed1 (num den : Z) : jsstring :=
  let n := ((20 * num + den) / (2 * den))%Z in
  of_Z (n / 10) ++ str "." ++ of_Z (n mod 10).

(** [s.trim()]: white space and line terminators of ECMAScript. *)
Definition is_space (u : N) : bool :=
  ((9 <=? u) && (u <=? 13)) || (u =? 32) || (u =? 0xA0) || (u =? 0x1680)
  || ((0x2000 <=? u) && (u <=? 0x200A)) || (u =? 0x2028) || (u =? 0x2029)
  || (u =? 0x202F) || (u =? 0x205F) || (u =? 0x3000) || (u =? 0xFEFF).

Fixpoint trimStart (s : jsstring) : jsstring :=
  match s with
  | u :: rest => if is_space u then trimStart rest else s
  | [] => []
  end.

Definition trim (s : jsstring) : jsstring :=
  rev (trimStart (rev (trimStart s))).

(** [s.includes(needle)]. *)
Fixpoint startsWith (needle s : jsstring) : bool :=
  match needle, s with
  | [], _ => true
  | x :: n', y :: s' => (x =? y) && startsWith n' s'
  | _ :: _, [] => false
  end.

Fixpoint includes (needle s : jsstring) : bool :=
  startsWith needle s ||
  match s with
  | [] => false
  | _ :: rest => includes needle rest
  end.

End Js.

(* ===================================================================== *)
(** ** JSON values and [JSON.stringify] *)
(* ===================================================================== *)

Module Json.
Import Js.

(** A value as [JSON.parse] builds it. An object lists its properties in
    the order [JSON.stringify] and [Object.keys] enumerate them. A number
    is an integer, of fewer than 22 digits where it is printed. *)
Inductive json :=
| JNull
| JBool (b : bool)
| JNum (z : Z)
| JStr (s : jsstring)
| JArr (xs : list json)
| JObj (kvs : list (jsstring * json)).

(** [o[k]] on the properties of an object: [None] is [undefined]. *)
Fixpoint lookup (k : jsstring) (kvs : list (jsstring * json)) : option json :=
  match kvs with
  | [] => None
  | (k', v) :: rest => if Js.eqb k k' then Some v else lookup k rest
  end.

Local Open Scope N_scope.

Definition hex_digit (d : N) : N :=
  if d <? 10 then 48 + d else 87 + d.

(** The escape [\uXXXX], in lower-case hexadecimal. *)
Definition unicode_escape (u : N) : jsstring :=
  str "\u" ++ [hex_digit (N.land (N.shiftr u 12) 0xF);
               hex_digit (N.land (N.shiftr u 8) 0xF);
               hex_digit (N.land (N.shiftr u 4) 0xF);
               hex_digit (N.land u 0xF)].

Definition quote_unit (u : N) : jsstring :=
  if u =? 8 then str "\b"
  else if u =? 9 then str "\t"
  else if u =? 10 then str "\n"
  else if u =? 12 then str "\f"
  else if u =? 13 then str "\r"
  else if u =? 34 then [92; 34]
  else if u =? 92 then [92; 92]
  else if u <? 32 then unicode_escape u
  else [u].

(** The body of QuoteJSONString: a surrogate pair is kept, a lone
    surrogate is escaped. *)
Fixpoint quote_units (s : jsstring) : jsstring :=
  match s with
  | [] => []
  | u :: rest =>
      if is_high u then
        match rest with
        | l :: rest' =>
            if is_low l then u :: l :: quote_units rest'
            else unicode_escape u ++ quote_units rest
        | [] => unicode_escape u
        end
      else if is_low u then unicode_escape u ++ quote_units rest
      else quote_unit u ++ quote_units rest
  end.

Definition quote (s : jsstring) : jsstring := [34] ++ quote_units s ++ [34].

(** The brackets around the serialised members of an array or object. *)
Definition wrap (gap indent : jsstring) (open_ close_ : N)
    (members : list jsstring) : jsstring :=
  match members with
  | [] => [open_; close_]
  | _ :: _ =>
      match gap with
      | [] => [open_] ++ join (str ",") members ++ [close_]
      | _ :: _ =>
          let inner := indent ++ gap in
          [open_] ++ [LF] ++ inner ++ join (str "," ++ [LF] ++ inner) members
          ++ [LF] ++ indent ++ [close_]
      end
  end.

(** SerializeJSONProperty for a value without [undefined], functions or
    [toJSON]; [indent] is the indentation of the enclosing member. *)
Fixpoint serialize (gap indent : jsstring) (v : json) {struct v} : jsstring :=
  match v with
  | JNull => str "null"
  | JBool true => str "true"
  | JBool false => str "false"
  | JNum z => of_Z z
  | JStr s => quote s
  | JArr xs =>
      wrap gap indent 91 93
        ((fix items (l : list json) : list jsstring :=
            match l with
            | [] => []
            | x :: r => serialize gap (indent ++ gap) x :: items r
            end) xs)
  | JObj kvs =>
      wrap gap indent 123 125
        ((fix members (l : list (jsstring * json)) : list jsstring :=
            match l with
            | [] => []
            | (k, x) :: r =>
                (quote k ++ str ":" ++
                 match gap with [] => [] | _ :: _ => str " " end ++
                 serialize gap (indent ++ gap) x) :: members r
            end) kvs)
  end.

(** [JSON.stringify(v)]. *)
Definition stringify (v : json) : jsstring := serialize [] [] v.

(** [JSON.stringify(v, null, 2)]. *)
Definition stringify2 (v : json) : jsstring := serialize (str "  ") [] v.

End Json.

(* ===================================================================== *)
(** ** src/utils.ts *)
(* ===================================================================== *)

Module Utils.
Import Js Json.

Local Open Scope Z_scope.

(** [FormatOptions]: both fields optional. *)
Record FormatOptions := mkFormatOptions {
  maxBytes : option Z;
  maxLines : option Z
}.

Record Details := mkDetails {
  truncated : bool;
  totalLines : Z;
  totalBytes : Z;
  outputLines : Z;
  outputBytes : Z;
  tempFile : option jsstring
}.

Record FormattedOutput := mkFormattedOutput {
  text : jsstring;
  details : Details
}.

(** What the host supplies to [writeTempFile]: [Date.now()] and
    [os.tmpdir()]. *)
Record Host := mkHost {
  now : Z;
  tmpdir : jsstring
}.

(** The files written so far, the latest first: path and content. *)
Definition FileSystem := list (jsstring * jsstring).

(** [path.join(dir, name)] for a normalised directory and a plain file name. *)
Definition path_join (dir name : jsstring) : jsstring :=
  match rev dir with
  | 47%N :: _ => dir ++ name
  | _ => dir ++ str "/" ++ name
  end.

Definition writeTempFile (content : jsstring) (h : Host) (fs : FileSystem)
  : jsstring * FileSystem :=
  let timestamp := now h in
  let filename := str "pi-minimax-mcp-" ++ of_Z timestamp ++ str ".txt" in
  let filepath := path_join (tmpdir h) filename in
  (filepath, (filepath, content) :: fs).

Definition formatBytes (bytes : Z) : jsstring :=
  if bytes <? 1024 then of_Z bytes ++ str "B"
  else if bytes <? 1024 * 1024 then toFixed1 bytes 1024 ++ str "KB"
  else toFixed1 bytes (1024 * 1024) ++ str "MB".

(** The number of lines of a text: [s.split("\n").length]. *)
Definition lineCount (s : jsstring) : Z := Z.of_nat (length (split LF s)).

(** [b.type === "text" && typeof b.text === "string"]; [None] when the
    property access throws, which it does on [null]. *)
Definition isTextBlock (b : json) : option bool :=
  match b with
  | JNull => None
  | JObj kvs =>
      Some match lookup (str "type") kvs with
           | Some (JStr t) =>
               Js.eqb t (str "text") &&
               match lookup (str "text") kvs with
               | Some (JStr _) => true
               | _ => false
               end
           | _ => false
           end
  | _ => Some false
  end.

(** [b.text!] of a block that passed the filter. *)
Definition blockText (b : json) : jsstring :=
  match b with
  | JObj kvs => match lookup (str "text") kvs with
                | Some (JStr t) => t
                | _ => []
                end
  | _ => []
  end.

(** [Array.isArray(result.content) ? result.content : []]; [None] when
    [result] is [null]. *)
Definition contentBlocks (result : json) : option (list json) :=
  match result with
  | JNull => None
  | JObj kvs => Some match lookup (str "content") kvs with
                     | Some (JArr bs) => bs
                     | _ => []
                     end
  | _ => Some []
  end.

(** [contentBlocks.filter(...).map(b => b.text!)]. *)
Fixpoint textBlocks (blocks : list json) : option (list jsstring) :=
  match blocks with
  | [] => Some []
  | b :: rest =>
      match isTextBlock b with
      | None => None
      | Some keep =>
          match textBlocks rest with
          | None => None
          | Some ts => Some (if keep then blockText b :: ts else ts)
          end
      end
  end.

(** [textBlocks.join("\n\n") || JSON.stringify(result, null, 2)]. *)
Definition rawText (result : json) : option jsstring :=
  match contentBlocks result with
  | None => None
  | Some blocks =>
      match textBlocks blocks with
      | None => None
      | Some ts =>
          match join [LF; LF] ts with
          | [] => Some (stringify2 result)
          | joined => Some joined
          end
      end
  end.

(** [truncated.replace(/^[^\n]*\n/, "")]: the first line goes with its
    newline; a text without newline is kept. *)
Definition dropFirstLine (s : jsstring) : jsstring :=
  let i := indexOf LF s in
  if i <? 0 then s else skipn (Z.to_nat (i + 1)) s.

(** Lines 50 to 65 of the source: the text kept, before the notice is
    appended to it. *)
Definition keptText (rawText : jsstring) (maxBytes maxLines : Z) : jsstring :=
  let lines := split LF rawText in
  let totalLines := Z.of_nat (length lines) in
  let totalBytes := byteLength rawText in
  let truncateByLines := maxLines <? totalLines in
  let truncateByBytes := maxBytes <? totalBytes in
  let outputText := rawText in
  if truncateByLines || truncateByBytes then
    let outputText :=
      if truncateByBytes && (maxBytes <? totalBytes) then
        let buffer := utf8_encode rawText in
        let truncated := utf8_decode (slice_from (- maxBytes) buffer) in
        dropFirstLine truncated
      else outputText in
    let outputText :=
      if truncateByLines then join [LF] (slice_from (- maxLines) lines)
      else outputText in
    outputText
  else outputText.

(** The notice appended to a truncated text. *)
Definition truncationInfo (totalLines totalBytes maxBytes maxLines : Z)
    (tempFile : jsstring) : jsstring :=
  [LF; LF] ++ str "[Output truncated: " ++ of_Z (Z.min totalLines maxLines)
  ++ str " of " ++ of_Z totalLines ++ str " lines ("
  ++ formatBytes (Z.min totalBytes maxBytes) ++ str " of "
  ++ formatBytes totalBytes ++ str "). Full output: " ++ tempFile ++ str "]".

Definition default {A} (o : option A) (d : A) : A :=
  match o with Some x => x | None => d end.

(** [formatToolOutput] from line 42 on, once [rawText] is known. *)
Definition formatText (rawText : jsstring) (maxBytes maxLines : Z)
    (h : Host) (fs : FileSystem) : FormattedOutput * FileSystem :=
  let totalLines := lineCount rawText in
  let totalBytes := byteLength rawText in
  let truncateByLines := maxLines <? totalLines in
  let truncateByBytes := maxBytes <? totalBytes in
  let outputText := keptText rawText maxBytes maxLines in
  let '(outputText, tempFile, fs') :=
    if truncateByLines || truncateByBytes then
      let (tempFile, fs') := writeTempFile rawText h fs in
      (outputText
         ++ truncationInfo totalLines totalBytes maxBytes maxLines tempFile,
       Some tempFile, fs')
    else (outputText, None, fs) in
  (mkFormattedOutput outputText
     (mkDetails (truncateByLines || truncateByBytes) totalLines totalBytes
        (lineCount outputText) (byteLength outputText) tempFile),
   fs').

(** [None] when the function throws a TypeError. *)
Definition formatToolOutput (result : json) (options : FormatOptions)
    (h : Host) (fs : FileSystem) : option (FormattedOutput * FileSystem) :=
  let maxBytes := default (maxBytes options) 51200 in
  let maxLines := default (maxLines options) 2000 in
  match rawText result with
  | None => None
  | Some rawText => Some (formatText rawText maxBytes maxLines h fs)
  end.

Record HeadResult := mkHeadResult {
  content : jsstring;
  h_truncated : bool;
  h_outputLines : Z;
  h_outputBytes : Z;
  h_totalLines : Z;
  h_totalBytes : Z;
  firstLineExceedsLimit : bool
}.

(** The marker appended when the first line alone is over the byte limit. *)
Definition truncatedMarker : jsstring := str "... [truncated]".

Definition truncateHead (text : jsstring) (options : FormatOptions)
  : HeadResult :=
  let maxBytes := default (maxBytes options) 51200 in
  let maxLines := default (maxLines options) 2000 in
  let totalBytes := byteLength text in
  let lines := split LF text in
  let totalLines := Z.of_nat (length lines) in
  let line0 := hd [] lines in
  let '(content, truncated, firstLineExceedsLimit) :=
    if negb (Js.eqb line0 []) && (maxBytes <? byteLength line0) then
      (slice 0 maxBytes line0 ++ truncatedMarker, true, true)
    else if (maxLines <? totalLines) || (maxBytes <? totalBytes) then
      let content :=
        if maxLines <? totalLines then join [LF] (slice_from (- maxLines) lines)
        else text in
      let contentBytes := byteLength content in
      let content :=
        if maxBytes <? contentBytes then
          let buffer := utf8_encode content in
          let content := utf8_decode (slice_from (- maxBytes) buffer) in
          let newlineIdx := indexOf LF content in
          if 0 <? newlineIdx then slice_from (newlineIdx + 1) content
          else content
        else content in
      (content, true, false)
    else (text, false, false) in
  mkHeadResult content truncated
    (lineCount content) (byteLength content)
    totalLines totalBytes firstLineExceedsLimit.

End Utils.

(* ===================================================================== *)
(** ** src/types.ts and src/client.ts *)
(* ===================================================================== *)

Module Client.
Import Js Json.

Local Open Scope Z_scope.

(** *** Messages and configuration (types.ts) *)

(** The [id] of a response: absent, [null], a number or a string. The
    numbers are the integers; any other number is the key of no request. *)
Inductive MessageId :=
| IdUndefined
| IdNull
| IdNum (n : Z)
| IdStr (s : jsstring).

Record RpcError := mkRpcError {
  code : Z;
  message : jsstring;
  data : option json
}.

Record JsonRpcResponse := mkResponse {
  id : MessageId;
  result : option json;
  error : option RpcError
}.

Record MiniMaxMcpConfig := mkConfig {
  apiKey : option jsstring;
  apiHost : option jsstring;
  basePath : option jsstring;
  resourceMode : option jsstring;
  timeoutMs : option Z;
  maxBytes : option Z;
  maxLines : option Z
}.

Record WebSearchParams := mkWebSearchParams {
  query : jsstring;
  numResults : option Z;
  recencyDays : option Z
}.

Record UnderstandImageParams := mkUnderstandImageParams {
  imagePath : jsstring;
  prompt : option jsstring
}.

(** An [Error], by its message. *)
Definition Error := jsstring.

(** *** The runtime: promises, timers, subprocesses *)

(** A promise, named by the place that creates it. *)
Inductive PromiseRef :=
| StartupP (k : nat)    (* line 75: the wait for the process id *)
| RequestP (id : Z)     (* line 168: the answer to request [id] *)
| CallP (k : nat).      (* the outcome of an async call: doConnect, callTool *)

Inductive Value :=
| VUndefined
| VResponse (r : JsonRpcResponse)
| VResult (r : json).

Inductive PromiseState :=
| Pending
| Fulfilled (v : Value)
| Rejected (e : Error).

(** A timer, named by the callback it runs. *)
Inductive TimerRef :=
| RequestTimer (id : Z)       (* line 169: the timeout of request [id] *)
| StartupTimer (k : nat)      (* line 76: the startup timeout *)
| StartupInterval (k : nat).  (* line 77: the poll for the process id *)

(** The code that follows an [await]. *)
Inductive Cont :=
| DoConnectStarted (self : nat)       (* doConnect from line 86 *)
| InitializeResponded (self : nat)    (* initialize from line 101 *)
| CallToolConnected (name : jsstring) (args : json) (self : nat)
                                      (* callTool from line 203 *)
| CallToolResponded (self : nat).     (* callTool from line 208 *)

(** What [spawn] finds: the process id when the program started, the
    standard input pipe, and the error a write on it throws, if any. *)
Record SpawnOutcome := mkSpawn {
  s_pid : option Z;
  s_stdin : bool;
  s_writeError : option Error
}.

Record ChildProcess := mkChild {
  env : list (jsstring * option jsstring);  (* layered over process.env *)
  pid : option Z;
  stdin : bool;
  writeError : option Error;
  killed : bool;
  written : list jsstring                   (* what stdin received *)
}.

Record PendingRequest := mkPending {
  resolve : PromiseRef;
  reject : PromiseRef;
  timer : TimerRef
}.

(** The client object with the runtime it lives in. *)
Record Session := mkSession {
  (* MiniMaxMcpClient *)
  config : MiniMaxMcpConfig;
  process : option nat;
  requestId : Z;
  pendingRequests : list (Z * PendingRequest);   (* in insertion order *)
  buffer : jsstring;
  initialized : bool;
  initPromise : option PromiseRef;
  (* runtime *)
  children : list ChildProcess;                  (* by handle *)
  promises : list (PromiseRef * PromiseState);   (* in creation order *)
  timers : list TimerRef;                        (* armed *)
  awaiting : list (PromiseRef * Cont);
  microtasks : list (Cont * PromiseState);
  console : list jsstring
}.

Definition init (cfg : MiniMaxMcpConfig) : Session :=
  mkSession cfg None 0 [] [] false None [] [] [] [] [] [].

Definition with_process v s :=
  mkSession (config s) v (requestId s) (pendingRequests s) (buffer s)
    (initialized s) (initPromise s) (children s) (promises s) (timers s)
    (awaiting s) (microtasks s) (console s).
Definition with_requestId v s :=
  mkSession (config s) (process s) v (pendingRequests s) (buffer s)
    (initialized s) (initPromise s) (children s) (promises s) (timers s)
    (awaiting s) (microtasks s) (console s).
Definition with_pendingRequests v s :=
  mkSession (config s) (process s) (requestId s) v (buffer s)
    (initialized s) (initPromise s) (children s) (promises s) (timers s)
    (awaiting s) (microtasks s) (console s).
Definition with_buffer v s :=
  mkSession (config s) (process s) (requestId s) (pendingRequests s) v
    (initialized s) (initPromise s) (children s) (promises s) (timers s)
    (awaiting s) (microtasks s) (console s).
Definition with_initialized v s :=
  mkSession (config s) (process s) (requestId s) (pendingRequests s) (buffer s)
    v (initPromise s) (children s) (promises s) (timers s)
    (awaiting s) (microtasks s) (console s).
Definition with_initPromise v s :=
  mkSession (config s) (process s) (requestId s) (pendingRequests s) (buffer s)
    (initialized s) v (children s) (promises s) (timers s)
    (awaiting s) (microtasks s) (console s).
Definition with_children v s :=
  mkSession (config s) (process s) (requestId s) (pendingRequests s) (buffer s)
    (initialized s) (initPromise s) v (promises s) (timers s)
    (awaiting s) (microtasks s) (console s).
Definition with_promises v s :=
  mkSession (config s) (process s) (requestId s) (pendingRequests s) (buffer s)
    (initialized s) (initPromise s) (children s) v (timers s)
    (awaiting s) (microtasks s) (console s).
Definition with_timers v s :=
  mkSession (config s) (process s) (requestId s) (pendingRequests s) (buffer s)
    (initialized s) (initPromise s) (children s) (promises s) v
    (awaiting s) (microtasks s) (console s).
Definition with_awaiting v s :=
  mkSession (config s) (process s) (requestId s) (pendingRequests s) (buffer s)
    (initialized s) (initPromise s) (children s) (promises s) (timers s)
    v (microtasks s) (console s).
Definition with_microtasks v s :=
  mkSession (config s) (process s) (requestId s) (pendingRequests s) (buffer s)
    (initialized s) (initPromise s) (children s) (promises s) (timers s)
    (awaiting s) v (console s).
Definition with_console v s :=
  mkSession (config s) (process s) (requestId s) (pendingRequests s) (buffer s)
    (initialized s) (initPromise s) (children s) (promises s) (timers s)
    (awaiting s) (microtasks s) v.

(** **** Promises *)

Definition ref_eqb (p q : PromiseRef) : bool :=
  match p, q with
  | StartupP a, StartupP b => Nat.eqb a b
  | RequestP a, RequestP b => a =? b
  | CallP a, CallP b => Nat.eqb a b
  | _, _ => false
  end.

Fixpoint stateIn (p : PromiseRef) (ps : list (PromiseRef * PromiseState))
  : option PromiseState :=
  match ps with
  | [] => None
  | (q, st) :: rest => if ref_eqb p q then Some st else stateIn p rest
  end.

Definition promiseState (p : PromiseRef) (s : Session) : option PromiseState :=
  stateIn p (promises s).

Fixpoint setState (p : PromiseRef) (st : PromiseState)
    (ps : list (PromiseRef * PromiseState)) :=
  match ps with
  | [] => []
  | (q, old) :: rest =>
      if ref_eqb p q then (q, st) :: rest else (q, old) :: setState p st rest
  end.

(** [new Promise(...)], pending. *)
Definition newPromise (p : PromiseRef) (s : Session) : Session :=
  with_promises (promises s ++ [(p, Pending)]) s.

(** The number that names the next StartupP or CallP promise. *)
Definition fresh (s : Session) : nat := length (promises s).

(** [await p]: the continuation runs in a microtask once [p] is settled. *)
Definition await (p : PromiseRef) (k : Cont) (s : Session) : Session :=
  match promiseState p s with
  | Some (Fulfilled v) => with_microtasks (microtasks s ++ [(k, Fulfilled v)]) s
  | Some (Rejected e) => with_microtasks (microtasks s ++ [(k, Rejected e)]) s
  | _ => with_awaiting (awaiting s ++ [(p, k)]) s
  end.

(** [resolve(v)] or [reject(e)] of promise [p]: the first call settles the
    promise and schedules the code awaiting it, a later call does nothing. *)
Definition settle (p : PromiseRef) (outcome : PromiseState) (s : Session)
  : Session :=
  match promiseState p s with
  | Some Pending =>
      let woken := filter (fun a => ref_eqb p (fst a)) (awaiting s) in
      let asleep := filter (fun a => negb (ref_eqb p (fst a))) (awaiting s) in
      with_microtasks (microtasks s ++ map (fun a => (snd a, outcome)) woken)
        (with_awaiting asleep
           (with_promises (setState p outcome (promises s)) s))
  | _ => s
  end.

(** **** Timers *)

Definition timer_eqb (a b : TimerRef) : bool :=
  match a, b with
  | RequestTimer x, RequestTimer y => x =? y
  | StartupTimer x, StartupTimer y => Nat.eqb x y
  | StartupInterval x, StartupInterval y => Nat.eqb x y
  | _, _ => false
  end.

Definition armed (t : TimerRef) (s : Session) : bool :=
  existsb (timer_eqb t) (timers s).

(** [setTimeout] and [setInterval]. *)
Definition setTimer (t : TimerRef) (s : Session) : Session :=
  with_timers (timers s ++ [t]) s.

(** [clearTimeout] and [clearInterval]. *)
Definition clearTimer (t : TimerRef) (s : Session) : Session :=
  with_timers (filter (fun x => negb (timer_eqb t x)) (timers s)) s.

(** **** The pending-request map *)

Fixpoint mapGet {V} (k : Z) (m : list (Z * V)) : option V :=
  match m with
  | [] => None
  | (k', v) :: rest => if k =? k' then Some v else mapGet k rest
  end.

Definition mapDelete {V} (k : Z) (m : list (Z * V)) : list (Z * V) :=
  filter (fun e => negb (k =? fst e)) m.

(** [Map.set]: a present key keeps its place. *)
Fixpoint mapSet {V} (k : Z) (v : V) (m : list (Z * V)) : list (Z * V) :=
  match m with
  | [] => [(k, v)]
  | (k', v') :: rest =>
      if k =? k' then (k, v) :: rest else (k', v') :: mapSet k v rest
  end.

(** **** Subprocesses *)

Fixpoint updateAt {A} (i : nat) (f : A -> A) (l : list A) : list A :=
  match l, i with
  | [], _ => []
  | x :: rest, O => f x :: rest
  | x :: rest, S j => x :: updateAt j f rest
  end.

Definition child (h : nat) (s : Session) : option ChildProcess :=
  nth_error (children s) h.

(** [this.process?.stdin]: the handle whose input pipe exists. *)
Definition processStdin (s : Session) : option nat :=
  match process s with
  | None => None
  | Some h =>
      match child h s with
      | Some c => if stdin c then Some h else None
      | None => None
      end
  end.

(** [child.stdin.write(line)]: the error thrown, or the session after. *)
Definition write (h : nat) (line : jsstring) (s : Session) : Error + Session :=
  match child h s with
  | Some c =>
      match writeError c with
      | Some e => inl e
      | None =>
          inr (with_children
                 (updateAt h (fun c => mkChild (env c) (pid c) (stdin c)
                                         (writeError c) (killed c)
                                         (written c ++ [line]))
                    (children s)) s)
      end
  | None => inr s
  end.

(** [child.kill()]. *)
Definition kill (h : nat) (s : Session) : Session :=
  with_children
    (updateAt h (fun c => mkChild (env c) (pid c) (stdin c) (writeError c)
                            true (written c))
       (children s)) s.

Definition log (line : jsstring) (s : Session) : Session :=
  with_console (console s ++ [line]) s.

(** *** The methods of MiniMaxMcpClient *)

Definition truthy (o : option jsstring) : bool :=
  match o with
  | Some (_ :: _) => true
  | _ => false
  end.

(** The variables [doConnect] layers over [process.env]. *)
Definition spawnEnv (cfg : MiniMaxMcpConfig) : list (jsstring * option jsstring) :=
  [(str "MINIMAX_API_KEY", apiKey cfg); (str "MINIMAX_API_HOST", apiHost cfg)]
  ++ (if truthy (basePath cfg)
      then [(str "MINIMAX_MCP_BASE_PATH", basePath cfg)] else [])
  ++ (if truthy (resourceMode cfg)
      then [(str "MINIMAX_API_RESOURCE_MODE", resourceMode cfg)] else []).

Definition notConnected : Error := str "MCP process not connected".
Definition startupTimeout : Error := str "MCP process startup timeout".

Definition requestTimeout (cfg : MiniMaxMcpConfig) : Error :=
  str "MCP request timeout after "
  ++ match timeoutMs cfg with
     | Some ms => of_Z ms
     | None => str "undefined"
     end
  ++ str "ms".

Definition initializeFailed (e : RpcError) : Error :=
  str "MCP initialize failed: " ++ message e.

Definition toolCallFailed (e : RpcError) : Error :=
  str "Tool call failed: " ++ message e.

Definition cleanup (s : Session) : Session :=
  let s := with_initialized false s in
  let s := with_initPromise None s in
  match process s with
  | Some h => with_process None (kill h s)
  | None => s
  end.

Definition handleProcessError (err : Error) (s : Session) : Session :=
  let s := fold_left (fun s entry => settle (reject (snd entry)) (Rejected err) s)
             (pendingRequests s) s in
  let s := with_pendingRequests [] s in
  cleanup s.

Definition handleMessage (message : JsonRpcResponse) (s : Session) : Session :=
  match id message with
  | IdNum n =>
      match mapGet n (pendingRequests s) with
      | Some request =>
          let s := with_pendingRequests (mapDelete n (pendingRequests s)) s in
          let s := clearTimer (timer request) s in
          settle (resolve request) (Fulfilled (VResponse message)) s
      | None => s
      end
  | IdStr _ => s        (* every key of the map is a number *)
  | IdNull | IdUndefined => s
  end.

Definition requestObject (id : Z) (method : jsstring) (params : json) : json :=
  JObj [(str "jsonrpc", JStr (str "2.0")); (str "id", JNum id);
        (str "method", JStr method); (str "params", params)].

Definition notificationObject (method : jsstring) (params : json) : json :=
  JObj [(str "jsonrpc", JStr (str "2.0")); (str "method", JStr method);
        (str "params", params)].

(** The error thrown before a request is made, or the promise of the
    response. *)
Definition sendRequest (method : jsstring) (params : json) (s : Session)
  : Session * (Error + PromiseRef) :=
  match processStdin s with
  | None => (s, inl notConnected)
  | Some h =>
      let id := requestId s + 1 in
      let s := with_requestId id s in
      let request := requestObject id method params in
      let s := newPromise (RequestP id) s in
      let s := setTimer (RequestTimer id) s in
      let s := with_pendingRequests
                 (mapSet id (mkPending (RequestP id) (RequestP id)
                               (RequestTimer id))
                    (pendingRequests s)) s in
      match write h (stringify request ++ [LF]) s with
      | inr s' => (s', inr (RequestP id))
      | inl err =>
          let s := with_pendingRequests (mapDelete id (pendingRequests s)) s in
          let s := clearTimer (RequestTimer id) s in
          (settle (RequestP id) (Rejected err) s, inr (RequestP id))
      end
  end.

Definition sendNotification (method : jsstring) (params : json) (s : Session)
  : Error + Session :=
  match processStdin s with
  | None => inl notConnected
  | Some h => write h (stringify (notificationObject method params) ++ [LF]) s
  end.

Definition initializeParams : json :=
  JObj [(str "protocolVersion", JStr (str "2024-11-05"));
        (str "capabilities", JObj []);
        (str "clientInfo",
         JObj [(str "name", JStr (str "pi-minimax-mcp"));
               (str "version", JStr (str "1.0.0"))])].

(** [doConnect] up to its first [await]: the promise it returns. *)
Definition doConnect (spawn : SpawnOutcome) (s : Session)
  : Session * PromiseRef :=
  let h := length (children s) in
  let s := with_children
             (children s ++ [mkChild (spawnEnv (config s)) (s_pid spawn)
                               (s_stdin spawn) (s_writeError spawn) false []])
             s in
  let s := with_process (Some h) s in
  let self := fresh s in
  let s := newPromise (CallP self) s in
  let k := fresh s in
  let s := newPromise (StartupP k) s in
  let s := setTimer (StartupTimer k) s in
  let s := setTimer (StartupInterval k) s in
  (await (StartupP k) (DoConnectStarted self) s, CallP self).

(** What [connect] hands to its caller: nothing to wait for, or the
    promise of the initialization under way. *)
Inductive Connecting :=
| Ready
| InFlight (p : PromiseRef).

Definition connect (spawn : SpawnOutcome) (s : Session)
  : Session * Connecting :=
  if initialized s then (s, Ready)
  else match initPromise s with
       | Some p => (s, InFlight p)
       | None =>
           let (s, p) := doConnect spawn s in
           (with_initPromise (Some p) s, InFlight p)
       end.

(** [callTool] up to its first [await]: the promise it returns. *)
Definition callTool (name : jsstring) (args : json) (spawn : SpawnOutcome)
    (s : Session) : Session * PromiseRef :=
  let self := fresh s in
  let s := newPromise (CallP self) s in
  let (s, c) := connect spawn s in
  let k := CallToolConnected name args self in
  match c with
  | Ready => (with_microtasks (microtasks s ++ [(k, Fulfilled VUndefined)]) s,
              CallP self)
  | InFlight p => (await p k s, CallP self)
  end.

Definition nonZero (o : option Z) : bool :=
  match o with
  | Some n => negb (n =? 0)
  | None => false
  end.

Definition webSearchArgs (params : WebSearchParams) : json :=
  JObj ([(str "query", JStr (query params))]
        ++ (if nonZero (numResults params)
            then [(str "num_results", JNum (Utils.default (numResults params) 0))]
            else [])
        ++ (if nonZero (recencyDays params)
            then [(str "recency_days", JNum (Utils.default (recencyDays params) 0))]
            else [])).

Definition webSearch (params : WebSearchParams) :=
  callTool (str "web_search") (webSearchArgs params).

Definition understandImageArgs (params : UnderstandImageParams) : json :=
  JObj [(str "image_source", JStr (imagePath params));
        (str "prompt",
         JStr (if truthy (prompt params)
               then Utils.default (prompt params) []
               else str "Describe this image in detail"))].

Definition understandImage (params : UnderstandImageParams) :=
  callTool (str "understand_image") (understandImageArgs params).

Definition disconnect (s : Session) : Session := cleanup s.

(** [{ content: [] }]. *)
Definition emptyResult : json := JObj [(str "content", JArr [])].

(** Lines 208 to 212: the outcome of [callTool] for a response. *)
Definition toolOutcome (response : JsonRpcResponse) : PromiseState :=
  match error response with
  | Some e => Rejected (toolCallFailed e)
  | None =>
      Fulfilled (VResult match result response with
                         | None | Some JNull => emptyResult
                         | Some r => r
                         end)
  end.

(** One continuation, run with the outcome of the promise it awaited. *)
Definition resume (k : Cont) (outcome : PromiseState) (s : Session) : Session :=
  match k, outcome with
  | _, Pending => s
  | DoConnectStarted self, Fulfilled _ =>
      match sendRequest (str "initialize") initializeParams s with
      | (s, inl e) => settle (CallP self) (Rejected e) s
      | (s, inr p) => await p (InitializeResponded self) s
      end
  | InitializeResponded self, Fulfilled (VResponse response) =>
      match error response with
      | Some e => settle (CallP self) (Rejected (initializeFailed e)) s
      | None =>
          match sendNotification (str "notifications/initialized") (JObj []) s with
          | inl e => settle (CallP self) (Rejected e) s
          | inr s =>
              let s := with_initialized true s in
              settle (CallP self) (Fulfilled VUndefined) s
          end
      end
  | CallToolConnected name args self, Fulfilled _ =>
      match sendRequest (str "tools/call")
              (JObj [(str "name", JStr name); (str "arguments", args)]) s with
      | (s, inl e) => settle (CallP self) (Rejected e) s
      | (s, inr p) => await p (CallToolResponded self) s
      end
  | CallToolResponded self, Fulfilled (VResponse response) =>
      settle (CallP self) (toolOutcome response) s
  | InitializeResponded self, Fulfilled _ => s
  | CallToolResponded self, Fulfilled _ => s
  | DoConnectStarted self, Rejected e
  | InitializeResponded self, Rejected e
  | CallToolConnected _ _ self, Rejected e
  | CallToolResponded self, Rejected e => settle (CallP self) (Rejected e) s
  end.

(** A timer goes off. *)
Definition fire (t : TimerRef) (s : Session) : Session :=
  if armed t s then
    match t with
    | RequestTimer id =>
        let s := clearTimer t s in
        let s := with_pendingRequests (mapDelete id (pendingRequests s)) s in
        settle (RequestP id) (Rejected (requestTimeout (config s))) s
    | StartupTimer k =>
        let s := clearTimer t s in
        settle (StartupP k) (Rejected startupTimeout) s
    | StartupInterval k =>
        match match process s with
              | Some h => match child h s with Some c => pid c | None => None end
              | None => None
              end with
        | Some n =>
            if n =? 0 then s
            else
              let s := clearTimer (StartupTimer k) s in
              let s := clearTimer (StartupInterval k) s in
              settle (StartupP k) (Fulfilled VUndefined) s
        | None => s
        end
    end
  else s.

Definition logPrefix : jsstring := str "[pi-minimax-mcp] ".

(** The [stderr] listener. *)
Definition handleStderr (data : list N) (s : Session) : Session :=
  let msg := utf8_decode data in
  if includes (str "error") msg || includes (str "Error") msg
  then log (logPrefix ++ trim msg) s
  else s.

(** The [exit] listener. *)
Definition handleExit (code : option Z) (s : Session) : Session :=
  let s := match code with
           | Some c =>
               if negb (c =? 0)
               then log (logPrefix ++ str "Process exited with code " ++ of_Z c) s
               else s
           | None => s
           end in
  cleanup s.

Section Transport.

(** [JSON.parse(line) as JsonRpcResponse]: [None] when the line is not
    JSON, or is the JSON [null], whose [id] cannot be read; both end in the
    [catch] of [handleData]. A JSON value that is not an object has no
    [id], [result] or [error]. *)
Variable parse : jsstring -> option JsonRpcResponse.

(** The body of the loop of [handleData] for one trimmed line. *)
Definition handleLine (line : jsstring) (s : Session) : Session :=
  match line with
  | [] => s
  | _ :: _ =>
      match parse line with
      | Some message => handleMessage message s
      | None => log (logPrefix ++ line) s
      end
  end.

(** The loop of [handleData] over the buffer cut at its newlines: every
    part but the last is a complete line, the last stays buffered. *)
Fixpoint handleLines (parts : list jsstring) (s : Session) : Session :=
  match parts with
  | [] => s
  | part :: rest =>
      match rest with
      | [] => with_buffer part s
      | _ :: _ => handleLines rest (handleLine (trim part) s)
      end
  end.

Definition handleData (data : list N) (s : Session) : Session :=
  handleLines (split LF (buffer s ++ utf8_decode data)) s.

(** *** The event loop *)

Inductive Label :=
| CallConnect (spawn : SpawnOutcome)
| CallTool (name : jsstring) (args : json) (spawn : SpawnOutcome)
| CallWebSearch (params : WebSearchParams) (spawn : SpawnOutcome)
| CallUnderstandImage (params : UnderstandImageParams) (spawn : SpawnOutcome)
| CallDisconnect
| OnStdout (data : list N)
| OnStderr (data : list N)
| OnError (err : Error)
| OnExit (code : option Z)
| OnTimer (t : TimerRef)
| Microtask.

Definition step (l : Label) (s : Session) : Session :=
  match l with
  | CallConnect spawn => fst (connect spawn s)
  | CallTool name args spawn => fst (callTool name args spawn s)
  | CallWebSearch params spawn => fst (webSearch params spawn s)
  | CallUnderstandImage params spawn => fst (understandImage params spawn s)
  | CallDisconnect => disconnect s
  | OnStdout data => handleData data s
  | OnStderr data => handleStderr data s
  | OnError err => handleProcessError err s
  | OnExit code => handleExit code s
  | OnTimer t => fire t s
  | Microtask =>
      match microtasks s with
      | [] => s
      | (k, outcome) :: rest => resume k outcome (with_microtasks rest s)
      end
  end.

Definition run (ls : list Label) (s : Session) : Session :=
  fold_left (fun s l => step l s) ls s.

End Transport.

End Client.

(* ===================================================================== *)
(** ** Example inputs and the invariants of the session *)
(* ===================================================================== *)

Module Examples.
Import Js Json.

Local Open Scope Z_scope.

(** [{ content: [{ type: "text", text }] }]. *)
Definition textResult (text : jsstring) : json :=
  JObj [(str "content",
         JArr [JObj [(str "type", JStr (str "text")); (str "text", JStr text)]])].

Definition host : Utils.Host := Utils.mkHost 1700000000000 (str "/tmp").

(** Three lines, ten bytes. *)
Definition threeLines : jsstring :=
  str "abc" ++ [LF] ++ str "def" ++ [LF] ++ str "gh".

(** Two lines, seven bytes. *)
Definition twoLines : jsstring := str "a" ++ [LF] ++ str "bbbbb".

(** A single line of [n] letters e-acute (U+00E9), two bytes each. *)
Definition accented (n : nat) : jsstring := repeat 233%N n.

(** A text of ASCII characters only. *)
Definition ascii (s : jsstring) : Prop := Forall (fun u => (u < 128)%N) s.

(** [n] lines of one letter each. *)
Definition shortLines (n : nat) : jsstring := join [LF] (repeat (str "x") n).

(** [n] lines of thirty letters each. *)
Definition thirtyLetterLines (n : nat) : jsstring :=
  join [LF] (repeat (repeat 120%N 30) n).

(** A single line of [n] letters. *)
Definition longLine (n : nat) : jsstring := repeat 120%N n.

(** **** A session *)

Import Client.

Definition cfg : MiniMaxMcpConfig :=
  mkConfig (Some (str "secret")) (Some (str "https://api.minimax.io")) None
    (Some (str "url")) (Some 60000) (Some 51200) (Some 2000).

(** The subprocess started: a process id, an input pipe, writes succeed. *)
Definition spawned : SpawnOutcome := mkSpawn (Some 4242) true None.

Definition responseJson (id : Z) (member : jsstring * json) : json :=
  JObj [(str "jsonrpc", JStr (str "2.0")); (str "id", JNum id); member].

(** The answers of the subprocess, as JSON and as [JSON.parse] reads them. *)
Definition initOkJson : json := responseJson 1 (str "result", JObj []).
Definition initOk : JsonRpcResponse := mkResponse (IdNum 1) (Some (JObj [])) None.

Definition initErrorJson : json :=
  responseJson 1
    (str "error", JObj [(str "code", JNum (-32600)); (str "message", JStr (str "boom"))]).
Definition initError : JsonRpcResponse :=
  mkResponse (IdNum 1) None (Some (mkRpcError (-32600) (str "boom") None)).

Definition searchOkJson : json := responseJson 2 (str "result", textResult (str "hi")).
Definition searchOk : JsonRpcResponse :=
  mkResponse (IdNum 2) (Some (textResult (str "hi"))) None.

(** [JSON.parse] on the lines above; any other line is not JSON. *)
Definition parseLine (line : jsstring) : option JsonRpcResponse :=
  if Js.eqb line (stringify initOkJson) then Some initOk
  else if Js.eqb line (stringify initErrorJson) then Some initError
  else if Js.eqb line (stringify searchOkJson) then Some searchOk
  else None.

(** The chunk the subprocess writes for one message. *)
Definition wire (v : json) : list N := utf8_encode (stringify v ++ [LF]).

(** [connect()], the first poll finds the process id, and [initialize]
    is sent as request 1. *)
Definition connecting : list Label :=
  [CallConnect spawned; OnTimer (StartupInterval 1); Microtask].

(** The handshake completes: the session is ready. *)
Definition handshake : list Label :=
  connecting ++ [OnStdout (wire initOkJson); Microtask].

(** The handshake is refused by the subprocess. *)
Definition refused : list Label :=
  connecting ++ [OnStdout (wire initErrorJson); Microtask].

Definition searchParams : WebSearchParams := mkWebSearchParams (str "x") None None.

(** [webSearch({query: "x"})] on a ready session: request 2 is sent. *)
Definition searching : list Label :=
  handshake ++ [CallWebSearch searchParams spawned; Microtask].

(** Two calls in flight on a ready session: requests 2 and 3. *)
Definition twoCalls : list Label :=
  searching ++ [CallTool (str "understand_image") (JObj []) spawned; Microtask].

(** Half a line has arrived while request 1 is in flight. *)
Definition halfLine : list Label :=
  connecting ++ [OnStdout (utf8_encode (str "abc"))].

Definition session (ls : list Label) : Session := run parseLine ls (init cfg).

(** The subprocess of the ready session, with the two lines of the
    handshake on its input. *)
Definition readyChild : ChildProcess :=
  mkChild (spawnEnv cfg) (Some 4242) true None false
    [stringify (requestObject 1 (str "initialize") initializeParams) ++ [LF];
     stringify (notificationObject (str "notifications/initialized") (JObj []))
     ++ [LF]].

(** **** Invariants of the session *)

(** The ids of the requests made so far, oldest first. *)
Definition requestIds (ps : list (PromiseRef * PromiseState)) : list Z :=
  flat_map (fun e => match fst e with RequestP id => [id] | _ => [] end) ps.

Definition issued (s : Session) : list Z := requestIds (promises s).

(** [1; 2; ...; n]. *)
Definition upto (n : Z) : list Z := map Z.of_nat (seq 1 (Z.to_nat n)).

(** The record [sendRequest] stores for request [id]. *)
Definition recordOf (id : Z) : PendingRequest :=
  mkPending (RequestP id) (RequestP id) (RequestTimer id).

(** The requests of a session: the ids made so far are 1 to [requestId];
    a pending record is the one [sendRequest] stored under its id, its
    promise is undecided and its timer armed; no id has two records. *)
Record wf (s : Session) : Prop := mkWf {
  wf_counter : 0 <= requestId s;
  wf_issued : issued s = upto (requestId s);
  wf_pending : forall id r,
      mapGet id (pendingRequests s) = Some r ->
      r = recordOf id
      /\ promiseState (RequestP id) s = Some Pending
      /\ armed (RequestTimer id) s = true;
  wf_keys : NoDup (map fst (pendingRequests s))
}.

(** Two sessions that agree on everything the requests depend on. *)
Record sameRequests (s s' : Session) : Prop := mkSame {
  same_config : config s' = config s;
  same_counter : requestId s' = requestId s;
  same_pending : pendingRequests s' = pendingRequests s;
  same_issued : issued s' = issued s;
  same_state : forall id, promiseState (RequestP id) s' = promiseState (RequestP id) s;
  same_armed : forall id, armed (RequestTimer id) s' = armed (RequestTimer id) s
}.

(** A later session: the configuration is the same, the id counter has not
    gone back, and every promise that was settled still has the state it
    was settled with. *)
Definition keeps (s s' : Session) : Prop :=
  config s' = config s
  /\ requestId s <= requestId s'
  /\ forall p st, promiseState p s = Some st -> st <> Pending ->
                  promiseState p s' = Some st.

(** Every promise the session refers to has been created, and the numbered
    names in use are below the next one. *)
Record named (s : Session) : Prop := mkNamed {
  named_fresh : forall p st,
      promiseState p s = Some st ->
      match p with
      | CallP k | StartupP k => (k < fresh s)%nat
      | RequestP _ => True
      end;
  named_awaiting : forall p k, In (p, k) (awaiting s) -> promiseState p s <> None;
  named_init : forall p, initPromise s = Some p -> promiseState p s <> None
}.

(** What the specification says of [disconnect], for a session [s]. *)
Definition disconnectTearsDown (s : Session) : Prop :=
  let s' := disconnect s in
  disconnect s' = s'
  /\ (forall h, process s = Some h ->
                exists c, child h s' = Some c /\ killed c = true)
  /\ buffer s' = []
  /\ (forall id r, mapGet id (pendingRequests s) = Some r ->
                   exists e, promiseState (reject r) s' = Some (Rejected e))
  /\ initialized s' = false.
End Examples.

(* ===================================================================== *)
(** ** Files read back *)
(* ===================================================================== *)

Module Files.
Import Js Utils.

(** [readFileSync(path, "utf-8")] on the files written so far: the latest
    content written under the path, or [None] when there is no such file. *)
Fixpoint readFile (path : jsstring) (fs : FileSystem) : option jsstring :=
  match fs with
  | [] => None
  | (p, content) :: rest => if Js.eqb path p then Some content else readFile path rest
  end.

End Files.

(* ===================================================================== *)
(** ** The configuration (config.ts, types.ts) *)
(* ===================================================================== *)

Module Config.
Import Js Json Utils Client Files.

Local Open Scope Z_scope.

(** The variables of [process.env] that the configuration reads. *)
Record Env := mkEnv {
  MINIMAX_API_KEY : option jsstring;
  MINIMAX_API_HOST : option jsstring;
  MINIMAX_MCP_BASE_PATH : option jsstring;
  MINIMAX_API_RESOURCE_MODE : option jsstring;
  MINIMAX_MCP_TIMEOUT_MS : option jsstring;
  MINIMAX_MCP_MAX_BYTES : option jsstring;
  MINIMAX_MCP_MAX_LINES : option jsstring
}.

Definition DEFAULT_CONFIG : MiniMaxMcpConfig :=
  mkConfig None (Some (str "https://api.minimax.io")) None (Some (str "url"))
    (Some 60000) (Some 51200) (Some 2000).

(** [{}]. *)
Definition noOverrides : MiniMaxMcpConfig :=
  mkConfig None None None None None None None.

(** *** parseInt(val, 10) *)

Definition is_digit (u : N) : bool := ((48 <=? u) && (u <=? 57))%N.

(** The longest prefix made of decimal digits. *)
Fixpoint leadingDigits (s : jsstring) : jsstring :=
  match s with
  | u :: rest => if is_digit u then u :: leadingDigits rest else []
  | [] => []
  end.

Definition digitsValue (ds : jsstring) : Z :=
  fold_left (fun acc d => 10 * acc + Z.of_N (d - 48)) ds 0.

(** [parseInt(s, 10)]: leading white space is skipped, then a sign, then
    the longest run of digits is read; [None] is [NaN], when there is no
    digit to read. *)
Definition parseInt10 (s : jsstring) : option Z :=
  let s := trimStart s in
  let '(sign, s) := match s with
                    | u :: rest =>
                        if (u =? 45)%N then (-1, rest)       (* "-" *)
                        else if (u =? 43)%N then (1, rest)   (* "+" *)
                        else (1, s)
                    | [] => (1, s)
                    end in
  match leadingDigits s with
  | [] => None
  | ds => Some (sign * digitsValue ds)
  end.

(** [a ?? b]. *)
Definition orElse {A} (a b : option A) : option A :=
  match a with
  | Some _ => a
  | None => b
  end.

(** [x!] for a number known to be set. *)
Definition the (o : option Z) : Z := default o 0.

Definition parseEnvInt (val : option jsstring) (fallback : Z) : Z :=
  match val with
  | None | Some [] => fallback
  | Some v => match parseInt10 v with
              | None => fallback
              | Some parsed => parsed
              end
  end.

Definition mergeConfig (overrides : MiniMaxMcpConfig) (env : Env)
  : MiniMaxMcpConfig :=
  mkConfig
    (orElse (apiKey overrides)
       (orElse (MINIMAX_API_KEY env) (apiKey DEFAULT_CONFIG)))
    (orElse (apiHost overrides)
       (orElse (MINIMAX_API_HOST env) (apiHost DEFAULT_CONFIG)))
    (orElse (basePath overrides)
       (orElse (MINIMAX_MCP_BASE_PATH env) (basePath DEFAULT_CONFIG)))
    (orElse (resourceMode overrides)
       (orElse (MINIMAX_API_RESOURCE_MODE env) (resourceMode DEFAULT_CONFIG)))
    (orElse (timeoutMs overrides)
       (Some (parseEnvInt (MINIMAX_MCP_TIMEOUT_MS env)
                (the (timeoutMs DEFAULT_CONFIG)))))
    (orElse (Client.maxBytes overrides)
       (Some (parseEnvInt (MINIMAX_MCP_MAX_BYTES env)
                (the (Client.maxBytes DEFAULT_CONFIG)))))
    (orElse (Client.maxLines overrides)
       (Some (parseEnvInt (MINIMAX_MCP_MAX_LINES env)
                (the (Client.maxLines DEFAULT_CONFIG))))).

Definition apiKeyRequired : Error :=
  str "MiniMax API key is required. Set MINIMAX_API_KEY environment variable or add to config file."
  ++ [LF]
  ++ str "Get your key at: https://platform.minimax.io/subscribe/coding-plan".

(** [validateConfig]: the error thrown, if any. *)
Definition validateConfig (config : MiniMaxMcpConfig) : option Error :=
  if truthy (apiKey config) then None else Some apiKeyRequired.

(** [redactSensitiveData] of utils.ts. *)
Definition redactSensitiveData (config : MiniMaxMcpConfig) : MiniMaxMcpConfig :=
  mkConfig
    (if truthy (apiKey config) then Some (str "***REDACTED***") else None)
    (apiHost config) (basePath config) (resourceMode config)
    (timeoutMs config) (Client.maxBytes config) (Client.maxLines config).

Section Files.

(** [path.join], [process.cwd()] and [os.homedir()]. *)
Variable join : list jsstring -> jsstring.
Variable cwd homedir : jsstring.

(** [JSON.parse(raw)] read as a partial configuration; [None] when it
    throws, or gives [null], on which [mergeConfig] throws. *)
Variable parseConfig : jsstring -> option MiniMaxMcpConfig.

Definition projectPath : jsstring :=
  join [cwd; str ".pi"; str "extensions"; str "minimax-mcp.json"].

Definition globalPath : jsstring :=
  join [homedir; str ".pi"; str "agent"; str "extensions"; str "minimax-mcp.json"].

Definition CONFIG_PATHS : list jsstring := [projectPath; globalPath].

Definition resolveConfigPath (customPath : option jsstring) : option jsstring :=
  match customPath with
  | Some (u :: rest) =>
      Some (if startsWith (str "~") (u :: rest)
            then join [homedir; slice_from 1 (u :: rest)]
            else u :: rest)
  | _ => None
  end.

(** The loop of [loadConfig]: the configuration, and the paths it warned
    about. *)
Fixpoint loadFrom (paths : list jsstring) (env : Env) (fs : FileSystem)
  : MiniMaxMcpConfig * list jsstring :=
  match paths with
  | [] => (mergeConfig noOverrides env, [])
  | path :: rest =>
      match readFile path fs with
      | Some raw =>
          match parseConfig raw with
          | Some parsed => (mergeConfig parsed env, [])
          | None => let (config, warned) := loadFrom rest env fs in
                    (config, path :: warned)
          end
      | None => loadFrom rest env fs
      end
  end.

Definition loadConfig (customPath : option jsstring) (env : Env)
    (fs : FileSystem) : MiniMaxMcpConfig * list jsstring :=
  let paths := match resolveConfigPath customPath with
               | Some path => [path]
               | None => CONFIG_PATHS
               end in
  loadFrom paths env fs.

(** The file [ensureDefaultConfig] writes. *)
Definition defaultConfigText : jsstring :=
  stringify2
    (JObj [(str "apiKey", JNull);
           (str "apiHost", JStr (str "https://api.minimax.io"));
           (str "basePath", JNull);
           (str "resourceMode", JStr (str "url"));
           (str "timeoutMs", JNum 60000);
           (str "maxBytes", JNum 51200);
           (str "maxLines", JNum 2000)])
  ++ [LF].

(** [ensureDefaultConfig]; [writable] tells whether the directory and the
    file can be created. The result is the files and whether the file was
    created. *)
Definition ensureDefaultConfig (writable : bool) (fs : FileSystem)
  : FileSystem * bool :=
  match readFile globalPath fs with
  | Some _ => (fs, false)
  | None =>
      if writable then ((globalPath, defaultConfigText) :: fs, true)
      else (fs, false)
  end.

End Files.

End Config.

(* ===================================================================== *)
(** ** The front ends (bin/pi-minimax-mcp.js, extensions/index.ts) *)
(* ===================================================================== *)

Module Cli.
Import Js Json Utils Client Files Config.

Local Open Scope Z_scope.

(** The [options] object: names and values, in the order the names were
    first set. *)
Definition Options := list (jsstring * jsstring).

(** [options[key]], for a name that [Object.prototype] does not define. *)
Fixpoint optionGet (key : jsstring) (options : Options) : option jsstring :=
  match options with
  | [] => None
  | (k, v) :: rest => if Js.eqb key k then Some v else optionGet key rest
  end.

Fixpoint optionPut (key value : jsstring) (options : Options) : Options :=
  match options with
  | [] => [(key, value)]
  | (k, v) :: rest =>
      if Js.eqb key k then (k, value) :: rest
      else (k, v) :: optionPut key value rest
  end.

(** [options[key] = value] for a string [value]: the setter of
    [__proto__] ignores a string, any other name becomes a property. *)
Definition optionSet (key value : jsstring) (options : Options) : Options :=
  if Js.eqb key (str "__proto__") then options
  else optionPut key value options.

(** [arg.startsWith("--")]. *)
Definition isFlag (arg : jsstring) : bool := startsWith (str "--") arg.

(** [arg.slice(2).replace(/-/g, "")]. *)
Definition flagName (arg : jsstring) : jsstring :=
  filter (fun u => negb (u =? 45)%N) (slice_from 2 arg).

(** The loop of [parseArgs] from index [i] on: [args] is what is left of
    the arguments. *)
Fixpoint parseLoop (args : list jsstring) (options : Options)
    (positional : list jsstring) : Options * list jsstring :=
  match args with
  | [] => (options, positional)
  | arg :: rest =>
      if isFlag arg then
        let key := flagName arg in
        match rest with
        | next :: rest' =>
            if negb (Js.eqb next []) && negb (isFlag next)
            then parseLoop rest' (optionSet key next options) positional
            else parseLoop rest (optionSet key (str "true") options) positional
        | [] => (optionSet key (str "true") options, positional)
        end
      else parseLoop rest options (positional ++ [arg])
  end.

Record ParsedArgs := mkParsedArgs {
  command : option jsstring;
  options : Options;
  positional : list jsstring
}.

(** [parseArgs()] for [process.argv]. *)
Definition parseArgs (argv : list jsstring) : ParsedArgs :=
  let args := slice_from 2 argv in
  let (options, positional) := parseLoop (tl args) [] [] in
  mkParsedArgs (hd_error args) options positional.

(** [a || b] on strings that may be undefined. *)
Definition orTruthy (a b : option jsstring) : option jsstring :=
  if truthy a then a else b.

(** [parseInt(v, 10) || undefined]. *)
Definition numberOption (v : option jsstring) : option Z :=
  match v with
  | Some s =>
      match parseInt10 s with
      | Some n => if n =? 0 then None else Some n
      | None => None
      end
  | None => None
  end.

(** What the [search] command hands to [webSearch]; [None] when the query
    is missing and the command ends with an error. *)
Definition searchCommand (p : ParsedArgs) : option WebSearchParams :=
  let query := orTruthy (nth_error (positional p) 0)
                 (optionGet (str "query") (options p)) in
  if truthy query then
    Some (mkWebSearchParams (default query [])
            (numberOption (orTruthy (optionGet (str "numresults") (options p))
                             (optionGet (str "numResults") (options p))))
            (numberOption (orTruthy (optionGet (str "recencydays") (options p))
                             (optionGet (str "recencyDays") (options p)))))
  else None.

(** What the [understand] command hands to [understandImage]. *)
Definition understandCommand (p : ParsedArgs) : option UnderstandImageParams :=
  let imagePath := orTruthy (nth_error (positional p) 0)
                     (orTruthy (optionGet (str "image") (options p))
                        (optionGet (str "path") (options p))) in
  if truthy imagePath then
    Some (mkUnderstandImageParams (default imagePath [])
            (optionGet (str "prompt") (options p)))
  else None.

(** What the loop keeps true of the options and the positional arguments
    it has collected out of [all]. *)
Definition collected (all : list jsstring) (o : Options) (p : list jsstring) : Prop :=
  (forall k v, In (k, v) o ->
     ~ In 45%N k
     /\ (v = str "true" \/ (In v all /\ v <> [] /\ isFlag v = false)))
  /\ (forall a, In a p -> In a all /\ isFlag a = false).

End Cli.

Module Extension.
Import Js Json Utils Client Files Config.

Local Open Scope Z_scope.

(** The flags of the extension, each set when [pi.getFlag] gives a string. *)
Record Flags := mkFlags {
  configFlag : option jsstring;      (* --minimax-mcp-config *)
  apiKeyFlag : option jsstring;      (* --minimax-api-key *)
  hostFlag : option jsstring;        (* --minimax-api-host *)
  maxBytesFlag : option jsstring;    (* --minimax-mcp-max-bytes *)
  maxLinesFlag : option jsstring     (* --minimax-mcp-max-lines *)
}.

(** [typeof flag === "string" ? parseInt(flag, 10) : base]. The outer
    [None] stands for [NaN], which is a number and so not replaced by
    [??]; the numbers of this development leave it out. *)
Definition budgetFlag (flag : option jsstring) (base : option Z)
  : option (option Z) :=
  match flag with
  | Some f => match parseInt10 f with
              | Some n => Some (Some n)
              | None => None
              end
  | None => Some base
  end.

Section GetConfig.

Variable join : list jsstring -> jsstring.
Variable cwd homedir : jsstring.
Variable parseConfig : jsstring -> option MiniMaxMcpConfig.

(** [getConfig()]; [None] when a budget flag is not a number. *)
Definition getConfig (flags : Flags) (env : Env) (fs : FileSystem)
  : option MiniMaxMcpConfig :=
  let baseConfig :=
    fst (loadConfig join cwd homedir parseConfig (configFlag flags) env fs) in
  match budgetFlag (maxBytesFlag flags) (Client.maxBytes baseConfig),
        budgetFlag (maxLinesFlag flags) (Client.maxLines baseConfig) with
  | Some maxBytes, Some maxLines =>
      Some (mergeConfig
              (mkConfig (orElse (apiKeyFlag flags) (apiKey baseConfig))
                 (orElse (hostFlag flags) (apiHost baseConfig))
                 None None None maxBytes maxLines)
              env)
  | _, _ => None
  end.

End GetConfig.

End Extension.

(* ===================================================================== *)
(** ** Further example inputs *)
(* ===================================================================== *)

Module MoreExamples.
Import Js Json Utils Client Examples Files Config Cli Extension.

Local Open Scope Z_scope.

(** The answer to [initialize], cut in two after ten bytes. *)
Definition initOkHead : list N := firstn 10 (wire initOkJson).
Definition initOkTail : list N := skipn 10 (wire initOkJson).

(** Two lines of logging, a blank line between them, and half a line. *)
Definition noise : list N :=
  utf8_encode (str "starting" ++ [LF; LF] ++ str "ready" ++ [LF] ++ str "par").

(** The answer to request 3. *)
Definition imageOk : JsonRpcResponse := mkResponse (IdNum 3) (Some (JObj [])) None.

(** A subprocess whose input pipe is broken. *)
Definition brokenPipe : SpawnOutcome := mkSpawn (Some 4243) true (Some (str "EPIPE")).

(** A subprocess that never gets a process id. *)
Definition neverStarts : SpawnOutcome := mkSpawn None true None.

(** A slash that follows a slash goes. *)
Fixpoint squeeze (s : jsstring) : jsstring :=
  match s with
  | [] => []
  | a :: rest =>
      match rest with
      | b :: _ => if ((a =? 47) && (b =? 47))%N then squeeze rest
                  else a :: squeeze rest
      | [] => [a]
      end
  end.

(** [path.join] on parts that have no [.] or [..] in them. *)
Definition joinPaths (parts : list jsstring) : jsstring :=
  squeeze (Js.join (str "/") parts).

(** A configuration file that sets the timeout alone. *)
Definition timeoutFile : jsstring :=
  str "{" ++ quote (str "timeoutMs") ++ str ": 5}".

(** [JSON.parse] on the generated file and on the file above; anything
    else is not JSON. *)
Definition parseFile (raw : jsstring) : option MiniMaxMcpConfig :=
  if Js.eqb raw defaultConfigText then Some DEFAULT_CONFIG
  else if Js.eqb raw timeoutFile
       then Some (mkConfig None None None None (Some 5) None None)
       else None.

Definition emptyEnv : Env := mkEnv None None None None None None None.

(** An environment with a key and a timeout of its own. *)
Definition keyEnv : Env :=
  mkEnv (Some (str "secret")) None None None (Some (str "30000")) None None.

Definition noFlags : Flags := mkFlags None None None None None.

End MoreExamples.

(* ===================================================================== *)
(** ** Properties of the formatter *)
(* ===================================================================== *)

Module UtilsFacts.
Import Js Json Utils Examples.

Local Open Scope Z_scope.

(** *** Texts *)

Lemma of_Z_nonempty (z : Z) : of_Z z <> [].
Proof.
  unfold of_Z, str.
  assert (H : forall d, d <> Decimal.Nil ->
                        NilEmpty.string_of_uint d <> EmptyString)
    by (intros [] ; simpl; congruence).
  destruct z as [|p|p]; simpl; try discriminate.
  - specialize (H _ (DecimalPos.Unsigned.to_uint_nonnil p)).
    destruct (NilEmpty.string_of_uint (Pos.to_uint p)); simpl; congruence.
Qed.

Lemma wrap_nonempty gap indent o c members : wrap gap indent o c members <> [].
Proof. unfold wrap. destruct members, gap; discriminate. Qed.

Lemma serialize_nonempty gap indent v : serialize gap indent v <> [].
Proof.
  destruct v as [|[]| | | |]; simpl;
    try discriminate; auto using of_Z_nonempty, wrap_nonempty.
Qed.

Lemma keptText_within raw maxBytes maxLines :
  lineCount raw <= maxLines -> byteLength raw <= maxBytes ->
  keptText raw maxBytes maxLines = raw.
Proof.
  unfold keptText, lineCount. intros Hl Hb.
  apply Z.ltb_ge in Hl, Hb. rewrite Hl, Hb. reflexivity.
Qed.

(** When the line budget is exceeded the kept text is the last lines of the
    original, whatever the byte budget did before. *)
Lemma keptText_over_lines raw maxBytes maxLines :
  maxLines < lineCount raw ->
  keptText raw maxBytes maxLines
  = join [LF] (slice_from (- maxLines) (split LF raw)).
Proof.
  unfold keptText, lineCount. intros Hl.
  apply Z.ltb_lt in Hl. rewrite Hl. reflexivity.
Qed.

Lemma eqb_eq a b : Js.eqb a b = true <-> a = b.
Proof.
  revert b. induction a as [|x a IH]; intros [|y b]; simpl;
    try (split; [discriminate | congruence]); [tauto|].
  rewrite andb_true_iff, N.eqb_eq, IH. split; [intros [-> ->] | intros [=]]; auto.
Qed.

(** *** Lines *)

Lemma split_nonempty s : split LF s <> [].
Proof.
  destruct s as [|u s]; simpl; [discriminate|].
  destruct (u =? LF)%N; [discriminate|]. destruct (split LF s); discriminate.
Qed.

Lemma split_clean s : Forall (fun l => ~ In LF l) (split LF s).
Proof.
  induction s as [|u s IH]; simpl.
  - constructor; auto.
  - destruct (N.eqb_spec u LF) as [->|Hu].
    + constructor; auto.
    + destruct (split LF s) as [|l ls]; [constructor; auto; simpl; tauto|].
      inversion IH; subst. constructor; auto. simpl. tauto.
Qed.

Lemma split_no_sep l : ~ In LF l -> split LF l = [l].
Proof.
  induction l as [|u l IH]; intros H; simpl; [reflexivity|].
  destruct (N.eqb_spec u LF) as [->|_]; [elim H; now left|].
  rewrite IH; [reflexivity|]. intros Hin. apply H. now right.
Qed.

Lemma split_app l rest :
  ~ In LF l -> split LF (l ++ LF :: rest) = l :: split LF rest.
Proof.
  induction l as [|u l IH]; intros H; simpl; [reflexivity|].
  destruct (N.eqb_spec u LF) as [->|_]; [elim H; now left|].
  rewrite IH; [reflexivity|]. intros Hin. apply H. now right.
Qed.

(** Joining lines and splitting again gives the lines back. *)
Lemma split_join ls :
  ls <> [] -> Forall (fun l => ~ In LF l) ls -> split LF (join [LF] ls) = ls.
Proof.
  induction ls as [|l ls IH]; intros Hne H; [now elim Hne|].
  inversion H as [|? ? Hl Hls]; subst. simpl.
  destruct ls as [|l2 ls].
  - now apply split_no_sep.
  - change (l ++ [LF] ++ join [LF] (l2 :: ls))
      with (l ++ LF :: join [LF] (l2 :: ls)).
    rewrite split_app by assumption. f_equal. apply IH; [discriminate | assumption].
Qed.

Lemma Forall_skipn_keep {A} (P : A -> Prop) n l : Forall P l -> Forall P (skipn n l).
Proof.
  revert l. induction n as [|n IH]; intros [|x l] H; simpl; auto.
  inversion H; auto.
Qed.

(** The last [m] elements of an array: [xs.slice(-m)] for [1 <= m < length]. *)
Lemma slice_from_last {A} (xs : list A) m :
  1 <= m < Z.of_nat (length xs) ->
  length (slice_from (- m) xs) = Z.to_nat m.
Proof.
  intros H. unfold slice_from, clamp.
  destruct (Z.ltb_spec (- m) 0); [|lia].
  rewrite length_skipn. lia.
Qed.

(** *** ASCII texts *)

Lemma encode_ascii_unit u : (u < 128)%N ->
  is_high u = false /\ is_low u = false /\ encode_bmp u = [u].
Proof.
  intros H. unfold is_high, is_low, encode_bmp.
  rewrite (proj2 (N.leb_gt 0xD800 u)) by lia.
  rewrite (proj2 (N.leb_gt 0xDC00 u)) by lia.
  rewrite (proj2 (N.ltb_lt u 0x80)) by lia.
  auto.
Qed.

Lemma utf8_encode_ascii s : ascii s -> utf8_encode s = s.
Proof.
  induction 1 as [|u s Hu Hs IH]; [reflexivity|].
  destruct (encode_ascii_unit Hu) as (E1 & E2 & E3).
  cbn [utf8_encode]. rewrite E1, E2, E3, IH. reflexivity.
Qed.

Lemma byteLength_ascii s : ascii s -> byteLength s = Z.of_nat (length s).
Proof. intros H. unfold byteLength. now rewrite utf8_encode_ascii. Qed.

Lemma ascii_firstn n s : ascii s -> ascii (firstn n s).
Proof.
  unfold ascii. revert s. induction n as [|n IH]; intros [|u s] H; simpl; auto.
  inversion H; auto.
Qed.

Lemma ascii_check s : forallb (fun u => (u <? 128)%N) s = true -> ascii s.
Proof.
  intros H. apply Forall_forall. intros u Hu.
  rewrite forallb_forall in H. now apply N.ltb_lt, H.
Qed.

(** *** formatToolOutput *)

(** C9: a text within both budgets is returned unchanged, with
    [truncated = false], no temp file path, and no file written. *)
Theorem formatToolOutput_within_budget
    (result : json) (options : FormatOptions) (h : Host) (fs : FileSystem)
    (raw : jsstring) :
  rawText result = Some raw ->
  lineCount raw <= default (Utils.maxLines options) 2000 ->
  byteLength raw <= default (Utils.maxBytes options) 51200 ->
  formatToolOutput result options h fs
  = Some (mkFormattedOutput raw
            (mkDetails false (lineCount raw) (byteLength raw)
               (lineCount raw) (byteLength raw) None),
          fs).
Proof.
  intros Hraw Hl Hb. unfold formatToolOutput, formatText.
  rewrite Hraw, (keptText_within _ Hl Hb).
  apply Z.ltb_ge in Hl, Hb. rewrite Hl, Hb. reflexivity.
Qed.

Lemma formatToolOutput_within_budget_witness :
  formatToolOutput (textResult threeLines) (mkFormatOptions None None) host []
  = Some (mkFormattedOutput threeLines
            (mkDetails false 3 10 3 10 None), []).
Proof.
  apply (@formatToolOutput_within_budget
           (textResult threeLines) (mkFormatOptions None None) host []
           threeLines).
  - reflexivity.
  - vm_compute. discriminate.
  - vm_compute. discriminate.
Defined.

(** C10: when the text blocks join to the empty string, which a single
    empty text block already does, the text that is formatted is the
    structural dump of the whole result. *)
Theorem formatToolOutput_empty_text_dumps_result
    (result : json) (options : FormatOptions) (h : Host) (fs : FileSystem)
    (blocks : list json) (ts : list jsstring) :
  contentBlocks result = Some blocks ->
  textBlocks blocks = Some ts ->
  join [LF; LF] ts = [] ->
  rawText result = Some (stringify2 result)
  /\ stringify2 result <> []
  /\ formatToolOutput result options h fs
     = Some (formatText (stringify2 result)
               (default (Utils.maxBytes options) 51200)
               (default (Utils.maxLines options) 2000) h fs).
Proof.
  intros Hc Ht Hj.
  assert (Hraw : rawText result = Some (stringify2 result))
    by (unfold rawText; rewrite Hc, Ht, Hj; reflexivity).
  repeat split.
  - exact Hraw.
  - apply serialize_nonempty.
  - unfold formatToolOutput. rewrite Hraw. reflexivity.
Qed.

Lemma formatToolOutput_empty_text_dumps_result_witness :
  rawText (textResult []) = Some (stringify2 (textResult []))
  /\ stringify2 (textResult []) <> []
  /\ formatToolOutput (textResult []) (mkFormatOptions None None) host []
     = Some (formatText (stringify2 (textResult [])) 51200 2000 host []).
Proof.
  apply (@formatToolOutput_empty_text_dumps_result
           (textResult []) (mkFormatOptions None None) host []
           [JObj [(str "type", JStr (str "text")); (str "text", JStr [])]]
           [[]]); reflexivity.
Defined.

(** The dump of a result whose only block is an empty text: eight lines. *)
Example dump_of_empty_text_block :
  rawText (textResult [])
  = Some (join [LF]
            [str "{";
             str "  " ++ quote (str "content") ++ str ": [";
             str "    {";
             str "      " ++ quote (str "type") ++ str ": " ++ quote (str "text") ++ str ",";
             str "      " ++ quote (str "text") ++ str ": " ++ quote [];
             str "    }";
             str "  ]";
             str "}"]).
Proof. reflexivity. Qed.

(** C1, at inputs where it fails. Two lines and seven bytes against
    [maxLines = 1] and [maxBytes = 2]: both budgets are exceeded, the byte
    truncation is computed and then replaced by the last line of the
    original, so the kept text has five bytes. With the default budgets,
    2001 lines of thirty letters are 62,030 bytes: the kept text is the
    last 2000 lines, 61,999 bytes against 51,200. *)
Theorem formatToolOutput_both_budgets_exceeded :
  (lineCount (thirtyLetterLines 2001) = 2001
   /\ byteLength (thirtyLetterLines 2001) = 62030
   /\ lineCount (keptText (thirtyLetterLines 2001) 51200 2000) = 2000
   /\ byteLength (keptText (thirtyLetterLines 2001) 51200 2000) = 61999)
  /\ rawText (textResult twoLines) = Some twoLines
  /\ lineCount twoLines = 2
  /\ byteLength twoLines = 7
  /\ keptText twoLines 2 1 = str "bbbbb"
  /\ byteLength (keptText twoLines 2 1) = 5
  /\ option_map (fun r => text (fst r))
       (formatToolOutput (textResult twoLines)
          (mkFormatOptions (Some 2) (Some 1)) host [])
     = Some (str "bbbbb"
             ++ truncationInfo 2 7 2 1 (str "/tmp/pi-minimax-mcp-1700000000000.txt")).
Proof. split_all; vm_compute; reflexivity. Qed.

(** Over the line budget, the kept text is made of the last [maxLines]
    lines of the original, exactly that many. *)
Theorem keptText_line_budget (raw : jsstring) (maxBytes maxLines : Z) :
  1 <= maxLines -> maxLines < lineCount raw ->
  keptText raw maxBytes maxLines
  = join [LF] (slice_from (- maxLines) (split LF raw))
  /\ lineCount (keptText raw maxBytes maxLines) = maxLines.
Proof.
  intros H1 H2. rewrite keptText_over_lines by assumption.
  split; [reflexivity|]. unfold lineCount in *.
  pose proof (@slice_from_last _ (split LF raw) maxLines (conj H1 H2)) as L.
  rewrite split_join.
  - lia.
  - intros E. rewrite E in L. simpl in L. lia.
  - apply Forall_skipn_keep, split_clean.
Qed.

Lemma keptText_line_budget_witness :
  keptText (shortLines 5000) 51200 2000
  = join [LF] (slice_from (- 2000) (split LF (shortLines 5000)))
  /\ lineCount (keptText (shortLines 5000) 51200 2000) = 2000.
Proof.
  apply (@keptText_line_budget (shortLines 5000) 51200 2000).
  - lia.
  - vm_compute. reflexivity.
Defined.

(** *** truncateHead *)

(** C8, at inputs where it fails: the first line is cut at [maxBytes]
    UTF-16 units, not bytes. Two letters e-acute are four bytes, over
    [maxBytes = 3], and both are kept; a line of 50,000 of them is 100,000
    bytes, over the default 51,200, and is kept whole. *)
Theorem truncateHead_first_line_cut_in_units :
  (let r := truncateHead (accented 2) (mkFormatOptions (Some 3) None) in
   firstLineExceedsLimit r = true
   /\ h_truncated r = true
   /\ content r = accented 2 ++ truncatedMarker
   /\ byteLength (accented 2) = 4)
  /\
  (let r := truncateHead (accented 50000) (mkFormatOptions None None) in
   firstLineExceedsLimit r = true
   /\ h_truncated r = true
   /\ content r = accented 50000 ++ truncatedMarker
   /\ byteLength (accented 50000) = 100000).
Proof.
  cbv zeta. split_all;
    lazymatch goal with
    | |- content _ = _ => apply eqb_eq
    | |- _ => idtac
    end; vm_compute; reflexivity.
Qed.

(** An ASCII first line over the byte budget is cut to exactly [maxBytes]
    bytes, followed by the marker. *)
Theorem truncateHead_ascii_first_line
    (text : jsstring) (options : FormatOptions) :
  let maxBytes := default (Utils.maxBytes options) 51200 in
  let line0 := hd [] (split LF text) in
  ascii line0 -> 0 <= maxBytes -> maxBytes < byteLength line0 ->
  let r := truncateHead text options in
  firstLineExceedsLimit r = true
  /\ h_truncated r = true
  /\ content r = firstn (Z.to_nat maxBytes) line0 ++ truncatedMarker
  /\ byteLength (firstn (Z.to_nat maxBytes) line0) = maxBytes.
Proof.
  intros maxBytes line0 Ha H0 Hb r.
  assert (Hl : byteLength line0 = Z.of_nat (length line0))
    by now apply byteLength_ascii.
  assert (Hne : Js.eqb line0 [] = false).
  { destruct line0; [simpl in Hl; lia | reflexivity]. }
  assert (Hc : slice 0 maxBytes line0 = firstn (Z.to_nat maxBytes) line0).
  { unfold slice, clamp. change (0 <? 0) with false. cbv iota.
    destruct (Z.ltb_spec maxBytes 0); [lia|].
    rewrite (Z.min_l 0) by lia. change (Z.to_nat 0) with 0%nat.
    rewrite Nat.sub_0_r. cbn [skipn]. f_equal. lia. }
  unfold r, truncateHead. fold maxBytes. fold line0.
  apply Z.ltb_lt in Hb. rewrite Hne, Hb. simpl.
  rewrite Hc. split_all; try reflexivity.
  rewrite byteLength_ascii by now apply ascii_firstn.
  rewrite length_firstn. apply Z.ltb_lt in Hb. lia.
Qed.

Lemma truncateHead_ascii_first_line_witness :
  let maxBytes := default (Utils.maxBytes (mkFormatOptions None None)) 51200 in
  let line0 := hd [] (split LF (longLine 100000)) in
  let r := truncateHead (longLine 100000) (mkFormatOptions None None) in
  byteLength line0 = 100000
  /\ firstLineExceedsLimit r = true
  /\ h_truncated r = true
  /\ content r = firstn (Z.to_nat maxBytes) line0 ++ truncatedMarker
  /\ byteLength (firstn (Z.to_nat maxBytes) line0) = maxBytes.
Proof.
  split; [vm_compute; reflexivity|].
  apply (@truncateHead_ascii_first_line (longLine 100000)
           (mkFormatOptions None None)).
  - apply ascii_check. vm_compute. reflexivity.
  - vm_compute. discriminate.
  - vm_compute. reflexivity.
Defined.

End UtilsFacts.

(* ===================================================================== *)
(** ** Properties of the session *)
(* ===================================================================== *)

Module ClientFacts.
Import Js Json Client Examples.

Local Open Scope Z_scope.

(** *** Names, maps and timers *)

Lemma ref_eqb_eq p q : ref_eqb p q = true <-> p = q.
Proof.
  destruct p, q; simpl; split; intros H; try discriminate;
    try (apply Nat.eqb_eq in H; congruence);
    try (apply Z.eqb_eq in H; congruence);
    inversion H; subst; auto using Nat.eqb_refl, Z.eqb_refl.
Qed.

Lemma ref_eqb_refl p : ref_eqb p p = true.
Proof. now apply ref_eqb_eq. Qed.

Lemma timer_eqb_eq a b : timer_eqb a b = true <-> a = b.
Proof.
  destruct a, b; simpl; split; intros H; try discriminate;
    try (apply Nat.eqb_eq in H; congruence);
    try (apply Z.eqb_eq in H; congruence);
    inversion H; subst; auto using Nat.eqb_refl, Z.eqb_refl.
Qed.

Lemma armed_In t s : armed t s = true <-> In t (timers s).
Proof.
  unfold armed. rewrite existsb_exists. split.
  - intros (x & Hx & E). apply timer_eqb_eq in E. now subst.
  - intros H. exists t. split; [exact H | now apply timer_eqb_eq].
Qed.

Lemma mapGet_mapSet {V} k k' (v : V) m :
  mapGet k' (mapSet k v m) = if k' =? k then Some v else mapGet k' m.
Proof.
  induction m as [|[k0 v0] m IH]; simpl.
  - reflexivity.
  - destruct (k =? k0) eqn:E; simpl.
    + apply Z.eqb_eq in E. subst k0. destruct (k' =? k); reflexivity.
    + rewrite IH. destruct (k' =? k0) eqn:E0; [|reflexivity].
      apply Z.eqb_eq in E0. subst k0.
      rewrite Z.eqb_sym in E. now rewrite E.
Qed.

Lemma mapGet_mapDelete {V} k k' (m : list (Z * V)) :
  mapGet k' (mapDelete k m) = if k' =? k then None else mapGet k' m.
Proof.
  induction m as [|[k0 v0] m IH]; simpl.
  - now destruct (k' =? k).
  - destruct (k =? k0) eqn:E; simpl.
    + apply Z.eqb_eq in E. subst k0. rewrite IH.
      now destruct (k' =? k).
    + rewrite IH. destruct (k' =? k0) eqn:E0; [|reflexivity].
      apply Z.eqb_eq in E0. subst k0.
      rewrite Z.eqb_sym in E. now rewrite E.
Qed.

Lemma mapGet_In {V} k (v : V) m : mapGet k m = Some v -> In k (map fst m).
Proof.
  induction m as [|[k0 v0] m IH]; simpl; [discriminate|].
  destruct (k =? k0) eqn:E.
  - apply Z.eqb_eq in E. auto.
  - auto.
Qed.

Lemma mapGet_None {V} k (m : list (Z * V)) :
  mapGet k m = None <-> ~ In k (map fst m).
Proof.
  induction m as [|[k0 v0] m IH]; simpl.
  - tauto.
  - destruct (k =? k0) eqn:E.
    + apply Z.eqb_eq in E. split; [discriminate | intros H; exfalso; auto].
    + apply Z.eqb_neq in E. rewrite IH. intuition congruence.
Qed.

Lemma keys_mapDelete {V} k (m : list (Z * V)) :
  NoDup (map fst m) -> NoDup (map fst (mapDelete k m)).
Proof.
  induction m as [|[k0 v0] m IH]; simpl; intros H; [constructor|].
  inversion H as [|? ? Hn Hm]; subst.
  destruct (k =? k0); simpl; auto.
  constructor; auto.
  intros Hin. apply Hn. unfold mapDelete in Hin.
  apply in_map_iff in Hin as (e & <- & He).
  apply filter_In in He. apply in_map, He.
Qed.

Lemma keys_mapSet {V} k (v : V) m :
  NoDup (map fst m) -> NoDup (map fst (mapSet k v m)).
Proof.
  induction m as [|[k0 v0] m IH]; simpl; intros H.
  - constructor; [tauto | constructor].
  - inversion H as [|? ? Hn Hm]; subst.
    destruct (k =? k0) eqn:E; simpl.
    + apply Z.eqb_eq in E. subst. now constructor.
    + constructor; auto. intros Hin. apply Hn.
      apply Z.eqb_neq in E.
      assert (G : forall m', In k0 (map fst (mapSet k v m')) -> In k0 (map fst m')).
      { induction m' as [|[k1 v1] m' IH']; simpl.
        - intuition congruence.
        - destruct (k =? k1) eqn:E1; simpl; [|tauto].
          apply Z.eqb_eq in E1. subst. intuition congruence. }
      auto.
Qed.

(** *** Promises *)

Lemma stateIn_app p ps q st :
  stateIn p (ps ++ [(q, st)])
  = match stateIn p ps with
    | Some x => Some x
    | None => if ref_eqb p q then Some st else None
    end.
Proof.
  induction ps as [|[q0 st0] ps IH]; simpl.
  - reflexivity.
  - destruct (ref_eqb p q0); [reflexivity | exact IH].
Qed.

Lemma stateIn_setState p q st ps :
  stateIn p (setState q st ps)
  = if ref_eqb p q
    then match stateIn q ps with Some _ => Some st | None => None end
    else stateIn p ps.
Proof.
  induction ps as [|[q0 st0] ps IH]; simpl.
  - now destruct (ref_eqb p q).
  - destruct (ref_eqb q q0) eqn:E; simpl.
    + apply ref_eqb_eq in E. subst q0.
      destruct (ref_eqb p q); reflexivity.
    + rewrite IH. destruct (ref_eqb p q) eqn:E1; [|reflexivity].
      apply ref_eqb_eq in E1. subst p. now rewrite E.
Qed.

Lemma requestIds_app ps qs : requestIds (ps ++ qs) = requestIds ps ++ requestIds qs.
Proof. apply flat_map_app. Qed.

Lemma requestIds_setState q st ps : requestIds (setState q st ps) = requestIds ps.
Proof.
  induction ps as [|[q0 st0] ps IH]; simpl; [reflexivity|].
  destruct (ref_eqb q q0); simpl; [reflexivity | now rewrite IH].
Qed.

Lemma requestIds_In id ps :
  In id (requestIds ps) <-> stateIn (RequestP id) ps <> None.
Proof.
  induction ps as [|[q0 st0] ps IH]; simpl.
  - tauto.
  - rewrite in_app_iff, IH. destruct q0 as [k|id0|k]; simpl;
      try (split; [intros [[]|H]; exact H | auto]).
    destruct (id =? id0) eqn:E.
    + apply Z.eqb_eq in E. subst. split; [discriminate | auto].
    + apply Z.eqb_neq in E. split; [intros [[H|[]]|H]; congruence | auto].
Qed.

Lemma upto_In id n : 0 <= n -> In id (upto n) <-> 1 <= id <= n.
Proof.
  intros Hn. unfold upto. rewrite in_map_iff. split.
  - intros (k & <- & Hk). apply in_seq in Hk. lia.
  - intros H. exists (Z.to_nat id). split; [lia|]. apply in_seq. lia.
Qed.

Lemma seq_increasing a n : StronglySorted Z.lt (map Z.of_nat (seq a n)).
Proof.
  revert a. induction n as [|n IH]; intros a; simpl; constructor; auto.
  apply Forall_forall. intros x Hx. apply in_map_iff in Hx as (k & <- & Hk).
  apply in_seq in Hk. lia.
Qed.

(** [upto n] is strictly increasing, so without repetition, and positive. *)
Lemma upto_increasing n :
  StronglySorted Z.lt (upto n) /\ Forall (fun i => 1 <= i) (upto n).
Proof.
  split; [apply seq_increasing|]. apply Forall_forall. intros x Hx.
  apply in_map_iff in Hx as (k & <- & Hk). apply in_seq in Hk. lia.
Qed.

Lemma upto_succ n : 0 <= n -> upto (n + 1) = upto n ++ [n + 1].
Proof.
  intros Hn. unfold upto.
  replace (Z.to_nat (n + 1)) with (S (Z.to_nat n)) by lia.
  rewrite seq_S, map_app. simpl. do 2 f_equal. lia.
Qed.

(** The fields [settle] leaves alone. *)
Lemma settle_frame p o s :
  config (settle p o s) = config s
  /\ process (settle p o s) = process s
  /\ requestId (settle p o s) = requestId s
  /\ pendingRequests (settle p o s) = pendingRequests s
  /\ buffer (settle p o s) = buffer s
  /\ initialized (settle p o s) = initialized s
  /\ initPromise (settle p o s) = initPromise s
  /\ children (settle p o s) = children s
  /\ timers (settle p o s) = timers s
  /\ console (settle p o s) = console s.
Proof.
  unfold settle. destruct (promiseState p s) as [[| |]|];
    repeat split; reflexivity.
Qed.

(** The first [resolve] or [reject] decides the state; a settled promise
    keeps it. *)
Lemma settle_state p o s q :
  promiseState q (settle p o s)
  = if ref_eqb q p
    then match promiseState p s with
         | Some Pending => Some o
         | x => x
         end
    else promiseState q s.
Proof.
  unfold settle, promiseState.
  destruct (stateIn p (promises s)) as [[| |]|] eqn:E; simpl;
    try (destruct (ref_eqb q p) eqn:E1; [|reflexivity];
         apply ref_eqb_eq in E1; subst; exact E).
  rewrite stateIn_setState, E. reflexivity.
Qed.

Lemma settle_issued p o s : issued (settle p o s) = issued s.
Proof.
  unfold settle, issued. destruct (promiseState p s) as [[| |]|]; simpl;
    auto using requestIds_setState.
Qed.

(** *** Steps that leave the requests alone *)

Lemma same_refl s : sameRequests s s.
Proof. constructor; reflexivity. Qed.

Lemma same_trans s1 s2 s3 :
  sameRequests s1 s2 -> sameRequests s2 s3 -> sameRequests s1 s3.
Proof.
  intros [] []. constructor; intros; congruence.
Qed.

Lemma wf_same s s' : wf s -> sameRequests s s' -> wf s'.
Proof.
  intros [Hc Hi Hp Hk] [Ec Er Ep Ei Es Ea]. constructor.
  - now rewrite Er.
  - now rewrite Ei, Er.
  - intros id r. rewrite Ep, Es, Ea. apply Hp.
  - now rewrite Ep.
Qed.

Lemma same_settle p o s :
  (forall id, p <> RequestP id) -> sameRequests s (settle p o s).
Proof.
  intros Hp. destruct (settle_frame p o s) as (?&?&?&?&?&?&?&?&Ht&?).
  constructor; auto using settle_issued.
  - intros id. rewrite settle_state.
    destruct (ref_eqb (RequestP id) p) eqn:E; [|reflexivity].
    apply ref_eqb_eq in E. now elim (Hp id).
  - intros id. unfold armed. now rewrite Ht.
Qed.

Lemma same_newPromise p s :
  (forall id, p <> RequestP id) -> sameRequests s (newPromise p s).
Proof.
  intros Hp. constructor; try reflexivity.
  - unfold issued, newPromise. simpl. rewrite requestIds_app. simpl.
    destruct p as [k|i|k]; simpl; rewrite ?app_nil_r; try reflexivity.
    now elim (Hp i).
  - intros id. unfold promiseState, newPromise. simpl. rewrite stateIn_app.
    destruct (stateIn (RequestP id) (promises s)); [reflexivity|].
    destruct (ref_eqb (RequestP id) p) eqn:E; [|reflexivity].
    apply ref_eqb_eq in E. now elim (Hp id).
Qed.

Lemma same_await p k s : sameRequests s (await p k s).
Proof.
  unfold await. destruct (promiseState p s) as [[| |]|];
    constructor; try reflexivity.
Qed.

Lemma same_setTimer t s :
  (forall id, t <> RequestTimer id) -> sameRequests s (setTimer t s).
Proof.
  intros Ht. constructor; try reflexivity.
  intros id. unfold armed, setTimer, with_timers. cbn [timers].
  rewrite existsb_app. cbn [existsb].
  destruct (timer_eqb (RequestTimer id) t) eqn:E.
  - apply timer_eqb_eq in E. now elim (Ht id).
  - now rewrite !orb_false_r.
Qed.

Lemma same_clearTimer t s :
  (forall id, t <> RequestTimer id) -> sameRequests s (clearTimer t s).
Proof.
  intros Ht. constructor; try reflexivity.
  intros id. apply eq_true_iff_eq. rewrite !armed_In.
  unfold clearTimer. simpl. rewrite filter_In. split; [tauto|].
  intros H. split; [exact H|].
  destruct (timer_eqb t (RequestTimer id)) eqn:E; [|reflexivity].
  apply timer_eqb_eq in E. now elim (Ht id).
Qed.

Lemma same_cleanup s : sameRequests s (cleanup s).
Proof.
  unfold cleanup. simpl. destruct (process s); constructor; reflexivity.
Qed.

Lemma same_write h line s s' : write h line s = inr s' -> sameRequests s s'.
Proof.
  unfold write. destruct (child h s) as [c|].
  - destruct (writeError c); [discriminate|].
    intros [= <-]. constructor; reflexivity.
  - intros [= <-]. apply same_refl.
Qed.

(** *** The invariant *)

Lemma wf_init cfg : wf (init cfg).
Proof.
  constructor; simpl.
  - lia.
  - reflexivity.
  - intros ? ? [=].
  - constructor.
Qed.

(** A request is completed: its record leaves the map, its timer is
    cleared, its promise is settled. *)
Lemma wf_complete n o s :
  wf s ->
  wf (settle (RequestP n) o
        (clearTimer (RequestTimer n)
           (with_pendingRequests (mapDelete n (pendingRequests s)) s))).
Proof.
  intros [Hc Hi Hp Hk].
  set (s1 := clearTimer _ _).
  destruct (settle_frame (RequestP n) o s1) as (_&_&Er&Ep&_&_&_&_&Et&_).
  pose proof (settle_issued (RequestP n) o s1) as Ei.
  pose proof (settle_state (RequestP n) o s1) as Es.
  unfold s1 in *. clear s1. simpl in Er, Ep, Et.
  constructor.
  - now rewrite Er.
  - now rewrite Ei, Er.
  - intros k r. rewrite Ep, mapGet_mapDelete.
    destruct (k =? n) eqn:E; [discriminate|]. intros Hr.
    destruct (Hp _ _ Hr) as (-> & Hs & Ha). repeat split.
    + rewrite Es. simpl. rewrite E. exact Hs.
    + apply armed_In. rewrite Et.
      apply filter_In. split; [now apply armed_In|].
      simpl. rewrite Z.eqb_sym, E. reflexivity.
  - rewrite Ep. now apply keys_mapDelete.
Qed.

Lemma fresh_request s : wf s -> promiseState (RequestP (requestId s + 1)) s = None.
Proof.
  intros [Hc Hi _ _]. unfold promiseState.
  destruct (stateIn _ _) eqn:E; [|reflexivity].
  assert (H : In (requestId s + 1) (requestIds (promises s)))
    by (apply requestIds_In; congruence).
  fold (issued s) in H. rewrite Hi in H. apply upto_In in H; lia.
Qed.

(** The session once [sendRequest] has registered its request, before the
    write. *)
Lemma wf_registered s :
  wf s ->
  let id := requestId s + 1 in
  wf (with_pendingRequests
        (mapSet id (recordOf id) (pendingRequests s))
        (setTimer (RequestTimer id)
           (newPromise (RequestP id) (with_requestId id s)))).
Proof.
  intros H id. pose proof (fresh_request H) as Hf. fold id in Hf.
  destruct H as [Hc Hi Hp Hk]. constructor; simpl.
  - lia.
  - unfold issued. simpl. rewrite requestIds_app. fold (issued s).
    rewrite Hi. simpl. unfold id. now rewrite upto_succ.
  - intros k r. rewrite mapGet_mapSet. unfold promiseState. simpl.
    rewrite stateIn_app. unfold armed. simpl. rewrite existsb_app. simpl.
    destruct (k =? id) eqn:E.
    + apply Z.eqb_eq in E. subst k. intros [= <-]. repeat split.
      * unfold promiseState in Hf. now rewrite Hf.
      * rewrite ?Z.eqb_refl. apply orb_true_r.
    + intros Hr. destruct (Hp _ _ Hr) as (-> & Hs & Ha). repeat split.
      * unfold promiseState in Hs. now rewrite Hs.
      * unfold armed in Ha. now rewrite Ha.
  - now apply keys_mapSet.
Qed.

Lemma wf_sendRequest method params s :
  wf s -> wf (fst (sendRequest method params s)).
Proof.
  intros H. unfold sendRequest.
  destruct (processStdin s) as [h|]; [|exact H].
  pose proof (wf_registered H) as H1. cbv zeta in H1.
  destruct (write h _ _) as [e|s'] eqn:W; simpl.
  - apply (wf_complete (requestId s + 1) (Rejected e)) in H1. exact H1.
  - eapply wf_same; [exact H1 | eapply same_write, W].
Qed.

Lemma wf_handleMessage message s : wf s -> wf (handleMessage message s).
Proof.
  intros H. unfold handleMessage.
  destruct (id message) as [| |n|]; try exact H.
  destruct (mapGet n (pendingRequests s)) as [r|] eqn:E; [|exact H].
  destruct (wf_pending H _ E) as (-> & _ & _). simpl.
  now apply wf_complete.
Qed.

Lemma settle_all_frame err (entries : list (Z * PendingRequest)) s :
  let s' := fold_left (fun s entry => settle (reject (snd entry)) (Rejected err) s)
              entries s in
  requestId s' = requestId s /\ issued s' = issued s.
Proof.
  revert s. induction entries as [|e entries IH]; intros s; simpl.
  - auto.
  - destruct (IH (settle (reject (snd e)) (Rejected err) s)) as [E1 E2].
    destruct (settle_frame (reject (snd e)) (Rejected err) s) as (_&_&Er&_).
    rewrite E1, E2, Er, settle_issued. auto.
Qed.

Lemma wf_handleProcessError err s : wf s -> wf (handleProcessError err s).
Proof.
  intros [Hc Hi Hp Hk]. unfold handleProcessError.
  eapply wf_same; [|apply same_cleanup].
  destruct (settle_all_frame err (pendingRequests s) s) as [E1 E2].
  constructor; simpl.
  - now rewrite E1.
  - unfold issued in *. simpl. now rewrite E2, E1.
  - intros ? ? [=].
  - constructor.
Qed.

Lemma wf_fire t s : wf s -> wf (fire t s).
Proof.
  intros H. unfold fire. destruct (armed t s); [|exact H].
  destruct t as [n|k|k].
  - apply (wf_complete n (Rejected (requestTimeout (config s)))) in H.
    exact H.
  - eapply wf_same; [exact H|].
    eapply same_trans; [|apply same_settle; intros ?; discriminate].
    apply same_clearTimer; intros ?; discriminate.
  - destruct (match process s with Some _ => _ | None => _ end) as [n|];
      [|exact H].
    destruct (n =? 0); [exact H|].
    eapply wf_same; [exact H|].
    eapply same_trans; [|apply same_settle; intros ?; discriminate].
    eapply same_trans; [|apply same_clearTimer; intros ?; discriminate].
    apply same_clearTimer; intros ?; discriminate.
Qed.

Lemma same_doConnect spawn s : sameRequests s (fst (doConnect spawn s)).
Proof.
  unfold doConnect. simpl.
  eapply same_trans; [|apply same_await].
  eapply same_trans; [|apply same_setTimer; intros ?; discriminate].
  eapply same_trans; [|apply same_setTimer; intros ?; discriminate].
  eapply same_trans; [|apply same_newPromise; intros ?; discriminate].
  eapply same_trans; [|apply same_newPromise; intros ?; discriminate].
  constructor; reflexivity.
Qed.

Lemma same_connect spawn s : sameRequests s (fst (connect spawn s)).
Proof.
  unfold connect. destruct (initialized s); [apply same_refl|].
  destruct (initPromise s); [apply same_refl|].
  pose proof (same_doConnect spawn s) as H.
  destruct (doConnect spawn s) as [s' p]. simpl in *.
  eapply same_trans; [exact H|]. constructor; reflexivity.
Qed.

Lemma same_callTool name args spawn s :
  sameRequests s (fst (callTool name args spawn s)).
Proof.
  unfold callTool.
  pose proof (same_connect spawn (newPromise (CallP (fresh s)) s)) as H.
  destruct (connect spawn _) as [s' c]. simpl in H.
  assert (H0 : sameRequests s s').
  { eapply same_trans; [|exact H].
    apply same_newPromise. intros ?; discriminate. }
  destruct c; simpl.
  - eapply same_trans; [exact H0|]. constructor; reflexivity.
  - eapply same_trans; [exact H0 | apply same_await].
Qed.

Lemma wf_resume k outcome s : wf s -> wf (resume k outcome s).
Proof.
  intros H.
  assert (Hc : forall self o s, wf s -> wf (settle (CallP self) o s))
    by (intros; eapply wf_same; [eassumption | apply same_settle];
        intros ?; discriminate).
  assert (Hs : forall m p self k s, wf s ->
               wf match sendRequest m p s with
                  | (s, inl e) => settle (CallP self) (Rejected e) s
                  | (s, inr q) => await q k s
                  end).
  { intros m p self k0 s0 H0. pose proof (wf_sendRequest m p H0) as H1.
    destruct (sendRequest m p s0) as [s1 [e|q]]; simpl in H1; auto.
    eapply wf_same; [exact H1 | apply same_await]. }
  destruct k, outcome as [|[]|]; simpl; auto.
  destruct (error r); auto.
  unfold sendNotification. destruct (processStdin s) as [h|]; auto.
  destruct (write h _ s) as [e|s'] eqn:W; auto.
  apply Hc. eapply wf_same; [exact H|].
  eapply same_trans; [eapply same_write, W|]. constructor; reflexivity.
Qed.

Section Transport.

Variable parse : jsstring -> option JsonRpcResponse.

Lemma wf_handleLines parts s : wf s -> wf (handleLines parse parts s).
Proof.
  revert s. induction parts as [|part rest IH]; intros s H; simpl; auto.
  destruct rest as [|next rest].
  - eapply wf_same; [exact H|]. constructor; reflexivity.
  - apply IH. unfold handleLine. destruct (trim part); auto.
    destruct (parse _); [now apply wf_handleMessage|].
    eapply wf_same; [exact H|]. constructor; reflexivity.
Qed.

Lemma wf_step l s : wf s -> wf (step parse l s).
Proof.
  intros H. destruct l as [sp|nm ar sp|pa sp|pa sp| |d|d|e|c|t| ]; simpl.
  - eapply wf_same; [exact H | apply same_connect].
  - eapply wf_same; [exact H | apply same_callTool].
  - eapply wf_same; [exact H | apply same_callTool].
  - eapply wf_same; [exact H | apply same_callTool].
  - eapply wf_same; [exact H | apply same_cleanup].
  - now apply wf_handleLines.
  - unfold handleStderr. destruct (_ || _); auto.
    eapply wf_same; [exact H|]. constructor; reflexivity.
  - now apply wf_handleProcessError.
  - unfold handleExit. eapply wf_same; [|apply same_cleanup].
    destruct c as [c|]; auto. destruct (negb _); auto.
    eapply wf_same; [exact H|]. constructor; reflexivity.
  - now apply wf_fire.
  - destruct (microtasks s) as [|[k o] rest]; auto.
    apply wf_resume. eapply wf_same; [exact H|]. constructor; reflexivity.
Qed.

Lemma wf_run ls s : wf s -> wf (run parse ls s).
Proof.
  revert s. induction ls as [|l ls IH]; intros s H; simpl; auto.
  apply IH. now apply wf_step.
Qed.

End Transport.

(** *** Settled promises stay settled *)

Create HintDb session.

Lemma keeps_refl s : keeps s s.
Proof. repeat split; auto. lia. Qed.

Lemma keeps_trans s1 s2 s3 : keeps s1 s2 -> keeps s2 s3 -> keeps s1 s3.
Proof.
  intros (C1 & R1 & K1) (C2 & R2 & K2). repeat split; [congruence | lia | auto].
Qed.

(** A step that touches neither the configuration, nor the counter, nor
    the promises. *)
Lemma keeps_frame s0 s s' :
  config s' = config s -> requestId s' = requestId s ->
  promises s' = promises s ->
  keeps s0 s -> keeps s0 s'.
Proof.
  intros Ec Er Ep (C & R & K). unfold keeps, promiseState in *.
  rewrite Ec, Er, Ep. auto.
Qed.

Lemma keeps_newPromise s0 p s : keeps s0 s -> keeps s0 (newPromise p s).
Proof.
  intros (C & R & K). repeat split; [exact C | exact R |]. intros q st Hq Hst.
  unfold promiseState, newPromise. simpl. rewrite stateIn_app.
  specialize (K _ _ Hq Hst). unfold promiseState in K. now rewrite K.
Qed.

(** The counter moves forward only. *)
Lemma keeps_next s0 s : keeps s0 s -> keeps s0 (with_requestId (requestId s + 1) s).
Proof.
  intros (C & R & K). repeat split; [exact C | simpl; lia | exact K].
Qed.

Lemma keeps_settle s0 p o s : keeps s0 s -> keeps s0 (settle p o s).
Proof.
  intros (C & R & K). destruct (settle_frame p o s) as (Ec & _ & Er & _).
  repeat split; [congruence | lia |]. intros q st Hq Hst.
  specialize (K _ _ Hq Hst). rewrite settle_state.
  destruct (ref_eqb q p) eqn:E; [|exact K].
  apply ref_eqb_eq in E. subst q. rewrite K.
  destruct st; [now elim Hst | reflexivity | reflexivity].
Qed.

Lemma keeps_await s0 p k s : keeps s0 s -> keeps s0 (await p k s).
Proof.
  intros H. unfold await.
  destruct (promiseState p s) as [[| |]|];
    (eapply keeps_frame; [| | |exact H]; reflexivity).
Qed.


Lemma keeps_cleanup s0 s : keeps s0 s -> keeps s0 (cleanup s).
Proof.
  intros H. unfold cleanup. simpl.
  destruct (process s); (eapply keeps_frame; [| | |exact H]; reflexivity).
Qed.

Lemma keeps_write s0 h line s s' :
  write h line s = inr s' -> keeps s0 s -> keeps s0 s'.
Proof.
  unfold write. destruct (child h s) as [c|].
  - destruct (writeError c); [discriminate|]. intros [= <-] H.
    eapply keeps_frame; [| | |exact H]; reflexivity.
  - now intros [= <-].
Qed.

Ltac frame := intros H; eapply keeps_frame; [| | |exact H]; reflexivity.

Lemma keeps_with_process s0 v s : keeps s0 s -> keeps s0 (with_process v s).
Proof. frame. Qed.
Lemma keeps_with_pendingRequests s0 v s : keeps s0 s -> keeps s0 (with_pendingRequests v s).
Proof. frame. Qed.
Lemma keeps_with_buffer s0 v s : keeps s0 s -> keeps s0 (with_buffer v s).
Proof. frame. Qed.
Lemma keeps_with_initialized s0 v s : keeps s0 s -> keeps s0 (with_initialized v s).
Proof. frame. Qed.
Lemma keeps_with_initPromise s0 v s : keeps s0 s -> keeps s0 (with_initPromise v s).
Proof. frame. Qed.
Lemma keeps_with_children s0 v s : keeps s0 s -> keeps s0 (with_children v s).
Proof. frame. Qed.
Lemma keeps_with_timers s0 v s : keeps s0 s -> keeps s0 (with_timers v s).
Proof. frame. Qed.
Lemma keeps_with_awaiting s0 v s : keeps s0 s -> keeps s0 (with_awaiting v s).
Proof. frame. Qed.
Lemma keeps_with_microtasks s0 v s : keeps s0 s -> keeps s0 (with_microtasks v s).
Proof. frame. Qed.
Lemma keeps_with_console s0 v s : keeps s0 s -> keeps s0 (with_console v s).
Proof. frame. Qed.
Lemma keeps_setTimer s0 t s : keeps s0 s -> keeps s0 (setTimer t s).
Proof. frame. Qed.
Lemma keeps_clearTimer s0 t s : keeps s0 s -> keeps s0 (clearTimer t s).
Proof. frame. Qed.
Lemma keeps_log s0 line s : keeps s0 s -> keeps s0 (log line s).
Proof. frame. Qed.
Lemma keeps_kill s0 h s : keeps s0 s -> keeps s0 (kill h s).
Proof. frame. Qed.

#[local] Hint Resolve keeps_refl keeps_newPromise keeps_settle keeps_await
  keeps_cleanup keeps_setTimer keeps_clearTimer keeps_log keeps_kill
  keeps_next keeps_with_process keeps_with_pendingRequests keeps_with_buffer keeps_with_initialized keeps_with_initPromise keeps_with_children keeps_with_timers keeps_with_awaiting keeps_with_microtasks keeps_with_console : session.

Lemma keeps_sendRequest s0 method params s :
  keeps s0 s -> keeps s0 (fst (sendRequest method params s)).
Proof.
  intros H. unfold sendRequest.
  destruct (processStdin s) as [h|]; [|exact H].
  destruct (write h _ _) as [e|s'] eqn:W; simpl.
  - auto 8 with session.
  - eapply keeps_write; [exact W|]. auto 8 with session.
Qed.

Lemma keeps_handleMessage s0 message s :
  keeps s0 s -> keeps s0 (handleMessage message s).
Proof.
  intros H. unfold handleMessage.
  destruct (id message) as [| |n|]; try exact H.
  destruct (mapGet n (pendingRequests s)); auto 8 with session.
Qed.

Lemma keeps_settle_all s0 err (entries : list (Z * PendingRequest)) s :
  keeps s0 s ->
  keeps s0 (fold_left (fun s entry => settle (reject (snd entry)) (Rejected err) s)
              entries s).
Proof.
  revert s. induction entries as [|e entries IH]; intros s H; simpl;
    auto with session.
Qed.

Lemma keeps_handleProcessError s0 err s :
  keeps s0 s -> keeps s0 (handleProcessError err s).
Proof.
  intros H. unfold handleProcessError.
  apply keeps_cleanup, keeps_with_pendingRequests.
  now apply keeps_settle_all.
Qed.

Lemma keeps_fire s0 t s : keeps s0 s -> keeps s0 (fire t s).
Proof.
  intros H. unfold fire. destruct (armed t s); [|exact H].
  destruct t as [n|k|k]; auto 8 with session.
  destruct (match process s with Some _ => _ | None => _ end) as [n|];
    [|exact H].
  destruct (n =? 0); auto 8 with session.
Qed.

Lemma keeps_connect s0 spawn s : keeps s0 s -> keeps s0 (fst (connect spawn s)).
Proof.
  intros H. unfold connect. destruct (initialized s); [exact H|].
  destruct (initPromise s); [exact H|].
  unfold doConnect. simpl. auto 12 with session.
Qed.

Lemma keeps_callTool s0 name args spawn s :
  keeps s0 s -> keeps s0 (fst (callTool name args spawn s)).
Proof.
  intros H. unfold callTool.
  pose proof (@keeps_connect s0 spawn (newPromise (CallP (fresh s)) s)) as Hc.
  destruct (connect spawn _) as [s' c]. simpl in Hc.
  destruct c; simpl; auto 8 with session.
Qed.

Lemma keeps_resume s0 k outcome s : keeps s0 s -> keeps s0 (resume k outcome s).
Proof.
  intros H.
  assert (Hs : forall m p self k s, keeps s0 s ->
               keeps s0 match sendRequest m p s with
                        | (s, inl e) => settle (CallP self) (Rejected e) s
                        | (s, inr q) => await q k s
                        end).
  { intros m p self k0 s1 H1. pose proof (keeps_sendRequest m p H1) as H2.
    destruct (sendRequest m p s1) as [s2 [e|q]]; simpl in H2;
      auto with session. }
  destruct k, outcome as [|[]|]; simpl; auto with session.
  destruct (error r); auto with session.
  unfold sendNotification. destruct (processStdin s) as [h|]; auto with session.
  destruct (write h _ s) as [e|s'] eqn:W; auto with session.
  apply keeps_settle, keeps_with_initialized.
  eapply keeps_write; eassumption.
Qed.

#[local] Hint Resolve keeps_sendRequest keeps_handleMessage
  keeps_handleProcessError keeps_fire keeps_connect keeps_callTool
  keeps_resume : session.

Section Runs.

Variable parse : jsstring -> option JsonRpcResponse.

Lemma keeps_handleLines s0 parts s :
  keeps s0 s -> keeps s0 (handleLines parse parts s).
Proof.
  revert s. induction parts as [|part rest IH]; intros s H; simpl; auto.
  destruct rest as [|next rest]; auto with session.
  apply IH. unfold handleLine. destruct (trim part); auto.
  destruct (parse _); auto with session.
Qed.

Lemma keeps_step s0 l s : keeps s0 s -> keeps s0 (step parse l s).
Proof.
  intros H. destruct l as [sp|nm ar sp|pa sp|pa sp| |d|d|e|c|t| ]; simpl.
  - auto with session.
  - auto with session.
  - unfold webSearch. auto with session.
  - unfold understandImage. auto with session.
  - unfold disconnect. auto with session.
  - now apply keeps_handleLines.
  - unfold handleStderr. destruct (_ || _); auto with session.
  - auto with session.
  - unfold handleExit. apply keeps_cleanup.
    destruct c as [c|]; auto. destruct (negb _); auto with session.
  - auto with session.
  - destruct (microtasks s) as [|[k o] rest]; auto with session.
Qed.

Lemma keeps_run s0 ls s : keeps s0 s -> keeps s0 (run parse ls s).
Proof.
  revert s. induction ls as [|l ls IH]; intros s H; simpl; auto.
  apply IH. now apply keeps_step.
Qed.

End Runs.

(** *** Reachable sessions *)

Section Claims.

Variable parse : jsstring -> option JsonRpcResponse.

Lemma reachable_wf cfg0 ls : wf (run parse ls (init cfg0)).
Proof. apply wf_run, wf_init. Qed.

Lemma reachable_config cfg0 ls : config (run parse ls (init cfg0)) = cfg0.
Proof.
  destruct (@keeps_run parse (init cfg0) ls (init cfg0) (keeps_refl _)) as [C _].
  exact C.
Qed.

(** *** The timeout of a request (C3) *)

(** The timer of a request that is still pending goes off. *)
Lemma fire_request_timer n request s :
  wf s ->
  mapGet n (pendingRequests s) = Some request ->
  mapGet n (pendingRequests (fire (timer request) s)) = None
  /\ promiseState (reject request) (fire (timer request) s)
     = Some (Rejected (requestTimeout (config s))).
Proof.
  intros H Hr. destruct (wf_pending H _ Hr) as (-> & Hs & Ha).
  unfold fire. simpl. rewrite Ha. split.
  - match goal with |- context [settle ?p ?o ?s1] =>
      destruct (settle_frame p o s1) as (_&_&_&Ep&_) end.
    rewrite Ep. simpl. rewrite mapGet_mapDelete, Z.eqb_refl. reflexivity.
  - rewrite settle_state, ref_eqb_refl.
    unfold promiseState in *. simpl. now rewrite Hs.
Qed.

(** A response whose id has no pending record changes nothing. *)
Lemma handleMessage_unmatched message s :
  match id message with
  | IdNum n => mapGet n (pendingRequests s) = None
  | _ => True
  end ->
  handleMessage message s = s.
Proof.
  unfold handleMessage. destruct (id message); try reflexivity.
  now intros ->.
Qed.

(** C3: when the timer of a request goes off while the request is still
    pending, its record is removed and its caller gets the timeout error;
    a response that arrives later for that id changes nothing, and nothing
    that happens later changes what the caller got. *)
Theorem request_timeout_then_late_response
    (cfg0 : MiniMaxMcpConfig) (ls : list Label) (n : Z)
    (request : PendingRequest) :
  let s := run parse ls (init cfg0) in
  mapGet n (pendingRequests s) = Some request ->
  let s' := step parse (OnTimer (timer request)) s in
  mapGet n (pendingRequests s') = None
  /\ promiseState (reject request) s' = Some (Rejected (requestTimeout cfg0))
  /\ (forall message, id message = IdNum n -> handleMessage message s' = s')
  /\ (forall later,
        promiseState (reject request) (run parse later s')
        = Some (Rejected (requestTimeout cfg0))).
Proof.
  intros s Hr s'. unfold s'. simpl.
  destruct (@fire_request_timer n request _ (reachable_wf cfg0 ls) Hr) as [Hn Hs].
  fold s in Hn, Hs. unfold s in Hs at 2. rewrite reachable_config in Hs.
  repeat split.
  - exact Hn.
  - exact Hs.
  - intros message Hid. apply handleMessage_unmatched. now rewrite Hid.
  - intros later.
    destruct (@keeps_run parse _ later _ (keeps_refl (fire (timer request) s)))
      as (_ & _ & K).
    apply K; [exact Hs | discriminate].
Qed.

(** *** Request ids and routing (C6) *)

Lemma sendRequest_issues method params s h :
  wf s -> processStdin s = Some h ->
  snd (sendRequest method params s) = inr (RequestP (requestId s + 1))
  /\ requestId (fst (sendRequest method params s)) = requestId s + 1
  /\ issued (fst (sendRequest method params s)) = issued s ++ [requestId s + 1].
Proof.
  intros H Hh. pose proof (wf_sendRequest method params H) as H'.
  assert (E : snd (sendRequest method params s) = inr (RequestP (requestId s + 1))
              /\ requestId (fst (sendRequest method params s)) = requestId s + 1).
  { unfold sendRequest. rewrite Hh.
    destruct (write h _ _) as [e|s'] eqn:W; simpl.
    - split; [reflexivity|].
      match goal with |- context [settle ?p ?o ?s1] =>
        destruct (settle_frame p o s1) as (_&_&Er&_) end.
      now rewrite Er.
    - split; [reflexivity|]. apply same_write in W.
      now rewrite (same_counter W). }
  destruct E as [E1 E2]. repeat split; auto.
  rewrite (wf_issued H'), E2, (wf_issued H).
  apply upto_succ, (wf_counter H).
Qed.

(** The response to a pending request settles that request and no other. *)
Lemma handleMessage_routes message n request s :
  wf s -> id message = IdNum n ->
  mapGet n (pendingRequests s) = Some request ->
  request = recordOf n
  /\ promiseState (RequestP n) (handleMessage message s)
     = Some (Fulfilled (VResponse message))
  /\ mapGet n (pendingRequests (handleMessage message s)) = None
  /\ (forall k, k <> n ->
        mapGet k (pendingRequests (handleMessage message s))
        = mapGet k (pendingRequests s)
        /\ promiseState (RequestP k) (handleMessage message s)
           = promiseState (RequestP k) s).
Proof.
  intros H Hid Hr. destruct (wf_pending H _ Hr) as (-> & Hs & Ha).
  unfold handleMessage. rewrite Hid, Hr. simpl.
  match goal with |- context [settle ?p ?o ?s1] =>
    destruct (settle_frame p o s1) as (_&_&_&Ep&_);
    pose proof (settle_state p o s1) as Es end.
  rewrite Ep. simpl. repeat split.
  - rewrite Es, ref_eqb_refl. unfold promiseState in *. simpl. now rewrite Hs.
  - now rewrite mapGet_mapDelete, Z.eqb_refl.
  - rewrite mapGet_mapDelete. apply Z.eqb_neq in H0. now rewrite H0.
  - rewrite Es. simpl. apply Z.eqb_neq in H0. now rewrite H0.
Qed.

(** C6: the ids of the requests a session has made are 1, 2, ..., in that
    order, whatever happened in between, and the counter never goes back;
    the next request takes the next id; an id has at most one pending
    record; a response is matched by its id alone, and one whose id is
    absent, null, a string or not pending is ignored. *)
Theorem request_ids_and_routing (cfg0 : MiniMaxMcpConfig) (ls : list Label) :
  let s := run parse ls (init cfg0) in
  issued s = upto (requestId s)
  /\ StronglySorted Z.lt (issued s)
  /\ Forall (fun i => 1 <= i) (issued s)
  /\ (forall later, requestId s <= requestId (run parse later s))
  /\ (forall method params h, processStdin s = Some h ->
        snd (sendRequest method params s) = inr (RequestP (requestId s + 1))
        /\ issued (fst (sendRequest method params s))
           = issued s ++ [requestId s + 1])
  /\ NoDup (map fst (pendingRequests s))
  /\ (forall message,
        match id message with
        | IdNum n => mapGet n (pendingRequests s) = None
        | _ => True
        end -> handleMessage message s = s)
  /\ (forall message n request,
        id message = IdNum n ->
        mapGet n (pendingRequests s) = Some request ->
        let s' := handleMessage message s in
        promiseState (resolve request) s' = Some (Fulfilled (VResponse message))
        /\ mapGet n (pendingRequests s') = None
        /\ handleMessage message s' = s'
        /\ (forall k, k <> n ->
              mapGet k (pendingRequests s') = mapGet k (pendingRequests s)
              /\ promiseState (RequestP k) s' = promiseState (RequestP k) s)).
Proof.
  intros s. pose proof (reachable_wf cfg0 ls) as H. fold s in H.
  split; [apply (wf_issued H)|].
  split; [rewrite (wf_issued H); apply upto_increasing|].
  split; [rewrite (wf_issued H); apply upto_increasing|].
  split; [intros later;
          now destruct (@keeps_run parse s later s (keeps_refl s)) as (_ & R & _)|].
  split; [intros method params h Hh;
          destruct (@sendRequest_issues method params s h H Hh) as (?&?&?); auto|].
  split; [apply (wf_keys H)|].
  split; [intros message Hm; now apply handleMessage_unmatched|].
  intros message n request Hid Hr s'. subst s'.
  destruct (@handleMessage_routes message n request s H Hid Hr)
    as (-> & Hs & Hn & Hk).
  split; [exact Hs|]. split; [exact Hn|].
  split; [apply handleMessage_unmatched; now rewrite Hid | exact Hk].
Qed.

End Claims.

Lemma request_timeout_then_late_response_witness :
  let s := session connecting in
  let s' := step parseLine (OnTimer (RequestTimer 1)) s in
  mapGet 1 (pendingRequests s) = Some (recordOf 1)
  /\ mapGet 1 (pendingRequests s') = None
  /\ promiseState (RequestP 1) s' = Some (Rejected (requestTimeout cfg))
  /\ (forall message, id message = IdNum 1 -> handleMessage message s' = s')
  /\ (forall later,
        promiseState (RequestP 1) (run parseLine later s')
        = Some (Rejected (requestTimeout cfg))).
Proof.
  split; [reflexivity|].
  apply (@request_timeout_then_late_response parseLine cfg connecting 1
           (recordOf 1)).
  reflexivity.
Defined.

(** *** Process failure (C2) *)

Lemma settle_all_state err (entries : list (Z * PendingRequest)) s q :
  promiseState q
    (fold_left (fun s entry => settle (reject (snd entry)) (Rejected err) s)
       entries s)
  = if existsb (fun entry => ref_eqb q (reject (snd entry))) entries
    then match promiseState q s with
         | Some Pending => Some (Rejected err)
         | x => x
         end
    else promiseState q s.
Proof.
  revert s. induction entries as [|e entries IH]; intros s; simpl.
  - reflexivity.
  - rewrite IH, settle_state.
    destruct (ref_eqb q (reject (snd e))) eqn:E; simpl.
    + apply ref_eqb_eq in E. subst q.
      destruct (promiseState (reject (snd e)) s) as [[| |]|];
        destruct (existsb _ entries); reflexivity.
    + reflexivity.
Qed.

Lemma mapGet_entry {V} k (v : V) m : mapGet k m = Some v -> In (k, v) m.
Proof.
  induction m as [|[k0 v0] m IH]; simpl; [discriminate|].
  destruct (k =? k0) eqn:E.
  - apply Z.eqb_eq in E. intros [= ->]. subst. now left.
  - auto.
Qed.

(** What [cleanup] resets and what it leaves. *)
Lemma cleanup_frame s :
  initialized (cleanup s) = false
  /\ initPromise (cleanup s) = None
  /\ process (cleanup s) = None
  /\ pendingRequests (cleanup s) = pendingRequests s
  /\ promises (cleanup s) = promises s
  /\ timers (cleanup s) = timers s
  /\ buffer (cleanup s) = buffer s
  /\ requestId (cleanup s) = requestId s.
Proof.
  unfold cleanup. simpl.
  destruct (process s) eqn:E; split_all; try reflexivity; exact E.
Qed.

(** The [error] listener: every pending request is rejected with the
    error, the map is emptied and the connection is reset. *)
Lemma handleProcessError_rejects_all err s :
  wf s ->
  pendingRequests (handleProcessError err s) = []
  /\ initialized (handleProcessError err s) = false
  /\ process (handleProcessError err s) = None
  /\ forall n request,
       mapGet n (pendingRequests s) = Some request ->
       promiseState (reject request) (handleProcessError err s)
       = Some (Rejected err).
Proof.
  intros H. unfold handleProcessError.
  match goal with |- context [cleanup ?s1] =>
    destruct (cleanup_frame s1) as (Ei & _ & Ep & Er & Es & _) end.
  split_all; auto.
  intros n request Hr. destruct (wf_pending H _ Hr) as (-> & Hs & _).
  unfold promiseState in *. rewrite Es. simpl.
  pose proof (settle_all_state err (pendingRequests s) s (RequestP n)) as E.
  unfold promiseState in E. rewrite E, Hs.
  replace (existsb _ _) with true; [reflexivity|].
  symmetry. apply existsb_exists. exists (n, recordOf n).
  split; [now apply mapGet_entry | apply ref_eqb_refl].
Qed.

(** On an [error] event every pending request of a session is rejected
    with that error, the map is emptied and the session reports
    not-initialized. *)
Theorem error_event_rejects_pending_requests
    (parse : jsstring -> option JsonRpcResponse)
    (cfg0 : MiniMaxMcpConfig) (ls : list Label) (err : Error) :
  let s := run parse ls (init cfg0) in
  let s' := step parse (OnError err) s in
  pendingRequests s' = []
  /\ initialized s' = false
  /\ process s' = None
  /\ (forall n request,
        mapGet n (pendingRequests s) = Some request ->
        promiseState (reject request) s' = Some (Rejected err)).
Proof.
  intros s s'. apply handleProcessError_rejects_all, reachable_wf.
Qed.

(** C2, where it fails: the [exit] listener. The process exits with code 1
    while requests 2 and 3 are pending: both stay in the map with their
    promises pending. A web search in flight is still undecided after the
    exit and ends with the timeout error when its timer goes off. *)
Theorem exit_leaves_requests_pending :
  (forall c s,
      pendingRequests (handleExit c s) = pendingRequests s
      /\ promises (handleExit c s) = promises s
      /\ timers (handleExit c s) = timers s
      /\ initialized (handleExit c s) = false)
  /\ (let s := step parseLine (OnExit (Some 1)) (session twoCalls) in
      map fst (pendingRequests s) = [2; 3]
      /\ promiseState (RequestP 2) s = Some Pending
      /\ promiseState (RequestP 3) s = Some Pending
      /\ initialized s = false)
  /\ (let s := step parseLine (OnExit (Some 1)) (session searching) in
      promiseState (CallP 3) s = Some Pending
      /\ promiseState (CallP 3)
           (run parseLine [OnTimer (RequestTimer 2); Microtask] s)
         = Some (Rejected (requestTimeout cfg))).
Proof.
  split; [|split; cbv zeta; split_all; vm_compute; reflexivity].
  intros c s. unfold handleExit.
  match goal with |- context [cleanup ?s1] =>
    destruct (cleanup_frame s1) as (Ei & _ & _ & Er & Es & Et & _) end.
  rewrite Ei, Er, Es, Et.
  destruct c as [c|]; [destruct (negb _)|]; split_all; reflexivity.
Qed.

(** *** connect (C4) *)

Lemma connect_ready spawn s :
  initialized s = true -> connect spawn s = (s, Ready).
Proof. unfold connect. now intros ->. Qed.

Lemma connect_in_flight spawn s p :
  initialized s = false -> initPromise s = Some p ->
  connect spawn s = (s, InFlight p).
Proof. unfold connect. now intros -> ->. Qed.

(** [doConnect] leaves [initialized] alone. *)
Lemma doConnect_initialized spawn s :
  initialized (fst (doConnect spawn s)) = initialized s.
Proof.
  unfold doConnect. cbn [fst]. unfold await.
  destruct (promiseState _ _) as [[| |]|]; reflexivity.
Qed.

(** A second [connect], whatever [spawn] would find, returns what the
    first returned and leaves the session as the first left it; no second
    subprocess is started. *)
Theorem connect_again_changes_nothing (spawn spawn' : SpawnOutcome) (s : Session) :
  connect spawn' (fst (connect spawn s)) = connect spawn s.
Proof.
  unfold connect at 2 3. destruct (initialized s) eqn:Ei.
  - cbn [fst]. now apply connect_ready.
  - destruct (initPromise s) as [p|] eqn:Ep.
    + cbn [fst]. now apply connect_in_flight.
    + pose proof (doConnect_initialized spawn s) as Hd.
      destruct (doConnect spawn s) as [s1 p]. cbn [fst] in *.
      apply connect_in_flight; [|reflexivity].
      cbn. congruence.
Qed.

(** C4, where it fails: the subprocess answers [initialize] with an error.
    The promise of the failed attempt stays in [initPromise] and the
    subprocess stays alive, so the next [connect] returns the old failure
    and starts nothing. *)
Theorem failed_handshake_is_returned_again :
  let s := session refused in
  initialized s = false
  /\ initPromise s = Some (CallP 0)
  /\ promiseState (CallP 0) s
     = Some (Rejected (str "MCP initialize failed: boom"))
  /\ process s = Some 0%nat
  /\ option_map killed (child 0 s) = Some false
  /\ connect spawned s = (s, InFlight (CallP 0)).
Proof. cbv zeta. split_all; vm_compute; reflexivity. Qed.

(** *** disconnect (C5) *)

Lemma nth_error_updateAt {A} (f : A -> A) l i :
  nth_error (updateAt i f l) i = option_map f (nth_error l i).
Proof.
  revert i. induction l as [|x l IH]; intros [|i]; simpl; auto.
Qed.

(** C5 as stated fails: half a line is buffered while request 1 is in
    flight, and [disconnect] leaves the buffer as it is. *)
Lemma disconnect_keeps_the_buffer : ~ disconnectTearsDown (session halfLine).
Proof.
  intros (_ & _ & Hb & _). vm_compute in Hb. discriminate.
Qed.

(** C5, amended: [disconnect] can be repeated and can be called on a
    session that never connected; it kills the subprocess when there is
    one, forgets the handle and the initialization, and reports
    not-initialized; the buffer and the id counter are kept. *)
Theorem disconnect_resets_the_connection (s : Session) :
  let s' := disconnect s in
  disconnect s' = s'
  /\ initialized s' = false
  /\ initPromise s' = None
  /\ process s' = None
  /\ (forall h c, process s = Some h -> child h s = Some c ->
        child h s'
        = Some (mkChild (env c) (pid c) (stdin c) (writeError c) true (written c)))
  /\ (process s = None -> children s' = children s)
  /\ buffer s' = buffer s
  /\ requestId s' = requestId s
  /\ (forall cfg0, disconnect (init cfg0) = init cfg0).
Proof.
  unfold disconnect, cleanup. cbn.
  destruct (process s) as [h|] eqn:E; cbn; rewrite ?E; split_all;
    try reflexivity; try discriminate.
  intros h' c [= <-] Hc. unfold child, kill. cbn.
  unfold child in Hc. now rewrite nth_error_updateAt, Hc.
Qed.

End ClientFacts.

(* ===================================================================== *)
(** ** Properties of callTool *)
(* ===================================================================== *)

Module CallFacts.
Import Js Json Client Examples ClientFacts.

Local Open Scope Z_scope.

(** *** Names in use *)

Lemma named_init_session cfg0 : named (init cfg0).
Proof.
  constructor; simpl.
  - intros p st [=].
  - intros p k [].
  - intros p [=].
Qed.

(** A step that touches neither the promises, nor the code awaiting them,
    nor [initPromise]. *)
Lemma named_frame s s' :
  promises s' = promises s -> awaiting s' = awaiting s ->
  initPromise s' = initPromise s ->
  named s -> named s'.
Proof.
  intros Ep Ea Ei [Hf Ha Hi].
  constructor; unfold promiseState, fresh in *; rewrite ?Ep, ?Ea, ?Ei; auto.
Qed.

Lemma setState_length p st ps : length (setState p st ps) = length ps.
Proof.
  induction ps as [|[q0 st0] ps IH]; simpl; [reflexivity|].
  destruct (ref_eqb p q0); simpl; congruence.
Qed.

Lemma newPromise_exists q p s :
  promiseState q s <> None -> promiseState q (newPromise p s) <> None.
Proof.
  intros Hq. unfold promiseState, newPromise in *. simpl.
  rewrite stateIn_app. now destruct (stateIn q (promises s)).
Qed.

Lemma newPromise_created p s : promiseState p (newPromise p s) <> None.
Proof.
  unfold promiseState, newPromise, with_promises. cbn [promises].
  rewrite stateIn_app, ref_eqb_refl. now destruct (stateIn p (promises s)).
Qed.

Lemma await_state p k s q : promiseState q (await p k s) = promiseState q s.
Proof.
  unfold await. now destruct (promiseState p s) as [[| |]|].
Qed.

Lemma named_newPromise p s :
  match p with
  | CallP k | StartupP k => k = fresh s
  | RequestP _ => True
  end ->
  named s -> named (newPromise p s).
Proof.
  intros Hp [Hf Ha Hi].
  assert (E : forall q, promiseState q s <> None ->
                        promiseState q (newPromise p s) <> None).
  { intros q Hq. unfold promiseState, newPromise in *. simpl.
    rewrite stateIn_app. now destruct (stateIn q (promises s)). }
  constructor.
  - intros q st. unfold promiseState, fresh, newPromise. simpl.
    rewrite stateIn_app, length_app. simpl.
    destruct (stateIn q (promises s)) as [st'|] eqn:Eq.
    + intros _. specialize (Hf q st' Eq). unfold fresh in Hf.
      destruct q; auto; lia.
    + destruct (ref_eqb q p) eqn:E1; [|discriminate]. intros _.
      apply ref_eqb_eq in E1. subst q. unfold fresh in Hp.
      destruct p; auto; lia.
  - intros q k Hq. apply E, (Ha q k Hq).
  - intros q Hq. apply E, (Hi q Hq).
Qed.

Lemma named_settle p o s : named s -> named (settle p o s).
Proof.
  intros [Hf Ha Hi].
  assert (E : forall q, promiseState q s <> None ->
                        promiseState q (settle p o s) <> None).
  { intros q Hq. rewrite settle_state.
    destruct (ref_eqb q p) eqn:E1; [|exact Hq].
    apply ref_eqb_eq in E1. subst q.
    destruct (promiseState p s) as [[| |]|]; congruence. }
  assert (L : fresh (settle p o s) = fresh s).
  { unfold settle, fresh. destruct (promiseState p s) as [[| |]|]; simpl;
      auto using setState_length. }
  destruct (settle_frame p o s) as (_&_&_&_&_&_&Ei&_).
  constructor.
  - intros q st. rewrite settle_state, L.
    destruct (ref_eqb q p) eqn:E1.
    + apply ref_eqb_eq in E1. subst q.
      destruct (promiseState p s) as [[| |]|] eqn:Ep; intros Hq;
        try discriminate; eapply Hf; eauto.
    + apply Hf.
  - intros q k Hq. apply E, (Ha q k).
    unfold settle in Hq. destruct (promiseState p s) as [[| |]|]; auto.
    simpl in Hq. now apply filter_In in Hq.
  - intros q. rewrite Ei. auto.
Qed.

Lemma named_await p k s :
  promiseState p s <> None -> named s -> named (await p k s).
Proof.
  intros Hp H. unfold await.
  destruct (promiseState p s) as [[| |]|] eqn:E;
    try (eapply named_frame; [| | |exact H]; reflexivity);
    try congruence.
  destruct H as [Hf Ha Hi]. constructor; auto.
  intros q k0. simpl. rewrite in_app_iff. intros [Hq|[[= <- <-]|[]]].
  - apply (Ha q k0 Hq).
  - unfold promiseState in *. simpl. congruence.
Qed.

Lemma named_forget s : named s -> named (with_initPromise None s).
Proof.
  intros [Hf Ha Hi]. constructor; auto. intros p [=].
Qed.

Lemma named_remember p s :
  promiseState p s <> None -> named s -> named (with_initPromise (Some p) s).
Proof.
  intros Hp [Hf Ha Hi]. constructor; auto. now intros q [= <-].
Qed.

(** Peels the outermost operation off a goal [named (op ... s)]. *)
Ltac names :=
  repeat first
    [ assumption
    | apply named_settle
    | apply named_forget
    | match goal with
      | |- named (?f _ ?s) =>
          apply (@named_frame s); [reflexivity | reflexivity | reflexivity | ]
      end ].

Lemma named_cleanup s : named s -> named (cleanup s).
Proof.
  intros H. unfold cleanup. simpl. destruct (process s); names.
Qed.

Lemma named_write h line s s' : write h line s = inr s' -> named s -> named s'.
Proof.
  unfold write. destruct (child h s) as [c|].
  - destruct (writeError c); [discriminate|]. intros [= <-] H. names.
  - now intros [= <-].
Qed.

Lemma named_sendRequest method params s :
  named s -> named (fst (sendRequest method params s)).
Proof.
  intros H. unfold sendRequest.
  destruct (processStdin s) as [h|]; [|exact H].
  assert (H1 : named (newPromise (RequestP (requestId s + 1))
                        (with_requestId (requestId s + 1) s)))
    by (apply named_newPromise; [exact I | names]).
  destruct (write h _ _) as [e|s'] eqn:W; simpl.
  - names.
  - eapply named_write; [exact W|]. names.
Qed.

(** The promise [sendRequest] returns has been created. *)
Lemma sendRequest_exists method params s q :
  snd (sendRequest method params s) = inr q ->
  promiseState q (fst (sendRequest method params s)) <> None.
Proof.
  unfold sendRequest. destruct (processStdin s) as [h|]; [|discriminate].
  assert (E : forall s1, promises s1 = promises s ->
              promiseState (RequestP (requestId s + 1))
                (newPromise (RequestP (requestId s + 1)) s1) <> None).
  { intros s1 E1. unfold promiseState, newPromise, with_promises.
    cbn [promises]. rewrite stateIn_app, E1, ref_eqb_refl.
    now destruct (stateIn _ (promises s)). }
  specialize (E (with_requestId (requestId s + 1) s) eq_refl).
  destruct (write h _ _) as [e|s'] eqn:W; simpl; intros [= <-].
  - rewrite settle_state, ref_eqb_refl.
    match goal with |- match ?x with _ => _ end <> _ =>
      change x with (promiseState (RequestP (requestId s + 1))
                       (newPromise (RequestP (requestId s + 1))
                          (with_requestId (requestId s + 1) s))) end.
    destruct (promiseState _ _) as [[| |]|]; congruence.
  - unfold write in W. destruct (child h _) as [c|].
    + destruct (writeError c); [discriminate|]. injection W as <-. exact E.
    + injection W as <-. exact E.
Qed.

Lemma named_handleMessage message s : named s -> named (handleMessage message s).
Proof.
  intros H. unfold handleMessage.
  destruct (id message) as [| |n|]; try exact H.
  destruct (mapGet n (pendingRequests s)); names.
Qed.

Lemma named_settle_all err (entries : list (Z * PendingRequest)) s :
  named s ->
  named (fold_left (fun s entry => settle (reject (snd entry)) (Rejected err) s)
           entries s).
Proof.
  revert s. induction entries as [|e entries IH]; intros s H; simpl; auto.
  apply IH. names.
Qed.

Lemma named_handleProcessError err s :
  named s -> named (handleProcessError err s).
Proof.
  intros H. unfold handleProcessError. apply named_cleanup.
  pose proof (named_settle_all err (pendingRequests s) H). names.
Qed.

Lemma named_fire t s : named s -> named (fire t s).
Proof.
  intros H. unfold fire. destruct (armed t s); [|exact H].
  destruct t as [n|k|k]; names.
  destruct (match process s with Some _ => _ | None => _ end) as [n|];
    [|exact H].
  destruct (n =? 0); names.
Qed.

(** [doConnect] returns a promise it has created. *)
Lemma named_doConnect spawn s :
  named s ->
  named (fst (doConnect spawn s))
  /\ promiseState (snd (doConnect spawn s)) (fst (doConnect spawn s)) <> None.
Proof.
  intros H. unfold doConnect. simpl.
  set (s1 := with_process _ (with_children _ s)).
  assert (H1 : named s1) by (unfold s1; names).
  set (s2 := newPromise (CallP (fresh s1)) s1).
  assert (H2 : named s2) by (apply named_newPromise; [reflexivity | exact H1]).
  set (s3 := newPromise (StartupP (fresh s2)) s2).
  assert (H3 : named s3) by (apply named_newPromise; [reflexivity | exact H2]).
  split.
  - apply named_await; [apply newPromise_created | names].
  - rewrite await_state. apply newPromise_exists, newPromise_created.
Qed.

Lemma named_connect spawn s :
  named s ->
  named (fst (connect spawn s))
  /\ match snd (connect spawn s) with
     | InFlight p => promiseState p (fst (connect spawn s)) <> None
     | Ready => True
     end.
Proof.
  intros H. unfold connect. destruct (initialized s); [now split|].
  destruct (initPromise s) as [p|] eqn:E.
  - split; [exact H | exact (@named_init s H p E)].
  - destruct (named_doConnect spawn H) as [H1 H2].
    destruct (doConnect spawn s) as [s' p]. simpl in *.
    split; [now apply named_remember | exact H2].
Qed.

Lemma named_callTool name args spawn s :
  named s -> named (fst (callTool name args spawn s)).
Proof.
  intros H. unfold callTool.
  assert (H1 : named (newPromise (CallP (fresh s)) s))
    by (apply named_newPromise; [reflexivity | exact H]).
  destruct (named_connect spawn H1) as [H2 H3].
  destruct (connect spawn _) as [s' c]. simpl in *.
  destruct c; simpl; [names | now apply named_await].
Qed.

Lemma named_resume k outcome s : named s -> named (resume k outcome s).
Proof.
  intros H.
  assert (Hs : forall m p self k s, named s ->
               named match sendRequest m p s with
                     | (s, inl e) => settle (CallP self) (Rejected e) s
                     | (s, inr q) => await q k s
                     end).
  { intros m p self k0 s0 H0. pose proof (named_sendRequest m p H0) as H1.
    pose proof (@sendRequest_exists m p s0) as H2.
    destruct (sendRequest m p s0) as [s1 [e|q]]; simpl in *; [names|].
    apply named_await; auto. }
  destruct k, outcome as [|[]|]; simpl; auto; names.
  destruct (error r); names.
  unfold sendNotification. destruct (processStdin s) as [h|]; names.
  destruct (write h _ s) as [e|s'] eqn:W; names.
  eapply named_write; eassumption.
Qed.

Section Runs.

Variable parse : jsstring -> option JsonRpcResponse.

Lemma named_handleLines parts s : named s -> named (handleLines parse parts s).
Proof.
  revert s. induction parts as [|part rest IH]; intros s H; simpl; auto.
  destruct rest as [|next rest]; [names|].
  apply IH. unfold handleLine. destruct (trim part); auto.
  destruct (parse _); [now apply named_handleMessage | names].
Qed.

Lemma named_step l s : named s -> named (step parse l s).
Proof.
  intros H. destruct l as [sp|nm ar sp|pa sp|pa sp| |d|d|e|c|t| ]; simpl.
  - apply (named_connect sp H).
  - now apply named_callTool.
  - now apply named_callTool.
  - now apply named_callTool.
  - now apply named_cleanup.
  - now apply named_handleLines.
  - unfold handleStderr. destruct (_ || _); names.
  - now apply named_handleProcessError.
  - unfold handleExit. apply named_cleanup.
    destruct c as [c|]; auto. destruct (negb _); names.
  - now apply named_fire.
  - destruct (microtasks s) as [|[k o] rest]; auto.
    apply named_resume. names.
Qed.

Lemma named_run ls s : named s -> named (run parse ls s).
Proof.
  revert s. induction ls as [|l ls IH]; intros s H; simpl; auto.
  apply IH. now apply named_step.
Qed.

End Runs.

(** *** callTool on a ready session *)

Lemma callTool_ready name args spawn s :
  initialized s = true ->
  callTool name args spawn s
  = (with_microtasks
       (microtasks s ++ [(CallToolConnected name args (fresh s), Fulfilled VUndefined)])
       (newPromise (CallP (fresh s)) s),
     CallP (fresh s)).
Proof.
  intros Hi. unfold callTool, connect. simpl. rewrite Hi. reflexivity.
Qed.

(** A request on a connected session whose pipe accepts the write. *)
Lemma sendRequest_written method params s h c :
  process s = Some h -> child h s = Some c ->
  stdin c = true -> writeError c = None ->
  let n := requestId s + 1 in
  sendRequest method params s
  = (with_children
       (updateAt h
          (fun c => mkChild (env c) (pid c) (stdin c) (writeError c) (killed c)
                      (written c ++ [stringify (requestObject n method params) ++ [LF]]))
          (children s))
       (with_pendingRequests (mapSet n (recordOf n) (pendingRequests s))
          (setTimer (RequestTimer n)
             (newPromise (RequestP n) (with_requestId n s)))),
     inr (RequestP n)).
Proof.
  intros Hp Hc Hs Hw n. unfold sendRequest, processStdin.
  rewrite Hp, Hc, Hs. unfold write, child. cbn.
  unfold child in Hc. rewrite Hc, Hw. reflexivity.
Qed.

Lemma await_pending p k s :
  promiseState p s = Some Pending ->
  await p k s = with_awaiting (awaiting s ++ [(p, k)]) s.
Proof. unfold await. now intros ->. Qed.

Lemma filter_awaiting_fresh s q :
  named s -> promiseState q s = None ->
  filter (fun a => ref_eqb q (fst a)) (awaiting s) = [].
Proof.
  intros N Hq.
  assert (G : forall l, (forall a, In a l -> In a (awaiting s)) ->
                        filter (fun a => ref_eqb q (fst a)) l = []).
  { induction l as [|[p k] l IH]; intros Hl; simpl; [reflexivity|].
    destruct (ref_eqb q p) eqn:E.
    - apply ref_eqb_eq in E. subst p.
      elim (@named_awaiting s N q k); [apply Hl; now left | exact Hq].
    - apply IH. intros a Ha. apply Hl. now right. }
  apply G. auto.
Qed.

Lemma fresh_call s : named s -> promiseState (CallP (fresh s)) s = None.
Proof.
  intros N. destruct (promiseState (CallP (fresh s)) s) as [st|] eqn:E;
    [|reflexivity].
  pose proof (@named_fresh s N _ _ E) as L. simpl in L. lia.
Qed.

Section Calls.

Variable parse : jsstring -> option JsonRpcResponse.

Lemma callTool_sends s name args spawn h c :
  wf s -> named s ->
  initialized s = true ->
  process s = Some h -> child h s = Some c ->
  stdin c = true -> writeError c = None ->
  microtasks s = [] ->
  let n := requestId s + 1 in
  let line := stringify (requestObject n (str "tools/call")
                (JObj [(str "name", JStr name); (str "arguments", args)])) ++ [LF] in
  run parse [CallTool name args spawn; Microtask] s
  = with_awaiting (awaiting s ++ [(RequestP n, CallToolResponded (fresh s))])
      (with_children
         (updateAt h
            (fun c => mkChild (env c) (pid c) (stdin c) (writeError c) (killed c)
                        (written c ++ [line]))
            (children s))
         (with_pendingRequests (mapSet n (recordOf n) (pendingRequests s))
            (setTimer (RequestTimer n)
               (newPromise (RequestP n)
                  (with_requestId n
                     (with_microtasks [] (newPromise (CallP (fresh s)) s))))))).
Proof.
  intros W N Hi Hp Hc Hs Hw Hm n line. unfold run. cbn [fold_left].
  match goal with |- _ = with_awaiting _ ?X =>
    transitivity (await (RequestP n) (CallToolResponded (fresh s)) X) end.
  - change (step parse (CallTool name args spawn) s)
      with (fst (callTool name args spawn s)).
    rewrite (callTool_ready name args spawn s Hi), Hm.
    cbn [fst app step microtasks with_microtasks resume].
    erewrite sendRequest_written; [| exact Hp | exact Hc | exact Hs | exact Hw].
    reflexivity.
  - etransitivity; [apply await_pending | reflexivity].
    unfold promiseState, newPromise. simpl. rewrite !stateIn_app.
    pose proof (fresh_request W) as F. unfold promiseState in F. fold n in F.
    rewrite F. simpl. now rewrite Z.eqb_refl.
Qed.

(** The response to the request of a call decides the call. *)
Lemma response_settles_call s1 n f response :
  id response = IdNum n ->
  mapGet n (pendingRequests s1) = Some (recordOf n) ->
  promiseState (RequestP n) s1 = Some Pending ->
  filter (fun a => ref_eqb (RequestP n) (fst a)) (awaiting s1)
  = [(RequestP n, CallToolResponded f)] ->
  microtasks s1 = [] ->
  promiseState (CallP f) s1 = Some Pending ->
  promiseState (CallP f) (step parse Microtask (handleMessage response s1))
  = Some (toolOutcome response).
Proof.
  intros Hid Hr Hs Ha Hm Hc.
  unfold handleMessage. rewrite Hid, Hr. cbn [timer resolve recordOf].
  unfold settle at 1.
  match goal with |- context [match promiseState ?p ?x with _ => _ end] =>
    change (promiseState p x) with (promiseState p s1) end.
  rewrite Hs.
  cbn [awaiting microtasks clearTimer with_timers with_pendingRequests].
  rewrite Ha, Hm.
  cbn [step microtasks with_microtasks app map snd resume].
  rewrite settle_state, ref_eqb_refl.
  unfold promiseState in *. cbn [promises with_microtasks with_awaiting
    with_promises clearTimer with_timers with_pendingRequests].
  rewrite stateIn_setState. cbn [ref_eqb]. rewrite Hc. reflexivity.
Qed.

Lemma split_line line : ~ In LF line -> split LF (line ++ [LF]) = [line; []].
Proof.
  induction line as [|u line IH]; intros H; simpl.
  - reflexivity.
  - destruct (N.eqb_spec u LF) as [->|_]; [elim H; now left|].
    rewrite IH; [reflexivity|]. intros Hin. apply H. now right.
Qed.

Lemma with_buffer_same s : with_buffer (buffer s) s = s.
Proof. now destruct s. Qed.

(** One complete line arrives on an empty buffer and parses. *)
Lemma handleData_one_line data line message s :
  buffer s = [] ->
  utf8_decode data = line ++ [LF] -> ~ In LF line ->
  trim line <> [] -> parse (trim line) = Some message ->
  handleData parse data s = handleMessage message s.
Proof.
  intros Hb Hd Hl Ht Hp. unfold handleData.
  rewrite Hb, Hd. cbn [app]. rewrite (@split_line line Hl).
  cbn [handleLines]. unfold handleLine.
  destruct (trim line) as [|u l] eqn:E; [now elim Ht|]. rewrite Hp.
  assert (B : buffer (handleMessage message s) = []).
  { unfold handleMessage. destruct (id message) as [| |n|]; auto.
    destruct (mapGet n (pendingRequests s)); auto.
    match goal with |- context [settle ?p ?o ?x] =>
      destruct (settle_frame p o x) as (_&_&_&_&Eb&_) end.
    now rewrite Eb. }
  rewrite <- B at 1. apply with_buffer_same.
Qed.

(** [callTool] on a ready session. Nothing is spawned; one request
    [tools/call] with [{name, arguments}] is written, with the next id;
    the call is undecided until the response comes; a response with an
    error fails the call with the message of that error; any other
    response completes it with the result of the response, or with an
    empty content list when the result is missing or null; and the
    outcome, once there, is never replaced. *)
Lemma callTool_on_ready_session
    (cfg0 : MiniMaxMcpConfig) (ls : list Label)
    (name : jsstring) (args : json) (spawn : SpawnOutcome)
    (h : nat) (c : ChildProcess)
    (data : list N) (line : jsstring) (response : JsonRpcResponse) :
  let s := run parse ls (init cfg0) in
  initialized s = true ->
  process s = Some h -> child h s = Some c ->
  stdin c = true -> writeError c = None ->
  microtasks s = [] -> buffer s = [] ->
  utf8_decode data = line ++ [LF] -> ~ In LF line ->
  trim line <> [] -> parse (trim line) = Some response ->
  id response = IdNum (requestId s + 1) ->
  let call := snd (callTool name args spawn s) in
  let s1 := run parse [CallTool name args spawn; Microtask] s in
  let s2 := run parse [OnStdout data; Microtask] s1 in
  let outcome :=
    match error response with
    | Some e => Rejected (str "Tool call failed: " ++ message e)
    | None =>
        Fulfilled (VResult match result response with
                           | None | Some JNull => JObj [(str "content", JArr [])]
                           | Some r => r
                           end)
    end in
  child h s1
  = Some (mkChild (env c) (pid c) (stdin c) (writeError c) (killed c)
            (written c
             ++ [stringify
                   (JObj [(str "jsonrpc", JStr (str "2.0"));
                          (str "id", JNum (requestId s + 1));
                          (str "method", JStr (str "tools/call"));
                          (str "params",
                           JObj [(str "name", JStr name);
                                 (str "arguments", args)])])
                 ++ [LF]]))
  /\ length (children s1) = length (children s)
  /\ promiseState call s1 = Some Pending
  /\ promiseState call s2 = Some outcome
  /\ (forall later, promiseState call (run parse later s2) = Some outcome).
Proof.
  intros s Hi Hp Hc Hs Hw Hm Hb Hd Hl Ht Hpa Hid call s1 s2 outcome.
  assert (W : wf s) by apply reachable_wf.
  assert (N : named s) by apply named_run, named_init_session.
  pose proof (@callTool_sends s name args spawn h c W N Hi Hp Hc Hs Hw Hm) as E1.
  cbv zeta in E1. fold s1 in E1.
  assert (Ecall : call = CallP (fresh s))
    by (unfold call; now rewrite callTool_ready).
  pose proof (fresh_request W) as F1. pose proof (fresh_call N) as F2.
  assert (P1 : promiseState (CallP (fresh s)) s1 = Some Pending).
  { rewrite E1. unfold promiseState, newPromise in *. simpl.
    rewrite !stateIn_app, F2. simpl. now rewrite Nat.eqb_refl. }
  assert (P2 : promiseState (RequestP (requestId s + 1)) s1 = Some Pending).
  { rewrite E1. unfold promiseState, newPromise in *. simpl.
    rewrite !stateIn_app, F1. simpl. now rewrite Z.eqb_refl. }
  assert (O : promiseState call s2 = Some outcome).
  { unfold s2, run. cbn [fold_left]. change (step parse (OnStdout data) s1)
      with (handleData parse data s1).
    rewrite (@handleData_one_line data line response s1);
      [| rewrite E1; exact Hb | exact Hd | exact Hl | exact Ht | exact Hpa].
    rewrite Ecall.
    apply (@response_settles_call s1 (requestId s + 1) (fresh s) response);
      auto.
    - rewrite E1. simpl. now rewrite mapGet_mapSet, Z.eqb_refl.
    - rewrite E1. unfold with_awaiting. cbn [awaiting]. rewrite filter_app.
      rewrite (@filter_awaiting_fresh s (RequestP (requestId s + 1)) N F1).
      cbn [filter fst app]. now rewrite ref_eqb_refl.
    - rewrite E1. reflexivity. }
  split_all.
  - rewrite E1. unfold child. simpl. unfold child in Hc.
    now rewrite nth_error_updateAt, Hc.
  - rewrite E1. simpl. clear. generalize (children s) as l. revert h.
    intros h l. revert h. induction l as [|x l IH]; intros [|h]; simpl; auto.
  - now rewrite Ecall.
  - exact O.
  - intros later.
    destruct (@keeps_run parse s2 later s2 (keeps_refl s2)) as (_ & _ & K).
    apply K; [exact O|]. unfold outcome. destruct (error response); discriminate.
Qed.

End Calls.

(** [webSearch] on a session that never connected: the subprocess is
    spawned, the handshake is made, then the search is sent and answered. *)
Example webSearch_from_scratch :
  let s := run parseLine
             [CallWebSearch searchParams spawned;
              OnTimer (StartupInterval 2); Microtask;
              OnStdout (wire initOkJson); Microtask; Microtask;
              OnStdout (wire searchOkJson); Microtask]
             (init cfg) in
  promiseState (CallP 0) s = Some (Fulfilled (VResult (textResult (str "hi"))))
  /\ length (children s) = 1%nat
  /\ issued s = [1; 2].
Proof. cbv zeta. split_all; vm_compute; reflexivity. Qed.

(** The handshake is refused: the call fails with the error of [connect]
    and no [tools/call] request is made. *)
Example webSearch_handshake_refused :
  let s := run parseLine
             [CallWebSearch searchParams spawned;
              OnTimer (StartupInterval 2); Microtask;
              OnStdout (wire initErrorJson); Microtask; Microtask]
             (init cfg) in
  promiseState (CallP 0) s = Some (Rejected (str "MCP initialize failed: boom"))
  /\ issued s = [1]
  /\ option_map (fun c => length (written c)) (child 0 s) = Some 1%nat.
Proof. cbv zeta. split_all; vm_compute; reflexivity. Qed.

End CallFacts.

(* ===================================================================== *)
(** ** More properties of the formatter *)
(* ===================================================================== *)

Module FormatFacts.
Import Js Json Utils Examples UtilsFacts Files.
Local Open Scope Z_scope.

(** *** Lines of a text *)

Lemma split_length_app a b :
  (length (split LF (a ++ b)) + 1 = length (split LF a) + length (split LF b))%nat.
Proof.
  induction a as [|u a IH]; simpl.
  - lia.
  - destruct (u =? LF)%N; simpl; [lia|].
    pose proof (@split_nonempty (a ++ b)) as N1.
    pose proof (@split_nonempty a) as N2.
    destruct (split LF (a ++ b)); [congruence|].
    destruct (split LF a); [congruence|]. simpl in *. lia.
Qed.

Lemma lineCount_app a b : lineCount (a ++ b) = lineCount a + lineCount b - 1.
Proof. unfold lineCount. pose proof (split_length_app a b). lia. Qed.

Lemma lineCount_pos s : 1 <= lineCount s.
Proof.
  unfold lineCount. pose proof (@split_nonempty s).
  destruct (split LF s); [congruence | simpl; lia].
Qed.

Lemma lineCount_clean s : ~ In LF s -> lineCount s = 1.
Proof. intros H. unfold lineCount. now rewrite split_no_sep. Qed.

(** Joining the lines of a text gives the text back. *)
Lemma join_split s : join [LF] (split LF s) = s.
Proof.
  induction s as [|u s IH]; simpl; [reflexivity|].
  pose proof (@split_nonempty s) as N.
  destruct (N.eqb_spec u LF) as [->|_].
  - destruct (split LF s) as [|l ls]; [congruence|]. simpl in *. now rewrite IH.
  - destruct (split LF s) as [|l ls]; [congruence|].
    simpl in *. destruct ls; simpl in *; now rewrite <- IH.
Qed.


Lemma suffix_lines p c : lineCount c <= lineCount (p ++ c).
Proof. rewrite lineCount_app. pose proof (lineCount_pos p). lia. Qed.

Lemma ascii_app a b : ascii (a ++ b) <-> ascii a /\ ascii b.
Proof. apply Forall_app. Qed.

Lemma utf8_decode_ascii s : ascii s -> utf8_decode s = s.
Proof.
  unfold utf8_decode. induction 1 as [|u s Hu Hs IH]; [reflexivity|].
  cbn [utf8_decode_from idle d_need]. unfold lead.
  rewrite (proj2 (N.leb_le u 0x7F)) by lia.
  fold idle. rewrite IH. reflexivity.
Qed.

Lemma dropFirstLine_skipn s : exists k, dropFirstLine s = skipn k s.
Proof.
  unfold dropFirstLine. destruct (indexOf LF s <? 0).
  - now exists 0%nat.
  - eauto.
Qed.

Lemma indexOf_range c s : -1 <= indexOf c s < Z.of_nat (length s) \/ (s = [] /\ indexOf c s = -1).
Proof.
  induction s as [|u s IH]; [now right|]. left. cbn [indexOf length].
  destruct (u =? c)%N; [lia|].
  destruct (Z.ltb_spec (indexOf c s) 0); [lia|].
  destruct IH as [IH|[-> IH]]; [lia|]. simpl in *. lia.
Qed.

(** Up to and including the first occurrence: what [indexOf] finds. *)
Lemma indexOf_found c s :
  0 <= indexOf c s ->
  exists p, firstn (Z.to_nat (indexOf c s + 1)) s = p ++ [c].
Proof.
  induction s as [|u s IH]; cbn [indexOf]; [lia|].
  destruct (N.eqb_spec u c) as [->|_].
  - intros _. now exists [].
  - destruct (Z.ltb_spec (indexOf c s) 0); [lia|]. intros _.
    destruct IH as [p Hp]; [lia|]. exists (u :: p).
    replace (Z.to_nat (indexOf c s + 1 + 1)) with (S (Z.to_nat (indexOf c s + 1))) by lia.
    cbn [firstn]. now rewrite Hp.
Qed.

Lemma indexOf_absent c s : indexOf c s < 0 -> ~ In c s.
Proof.
  induction s as [|u s IH]; cbn [indexOf]; [auto|].
  destruct (N.eqb_spec u c) as [->|Hu]; [lia|].
  destruct (Z.ltb_spec (indexOf c s) 0); [|lia].
  intros _ [E|Hin]; [congruence | now apply IH].
Qed.

(** The last [m] elements: [xs.slice(-m)] for [1 <= m < length]. *)
Lemma slice_from_neg {A} (xs : list A) m :
  1 <= m < Z.of_nat (length xs) ->
  slice_from (- m) xs = skipn (length xs - Z.to_nat m) xs.
Proof.
  intros H. unfold slice_from, clamp.
  destruct (Z.ltb_spec (- m) 0); [|lia]. f_equal. lia.
Qed.


(** *** The notice and the file of a truncated output *)

Lemma eqb_refl s : Js.eqb s s = true.
Proof. now apply eqb_eq. Qed.

Lemma uint_units d u :
  In u (str (NilEmpty.string_of_uint d)) -> (48 <= u <= 57)%N.
Proof.
  unfold str. induction d; simpl; try tauto;
    (intros [<-|H]; [vm_compute; split; discriminate | auto]).
Qed.

(** [String(n)] is made of digits, after a minus sign for a negative [n]. *)
Lemma of_Z_units z u : In u (of_Z z) -> u = 45%N \/ (48 <= u <= 57)%N.
Proof.
  unfold of_Z. destruct (Z.to_int z) as [d|d]; cbn [NilEmpty.string_of_int].
  - right. eapply uint_units; eauto.
  - unfold str. simpl. intros [<-|H]; [now left|]. right. eapply uint_units; eauto.
Qed.

Lemma of_Z_clean z : ~ In LF (of_Z z).
Proof. intros H. apply of_Z_units in H. unfold LF in H. lia. Qed.

Lemma clean_app a b : ~ In LF a -> ~ In LF b -> ~ In LF (a ++ b).
Proof. rewrite in_app_iff. tauto. Qed.

Lemma clean_literal s :
  forallb (fun u => negb (u =? LF)%N) s = true -> ~ In LF s.
Proof.
  intros H Hin. rewrite forallb_forall in H. apply H in Hin.
  now rewrite N.eqb_refl in Hin.
Qed.

Ltac clean :=
  repeat first
    [ apply of_Z_clean
    | assumption
    | apply clean_app
    | apply clean_literal; vm_compute; reflexivity ].

Lemma toFixed1_clean num den : ~ In LF (toFixed1 num den).
Proof. unfold toFixed1. clean. Qed.

Lemma formatBytes_clean bytes : ~ In LF (formatBytes bytes).
Proof.
  unfold formatBytes. destruct (bytes <? 1024); [clean|].
  destruct (bytes <? 1024 * 1024); apply clean_app; try apply toFixed1_clean; clean.
Qed.

Lemma path_join_cases dir name :
  path_join dir name = dir ++ name \/ path_join dir name = dir ++ str "/" ++ name.
Proof.
  unfold path_join. destruct (rev dir) as [|[|p] r]; auto.
  do 6 (try (destruct p as [p|p|]; auto)).
Qed.

Lemma path_join_clean dir name :
  ~ In LF dir -> ~ In LF name -> ~ In LF (path_join dir name).
Proof.
  intros Hd Hn. destruct (path_join_cases dir name) as [-> | ->]; clean.
Qed.

Lemma two_newlines_then_line x : ~ In LF x -> lineCount (LF :: LF :: x) = 3.
Proof.
  intros H. unfold lineCount. cbn [split]. rewrite N.eqb_refl.
  rewrite split_no_sep by assumption. reflexivity.
Qed.

(** The notice is two newlines followed by a single line. *)
Lemma truncationInfo_lines totalLines totalBytes maxBytes maxLines path :
  ~ In LF path ->
  lineCount (truncationInfo totalLines totalBytes maxBytes maxLines path) = 3.
Proof.
  intros Hp. unfold truncationInfo.
  apply two_newlines_then_line.
  repeat (apply clean_app;
          [first [ apply of_Z_clean | apply formatBytes_clean | assumption
                 | apply clean_literal; vm_compute; reflexivity ] |]).
  apply clean_literal; vm_compute; reflexivity.
Qed.

Lemma writeTempFile_clean raw h fs :
  ~ In LF (tmpdir h) -> ~ In LF (fst (writeTempFile raw h fs)).
Proof.
  intros H. unfold writeTempFile. cbn [fst].
  apply path_join_clean; [assumption|].
  apply clean_app; [apply clean_literal; vm_compute; reflexivity|].
  apply clean_app; [apply of_Z_clean | apply clean_literal; vm_compute; reflexivity].
Qed.

Lemma over_budget maxBytes maxLines raw :
  maxLines < lineCount raw \/ maxBytes < byteLength raw ->
  (maxLines <? lineCount raw) || (maxBytes <? byteLength raw) = true.
Proof.
  intros [H|H]; apply Z.ltb_lt in H; rewrite H; [reflexivity | apply orb_true_r].
Qed.

Lemma lines_of_join ls :
  ls <> [] -> Forall (fun l => ~ In LF l) ls ->
  lineCount (join [LF] ls) = Z.of_nat (length ls).
Proof. intros H1 H2. unfold lineCount. now rewrite split_join. Qed.

Lemma last_lines_clean m s :
  0 <= m ->
  slice_from (- m) (split LF s) <> []
  /\ Forall (fun l => ~ In LF l) (slice_from (- m) (split LF s)).
Proof.
  intros Hm. split; [|apply Forall_skipn_keep, split_clean].
  unfold slice_from, clamp. pose proof (@split_nonempty s) as N.
  intros E. apply (f_equal (@length _)) in E. rewrite length_skipn in E.
  destruct (split LF s) as [|l ls]; [congruence|]. cbn [length] in E.
  destruct (Z.ltb_spec (- m) 0); lia.
Qed.

Lemma kept_lines_exact raw maxBytes maxLines :
  1 <= maxLines -> maxLines < lineCount raw ->
  lineCount (keptText raw maxBytes maxLines) = maxLines.
Proof.
  intros H1 H2. rewrite keptText_over_lines by assumption.
  unfold lineCount in H2.
  pose proof (@slice_from_last _ (split LF raw) maxLines (conj H1 H2)) as L.
  destruct (@last_lines_clean maxLines raw) as [A B]; [lia|].
  rewrite lines_of_join by assumption.
  unfold jsstring in *. rewrite L. lia.
Qed.

(** A truncated output leaves the whole text behind in the file
    [<os.tmpdir()>/pi-minimax-mcp-<Date.now()>.txt]: that path is what
    [tempFile] and the notice name, the file system gains exactly this one
    file holding the untruncated text, and the returned text is the kept
    text followed by the notice. *)
Theorem formatToolOutput_truncated_saves_original
    (result : json) (options : FormatOptions) (h : Host) (fs : FileSystem)
    (raw : jsstring) :
  let maxBytes := default (Utils.maxBytes options) 51200 in
  let maxLines := default (Utils.maxLines options) 2000 in
  let path :=
    path_join (tmpdir h) (str "pi-minimax-mcp-" ++ of_Z (now h) ++ str ".txt") in
  rawText result = Some raw ->
  maxLines < lineCount raw \/ maxBytes < byteLength raw ->
  exists out fs',
    formatToolOutput result options h fs = Some (out, fs')
    /\ fs' = (path, raw) :: fs
    /\ truncated (details out) = true
    /\ tempFile (details out) = Some path
    /\ readFile path fs' = Some raw
    /\ (forall p, Js.eqb p path = false -> readFile p fs' = readFile p fs)
    /\ text out
       = keptText raw maxBytes maxLines
         ++ truncationInfo (lineCount raw) (byteLength raw) maxBytes maxLines path
    /\ totalLines (details out) = lineCount raw
    /\ totalBytes (details out) = byteLength raw.
Proof.
  intros maxBytes maxLines path Hraw Hover.
  apply over_budget in Hover.
  unfold formatToolOutput. rewrite Hraw. fold maxBytes maxLines.
  unfold formatText. rewrite Hover. unfold writeTempFile. fold path.
  eexists _, _. split; [reflexivity|]. cbn [details truncated tempFile text totalLines totalBytes].
  split_all; try reflexivity.
  - cbn [readFile]. now rewrite eqb_refl.
  - intros p Hp. cbn [readFile]. now rewrite Hp.
Qed.

Lemma formatToolOutput_truncated_saves_original_witness :
  exists out fs',
    formatToolOutput (textResult twoLines) (mkFormatOptions (Some 2) (Some 1)) host []
    = Some (out, fs')
    /\ fs' = (path_join (tmpdir host)
                (str "pi-minimax-mcp-" ++ of_Z (now host) ++ str ".txt"),
              twoLines) :: []
    /\ truncated (details out) = true
    /\ tempFile (details out)
       = Some (path_join (tmpdir host)
                 (str "pi-minimax-mcp-" ++ of_Z (now host) ++ str ".txt"))
    /\ readFile (path_join (tmpdir host)
                   (str "pi-minimax-mcp-" ++ of_Z (now host) ++ str ".txt")) fs'
       = Some twoLines
    /\ (forall p,
          Js.eqb p (path_join (tmpdir host)
                      (str "pi-minimax-mcp-" ++ of_Z (now host) ++ str ".txt"))
          = false ->
          readFile p fs' = readFile p [])
    /\ text out
       = keptText twoLines 2 1
         ++ truncationInfo (lineCount twoLines) (byteLength twoLines) 2 1
              (path_join (tmpdir host)
                 (str "pi-minimax-mcp-" ++ of_Z (now host) ++ str ".txt"))
    /\ totalLines (details out) = lineCount twoLines
    /\ totalBytes (details out) = byteLength twoLines.
Proof.
  apply (@formatToolOutput_truncated_saves_original
           (textResult twoLines) (mkFormatOptions (Some 2) (Some 1)) host []
           twoLines).
  - vm_compute. reflexivity.
  - left. vm_compute. reflexivity.
Defined.

(** The notice adds two lines to the kept text, so that an output cut to
    [maxLines] lines is returned with [maxLines + 2] lines. *)
Theorem formatToolOutput_notice_adds_two_lines
    (result : json) (options : FormatOptions) (h : Host) (fs : FileSystem)
    (raw : jsstring) :
  let maxBytes := default (Utils.maxBytes options) 51200 in
  let maxLines := default (Utils.maxLines options) 2000 in
  rawText result = Some raw ->
  ~ In LF (tmpdir h) ->
  maxLines < lineCount raw \/ maxBytes < byteLength raw ->
  exists out fs',
    formatToolOutput result options h fs = Some (out, fs')
    /\ outputLines (details out) = lineCount (keptText raw maxBytes maxLines) + 2
    /\ (1 <= maxLines -> maxLines < lineCount raw ->
        outputLines (details out) = maxLines + 2).
Proof.
  intros maxBytes maxLines Hraw Hdir Hover.
  apply over_budget in Hover.
  unfold formatToolOutput. rewrite Hraw. fold maxBytes maxLines.
  unfold formatText. rewrite Hover.
  pose proof (@writeTempFile_clean raw h fs Hdir) as Hp.
  destruct (writeTempFile raw h fs) as [path fs'] eqn:Ew. cbn [fst] in Hp.
  eexists _, _. split; [reflexivity|]. cbn [details outputLines].
  assert (E : lineCount (keptText raw maxBytes maxLines
                         ++ truncationInfo (lineCount raw) (byteLength raw)
                              maxBytes maxLines path)
              = lineCount (keptText raw maxBytes maxLines) + 2).
  { rewrite lineCount_app, truncationInfo_lines by assumption. lia. }
  split; [exact E|]. intros H1 H2. rewrite E.
  now rewrite kept_lines_exact.
Qed.

Lemma formatToolOutput_notice_adds_two_lines_witness :
  exists out fs',
    formatToolOutput (textResult (shortLines 5000)) (mkFormatOptions None None) host []
    = Some (out, fs')
    /\ outputLines (details out) = lineCount (keptText (shortLines 5000) 51200 2000) + 2
    /\ (1 <= 2000 -> 2000 < lineCount (shortLines 5000) ->
        outputLines (details out) = 2000 + 2).
Proof.
  apply (@formatToolOutput_notice_adds_two_lines
           (textResult (shortLines 5000)) (mkFormatOptions None None) host []
           (shortLines 5000)).
  - vm_compute. reflexivity.
  - vm_compute. intuition discriminate.
  - left. vm_compute. reflexivity.
Defined.


(** *** Truncation by bytes alone *)

Lemma ascii_skipn n s : ascii s -> ascii (skipn n s).
Proof. apply Forall_skipn_keep. Qed.

(** ASCII text over the byte budget but within the line budget: the kept
    text is an end of the original that fits both budgets, and it begins
    at the start of a line unless no newline is left in it. *)
Theorem keptText_ascii_byte_budget (raw : jsstring) (maxBytes maxLines : Z) :
  ascii raw ->
  lineCount raw <= maxLines ->
  1 <= maxBytes -> maxBytes < byteLength raw ->
  let kept := keptText raw maxBytes maxLines in
  exists prefix,
    raw = prefix ++ kept
    /\ byteLength kept <= maxBytes
    /\ lineCount kept <= maxLines
    /\ (~ In LF kept \/ exists p, prefix = p ++ [LF]).
Proof.
  intros Ha Hl H1 Hb kept.
  assert (Hlen : byteLength raw = Z.of_nat (length raw)) by now apply byteLength_ascii.
  assert (E : kept = dropFirstLine (skipn (length raw - Z.to_nat maxBytes) raw)).
  { unfold kept, keptText. fold (lineCount raw).
    rewrite (proj2 (Z.ltb_ge _ _) Hl), (proj2 (Z.ltb_lt _ _) Hb).
    cbn [orb andb]. rewrite utf8_encode_ascii by assumption.
    rewrite slice_from_neg by lia.
    now rewrite utf8_decode_ascii by now apply ascii_skipn. }
  set (n := (length raw - Z.to_nat maxBytes)%nat) in *.
  set (tail := skipn n raw) in *.
  assert (Ht : length tail = Z.to_nat maxBytes)
    by (unfold tail, n; rewrite length_skipn; lia).
  assert (S : exists prefix, raw = prefix ++ kept
                             /\ (~ In LF kept \/ exists p, prefix = p ++ [LF])).
  { rewrite E. unfold dropFirstLine.
    destruct (Z.ltb_spec (indexOf LF tail) 0) as [Hi|Hi].
    - exists (firstn n raw). split; [symmetry; apply firstn_skipn|].
      left. now apply indexOf_absent.
    - destruct (indexOf_found LF tail Hi) as [p Hp].
      exists (firstn n raw ++ p ++ [LF]). split.
      + rewrite <- Hp, <- app_assoc, firstn_skipn. symmetry. apply firstn_skipn.
      + right. exists (firstn n raw ++ p). now rewrite app_assoc. }
  destruct S as (prefix & Hraw & Hstart). exists prefix.
  assert (Hk : (length kept <= length tail)%nat).
  { rewrite E. destruct (dropFirstLine_skipn tail) as [k ->].
    rewrite length_skipn. lia. }
  assert (Hak : ascii kept).
  { rewrite Hraw in Ha. now apply ascii_app in Ha. }
  split_all; try assumption.
  - rewrite byteLength_ascii by assumption. lia.
  - pose proof (suffix_lines prefix kept) as L. rewrite <- Hraw in L. lia.
Qed.

Lemma keptText_ascii_byte_budget_witness :
  let kept := keptText twoLines 6 2 in
  exists prefix,
    twoLines = prefix ++ kept
    /\ byteLength kept <= 6
    /\ lineCount kept <= 2
    /\ (~ In LF kept \/ exists p, prefix = p ++ [LF]).
Proof.
  apply (@keptText_ascii_byte_budget twoLines 6 2).
  - apply ascii_check. vm_compute. reflexivity.
  - vm_compute. discriminate.
  - lia.
  - vm_compute. reflexivity.
Defined.

(** *** Results that cannot be formatted *)

Lemma textBlocks_null blocks : textBlocks blocks = None <-> In JNull blocks.
Proof.
  induction blocks as [|b rest IH]; cbn [textBlocks In].
  - split; [discriminate | tauto].
  - destruct b; cbn [isTextBlock];
      try (destruct (textBlocks rest);
           [split; [discriminate | intros [E|H]; [discriminate E | apply IH in H; discriminate H]]
           |split; [intros _; right; now apply IH | reflexivity]]).
    split; [intros _; now left | reflexivity].
Qed.

(** [formatToolOutput] throws on exactly two kinds of result: [null], and
    an object whose [content] is an array with a [null] in it. Every
    other value is formatted. *)
Theorem formatToolOutput_throws_only_on_null
    (result : json) (options : FormatOptions) (h : Host) (fs : FileSystem) :
  formatToolOutput result options h fs = None
  <-> result = JNull
      \/ exists kvs blocks,
           result = JObj kvs
           /\ lookup (str "content") kvs = Some (JArr blocks)
           /\ In JNull blocks.
Proof.
  unfold formatToolOutput, rawText.
  destruct result as [|b|z|s|xs|kvs]; cbn [contentBlocks textBlocks].
  - split; [now left | reflexivity].
  - destruct (join _ _); split; try discriminate;
      intros [E|(k & bs & E & _)]; discriminate E.
  - destruct (join _ _); split; try discriminate;
      intros [E|(k & bs & E & _)]; discriminate E.
  - destruct (join _ _); split; try discriminate;
      intros [E|(k & bs & E & _)]; discriminate E.
  - destruct (join _ _); split; try discriminate;
      intros [E|(k & bs & E & _)]; discriminate E.
  - set (blocks := match lookup (str "content") kvs with
                   | Some (JArr bs) => bs
                   | _ => []
                   end).
    destruct (textBlocks blocks) as [ts|] eqn:E.
    + assert (N : ~ In JNull blocks)
        by (intros H; apply textBlocks_null in H; congruence).
      split.
      * destruct (join [LF; LF] ts); discriminate.
      * intros [E0|(k & bs & [= <-] & L & H)]; [discriminate E0|].
        unfold blocks in N. rewrite L in N. contradiction.
    + split; [|reflexivity]. intros _. right.
      apply textBlocks_null in E. unfold blocks in E.
      destruct (lookup (str "content") kvs) as [[| | | |bs|]|] eqn:L;
        try contradiction.
      now exists kvs, bs.
Qed.

End FormatFacts.

(* ===================================================================== *)
(** ** More properties of truncateHead *)
(* ===================================================================== *)

Module HeadFacts.
Import Js Json Utils Examples UtilsFacts Files FormatFacts.
Local Open Scope Z_scope.

Lemma first_line_cons u s :
  u <> LF -> hd [] (split LF (u :: s)) = u :: hd [] (split LF s).
Proof.
  intros H. cbn [split]. destruct (N.eqb_spec u LF); [contradiction|].
  pose proof (@split_nonempty s). destruct (split LF s); [congruence | reflexivity].
Qed.

(** The first line of a text takes no more bytes than the text. *)
Lemma encode_first_line n s :
  (length s <= n)%nat ->
  (length (utf8_encode (hd [] (split LF s))) <= length (utf8_encode s))%nat.
Proof.
  revert s. induction n as [|n IH]; intros [|u rest] Hn;
    try (cbn [length] in Hn; lia); [simpl; lia | simpl; lia |].
  cbn [length] in Hn.
  destruct (N.eqb_spec u LF) as [->|Hu]; [cbn; lia|].
  rewrite first_line_cons by assumption.
  assert (IHrest := IH rest ltac:(lia)).
  cbn [utf8_encode]. destruct (is_high u).
  - destruct rest as [|v rest']; [simpl; lia|].
    destruct (N.eqb_spec v LF) as [->|Hv].
    + cbn [split hd]. rewrite N.eqb_refl. cbn [hd].
      change (is_low LF) with false. cbv iota. rewrite length_app. lia.
    + rewrite first_line_cons in * by assumption.
      destruct (is_low v).
      * rewrite !length_app. cbn [length] in Hn.
        pose proof (IH rest' ltac:(lia)). lia.
      * rewrite !length_app. lia.
  - destruct (is_low u); rewrite !length_app; lia.
Qed.

Lemma byteLength_first_line s : byteLength (hd [] (split LF s)) <= byteLength s.
Proof. unfold byteLength. pose proof (@encode_first_line (length s) s). lia. Qed.

(** A text within both budgets passes the first-line test as well. *)
Lemma truncateHead_fits text options :
  lineCount text <= default (Utils.maxLines options) 2000 ->
  byteLength text <= default (Utils.maxBytes options) 51200 ->
  truncateHead text options
  = mkHeadResult text false (lineCount text) (byteLength text)
      (lineCount text) (byteLength text) false.
Proof.
  intros Hl Hb. unfold truncateHead.
  pose proof (byteLength_first_line text) as H0.
  rewrite (proj2 (Z.ltb_ge _ (byteLength (hd [] (split LF text))))) by lia.
  rewrite andb_false_r.
  fold (lineCount text).
  rewrite (proj2 (Z.ltb_ge _ _) Hl), (proj2 (Z.ltb_ge _ _) Hb).
  reflexivity.
Qed.


Lemma join_skipn_suffix k ls :
  exists p, join [LF] ls = p ++ join [LF] (skipn k ls).
Proof.
  revert ls. induction k as [|k IH]; intros ls; [now exists []|].
  destruct ls as [|l rest]; [now exists []|].
  cbn [skipn]. destruct (IH rest) as [p Hp].
  destruct rest as [|l2 rest].
  - exists l. rewrite skipn_nil. cbn. now rewrite app_nil_r.
  - exists (l ++ [LF] ++ p). cbn [join] in *. rewrite Hp.
    now rewrite <- !app_assoc.
Qed.

(** The cut to the last [maxLines] lines, lines 145 to 147. *)
Lemma line_cut text maxLines :
  1 <= maxLines ->
  let c := if maxLines <? Z.of_nat (length (split LF text))
           then join [LF] (slice_from (- maxLines) (split LF text))
           else text in
  (exists p, text = p ++ c) /\ lineCount c <= maxLines.
Proof.
  intros H1 c. unfold c.
  destruct (Z.ltb_spec maxLines (Z.of_nat (length (split LF text)))) as [H|H].
  - split.
    + unfold slice_from.
      destruct (join_skipn_suffix (clamp (length (split LF text)) (- maxLines))
                  (split LF text)) as [p Hp].
      exists p. now rewrite <- Hp, join_split.
    + destruct (@last_lines_clean maxLines text) as [A B]; [lia|].
      rewrite lines_of_join by assumption.
      pose proof (@slice_from_last _ (split LF text) maxLines (conj H1 H)) as L.
      unfold jsstring in *. rewrite L. lia.
  - split; [now exists [] | exact H].
Qed.

(** The cut to the last [maxBytes] bytes, lines 150 to 159, on ASCII text. *)
Lemma byte_cut c maxBytes :
  ascii c -> 1 <= maxBytes ->
  let c' := if maxBytes <? byteLength c
            then if 0 <? indexOf LF (utf8_decode (slice_from (- maxBytes) (utf8_encode c)))
                 then slice_from
                        (indexOf LF (utf8_decode (slice_from (- maxBytes) (utf8_encode c))) + 1)
                        (utf8_decode (slice_from (- maxBytes) (utf8_encode c)))
                 else utf8_decode (slice_from (- maxBytes) (utf8_encode c))
            else c in
  (exists k, c' = skipn k c) /\ byteLength c' <= maxBytes.
Proof.
  intros Ha H1 c'. unfold c'.
  assert (Hlen : byteLength c = Z.of_nat (length c)) by now apply byteLength_ascii.
  destruct (Z.ltb_spec maxBytes (byteLength c)) as [H|H].
  - rewrite utf8_encode_ascii by assumption.
    rewrite slice_from_neg by lia.
    rewrite utf8_decode_ascii by now apply ascii_skipn.
    set (n := (length c - Z.to_nat maxBytes)%nat).
    assert (Ht : length (skipn n c) = Z.to_nat maxBytes)
      by (unfold n; rewrite length_skipn; lia).
    destruct (0 <? indexOf LF (skipn n c)).
    + unfold slice_from. rewrite skipn_skipn. split; [eauto|].
      rewrite byteLength_ascii by now apply ascii_skipn.
      rewrite length_skipn. rewrite length_skipn in Ht. lia.
    + split; [eauto|]. rewrite byteLength_ascii by now apply ascii_skipn. lia.
  - split; [now exists 0%nat | exact H].
Qed.


Lemma skipn_lines k c : lineCount (skipn k c) <= lineCount c.
Proof.
  pose proof (suffix_lines (firstn k c) (skipn k c)) as S.
  now rewrite firstn_skipn in S.
Qed.

Lemma ascii_suffix text p c : text = p ++ c -> ascii text -> ascii c.
Proof. intros E H. rewrite E in H. apply ascii_app in H. tauto. Qed.

(** A text within both budgets, of any characters, comes back from
    [truncateHead] unchanged and is reported as not truncated. *)
Theorem truncateHead_within_budget (text : jsstring) (options : FormatOptions) :
  lineCount text <= default (Utils.maxLines options) 2000 ->
  byteLength text <= default (Utils.maxBytes options) 51200 ->
  let r := truncateHead text options in
  content r = text
  /\ h_truncated r = false
  /\ firstLineExceedsLimit r = false
  /\ h_outputLines r = h_totalLines r
  /\ h_outputBytes r = h_totalBytes r.
Proof.
  intros Hl Hb r. unfold r. rewrite truncateHead_fits by assumption.
  cbn. split_all; reflexivity.
Qed.

Lemma truncateHead_within_budget_witness :
  let r := truncateHead (accented 2) (mkFormatOptions (Some 4) (Some 1)) in
  content r = accented 2
  /\ h_truncated r = false
  /\ firstLineExceedsLimit r = false
  /\ h_outputLines r = h_totalLines r
  /\ h_outputBytes r = h_totalBytes r.
Proof.
  apply (@truncateHead_within_budget (accented 2) (mkFormatOptions (Some 4) (Some 1))).
  - vm_compute. discriminate.
  - vm_compute. discriminate.
Defined.

(** On ASCII text whose first line fits the byte budget, [truncateHead]
    returns an end of the text that fits both budgets, and truncating the
    result again changes nothing. *)
Theorem truncateHead_ascii_budgets (text : jsstring) (options : FormatOptions) :
  let maxBytes := default (Utils.maxBytes options) 51200 in
  let maxLines := default (Utils.maxLines options) 2000 in
  ascii text ->
  1 <= maxLines -> 1 <= maxBytes ->
  byteLength (hd [] (split LF text)) <= maxBytes ->
  let r := truncateHead text options in
  firstLineExceedsLimit r = false
  /\ (exists prefix, text = prefix ++ content r)
  /\ h_outputLines r <= maxLines
  /\ h_outputBytes r <= maxBytes
  /\ (h_truncated r = false <->
      lineCount text <= maxLines /\ byteLength text <= maxBytes)
  /\ truncateHead (content r) options
     = mkHeadResult (content r) false (h_outputLines r) (h_outputBytes r)
         (h_outputLines r) (h_outputBytes r) false.
Proof.
  intros maxBytes maxLines Ha HL HB H0 r.
  assert (G : firstLineExceedsLimit r = false
              /\ (exists prefix, text = prefix ++ content r)
              /\ lineCount (content r) <= maxLines
              /\ byteLength (content r) <= maxBytes
              /\ (h_truncated r = false <->
                  lineCount text <= maxLines /\ byteLength text <= maxBytes)
              /\ h_outputLines r = lineCount (content r)
              /\ h_outputBytes r = byteLength (content r)).
  { unfold r, truncateHead. fold maxBytes maxLines. cbv zeta.
    rewrite (proj2 (Z.ltb_ge _ (byteLength (hd [] (split LF text))))) by exact H0.
    rewrite andb_false_r. fold (lineCount text).
    destruct (Z.ltb_spec maxLines (lineCount text)) as [Hl|Hl];
      [|destruct (Z.ltb_spec maxBytes (byteLength text)) as [Hb|Hb]].
    - cbn [orb]. cbv beta iota.
      cbn [content h_truncated firstLineExceedsLimit h_outputLines h_outputBytes].
      destruct (@line_cut text maxLines HL) as [[p Hp] Hlines].
      cbv zeta in Hp, Hlines. unfold lineCount in Hl.
      rewrite (proj2 (Z.ltb_lt _ _) Hl) in Hp, Hlines.
      assert (Hac := @ascii_suffix _ _ _ Hp Ha).
      destruct (byte_cut Hac HB) as [[k Hk] Hbytes].
      cbv zeta in Hk, Hbytes. rewrite Hk in *.
      split_all; try reflexivity; try assumption.
      + exists (p ++ firstn k (join [LF] (slice_from (- maxLines) (split LF text)))).
        now rewrite <- app_assoc, firstn_skipn.
      + eapply Z.le_trans; [|exact Hlines]. apply skipn_lines.
      + split; [discriminate | intros [? ?]; unfold lineCount in *; lia].
    - cbn [orb]. cbv beta iota.
      cbn [content h_truncated firstLineExceedsLimit h_outputLines h_outputBytes].
      destruct (byte_cut Ha HB) as [[k Hk] Hbytes].
      cbv zeta in Hk, Hbytes.
      rewrite (proj2 (Z.ltb_lt _ _) Hb) in Hk, Hbytes.
      cbv beta iota in Hk, Hbytes. rewrite Hk in *.
      split_all; try reflexivity; try assumption.
      + exists (firstn k text). now rewrite firstn_skipn.
      + eapply Z.le_trans; [apply skipn_lines | exact Hl].
      + split; [discriminate | intros [? ?]; unfold lineCount in *; lia].
    - cbn. split_all; try reflexivity; try assumption; try tauto.
      now exists []. }
  destruct G as (G1 & G2 & G3 & G4 & G5 & G6 & G7).
  rewrite G6, G7. split_all; try assumption.
  apply truncateHead_fits; assumption.
Qed.

Lemma truncateHead_ascii_budgets_witness :
  let maxBytes := default (Utils.maxBytes (mkFormatOptions (Some 6) (Some 2))) 51200 in
  let maxLines := default (Utils.maxLines (mkFormatOptions (Some 6) (Some 2))) 2000 in
  let r := truncateHead threeLines (mkFormatOptions (Some 6) (Some 2)) in
  firstLineExceedsLimit r = false
  /\ (exists prefix, threeLines = prefix ++ content r)
  /\ h_outputLines r <= maxLines
  /\ h_outputBytes r <= maxBytes
  /\ (h_truncated r = false <->
      lineCount threeLines <= maxLines /\ byteLength threeLines <= maxBytes)
  /\ truncateHead (content r) (mkFormatOptions (Some 6) (Some 2))
     = mkHeadResult (content r) false (h_outputLines r) (h_outputBytes r)
         (h_outputLines r) (h_outputBytes r) false.
Proof.
  apply (@truncateHead_ascii_budgets threeLines (mkFormatOptions (Some 6) (Some 2))).
  - apply ascii_check. vm_compute. reflexivity.
  - vm_compute. discriminate.
  - vm_compute. discriminate.
  - vm_compute. discriminate.
Defined.

End HeadFacts.

(* ===================================================================== *)
(** ** Properties of the transport *)
(* ===================================================================== *)

Module TransportFacts.
Import Js Json Client Examples UtilsFacts ClientFacts CallFacts MoreExamples.
Local Open Scope Z_scope.

(** *** Chunks of standard output *)

(** Cutting a text in two cuts at most one of its lines in two. *)
Lemma split_app_last x y :
  split LF (x ++ y)
  = removelast (split LF x) ++ split LF (last (split LF x) [] ++ y).
Proof.
  induction x as [|u x IH]; [reflexivity|].
  pose proof (@split_nonempty x) as N.
  cbn [app split]. destruct (u =? LF)%N eqn:Eu.
  - rewrite IH. destruct (split LF x) as [|l ls]; [congruence|]. reflexivity.
  - rewrite IH. destruct (split LF x) as [|l1 [|l2 ls]]; [congruence| |].
    + cbn [removelast last app split]. rewrite Eu. reflexivity.
    + reflexivity.
Qed.

Section Chunks.

Variable parse : jsstring -> option JsonRpcResponse.

Lemma settle_buffer b p o s :
  settle p o (with_buffer b s) = with_buffer b (settle p o s).
Proof.
  unfold settle, promiseState. cbn [promises with_buffer].
  destruct (stateIn p (promises s)) as [[| |]|]; reflexivity.
Qed.

(** [handleMessage] neither reads nor writes the buffer. *)
Lemma handleMessage_buffer b message s :
  handleMessage message (with_buffer b s) = with_buffer b (handleMessage message s).
Proof.
  unfold handleMessage. destruct (id message) as [| |n|]; try reflexivity.
  cbn [pendingRequests with_buffer].
  destruct (mapGet n (pendingRequests s)) as [request|]; [|reflexivity].
  cbv zeta. rewrite <- settle_buffer. reflexivity.
Qed.

Lemma handleLine_buffer b line s :
  handleLine parse line (with_buffer b s) = with_buffer b (handleLine parse line s).
Proof.
  unfold handleLine. destruct line; [reflexivity|].
  destruct (parse _); [apply handleMessage_buffer | reflexivity].
Qed.

(** The loop of [handleData] overwrites the buffer it starts from. *)
Lemma handleLines_buffer b parts s :
  parts <> [] ->
  handleLines parse parts (with_buffer b s) = handleLines parse parts s.
Proof.
  revert s. induction parts as [|part rest IH]; intros s H; [congruence|].
  cbn [handleLines]. destruct rest as [|part2 rest]; [reflexivity|].
  rewrite handleLine_buffer. apply IH. discriminate.
Qed.

Lemma handleLines_app ps qs s :
  qs <> [] ->
  handleLines parse (ps ++ qs) s
  = handleLines parse qs
      (fold_left (fun s part => handleLine parse (trim part) s) ps s).
Proof.
  revert s. induction ps as [|p ps IH]; intros s H; [reflexivity|].
  cbn [app handleLines fold_left].
  specialize (IH (handleLine parse (trim p) s) H).
  destruct (ps ++ qs) eqn:E.
  - apply app_eq_nil in E. tauto.
  - exact IH.
Qed.

Lemma handleLines_last parts s :
  parts <> [] ->
  handleLines parse parts s
  = with_buffer (last parts [])
      (fold_left (fun s part => handleLine parse (trim part) s)
         (removelast parts) s).
Proof.
  intros H. rewrite (app_removelast_last [] H) at 1.
  rewrite handleLines_app by discriminate. reflexivity.
Qed.

(** However standard output is cut into chunks, as long as no character
    is cut in two, the lines handled and the text left in the buffer are
    the same. *)
Theorem handleData_chunks (d1 d2 : list N) (s : Session) :
  utf8_decode (d1 ++ d2) = utf8_decode d1 ++ utf8_decode d2 ->
  handleData parse (d1 ++ d2) s = handleData parse d2 (handleData parse d1 s).
Proof.
  intros Hd. unfold handleData. rewrite Hd, app_assoc.
  set (x := buffer s ++ utf8_decode d1).
  rewrite (@handleLines_last (split LF x)) by apply split_nonempty.
  cbn [buffer with_buffer].
  rewrite handleLines_buffer by apply split_nonempty.
  rewrite split_app_last.
  apply handleLines_app, split_nonempty.
Qed.


Lemma noise_lines lines s :
  Forall (fun part => parse (trim part) = None) lines ->
  fold_left (fun s part => handleLine parse (trim part) s) lines s
  = with_console
      (console s
       ++ map (fun line => logPrefix ++ line)
            (filter (fun line => negb (Js.eqb line [])) (map trim lines)))
      s.
Proof.
  intros H. revert s. induction H as [|part rest Hp Hrest IH]; intros s.
  - cbn. rewrite app_nil_r. now destruct s.
  - cbn [fold_left map filter]. rewrite IH. unfold handleLine.
    rewrite Hp. destruct (trim part) as [|u l].
    + reflexivity.
    + cbn [Js.eqb negb map]. unfold log, with_console. cbn.
      now rewrite <- app_assoc.
Qed.

(** Output that is not JSON is logged and changes nothing else: each
    complete line that is not blank goes to the console with the prefix, in
    order, and the unfinished last line stays in the buffer. *)
Theorem stdout_noise_is_logged (data : list N) (s : Session) :
  let parts := split LF (buffer s ++ utf8_decode data) in
  Forall (fun part => parse (trim part) = None) (removelast parts) ->
  handleData parse data s
  = with_buffer (last parts [])
      (with_console
         (console s
          ++ map (fun line => logPrefix ++ line)
               (filter (fun line => negb (Js.eqb line []))
                  (map trim (removelast parts))))
         s).
Proof.
  intros parts H. unfold handleData. fold parts.
  rewrite handleLines_last by apply split_nonempty.
  now rewrite noise_lines.
Qed.

End Chunks.

(** *** Responses *)

Lemma filter_swap {A} (f g : A -> bool) l :
  filter f (filter g l) = filter g (filter f l).
Proof.
  induction l as [|x l IH]; [reflexivity|]. cbn [filter].
  destruct (f x) eqn:F, (g x) eqn:G; cbn [filter]; rewrite ?F, ?G, IH; reflexivity.
Qed.

(** The session after the response to a pending request. *)
Lemma handleMessage_pending message n s :
  wf s -> id message = IdNum n ->
  mapGet n (pendingRequests s) <> None ->
  handleMessage message s
  = settle (RequestP n) (Fulfilled (VResponse message))
      (clearTimer (RequestTimer n)
         (with_pendingRequests (mapDelete n (pendingRequests s)) s))
  /\ promiseState (RequestP n) s = Some Pending.
Proof.
  intros W Hid Hr. destruct (mapGet n (pendingRequests s)) as [r|] eqn:E;
    [|congruence].
  destruct (wf_pending W _ E) as (-> & Hs & _).
  unfold handleMessage. rewrite Hid, E. split; [reflexivity | exact Hs].
Qed.

Section Order.

Variable parse : jsstring -> option JsonRpcResponse.

(** Two responses to two pending requests may arrive in either order: each
    settles its own request, and the pending records, the timers and the
    state of every promise come out the same. *)
Theorem responses_in_either_order
    (cfg0 : MiniMaxMcpConfig) (ls : list Label)
    (ma mb : JsonRpcResponse) (a b : Z) :
  let s := run parse ls (init cfg0) in
  id ma = IdNum a -> id mb = IdNum b -> a <> b ->
  mapGet a (pendingRequests s) <> None ->
  mapGet b (pendingRequests s) <> None ->
  let s1 := handleMessage mb (handleMessage ma s) in
  let s2 := handleMessage ma (handleMessage mb s) in
  promiseState (RequestP a) s1 = Some (Fulfilled (VResponse ma))
  /\ promiseState (RequestP b) s1 = Some (Fulfilled (VResponse mb))
  /\ pendingRequests s1 = pendingRequests s2
  /\ timers s1 = timers s2
  /\ (forall p, promiseState p s1 = promiseState p s2).
Proof.
  intros s Ha Hb Hab Pa Pb s1 s2.
  pose proof (reachable_wf parse cfg0 ls) as W. fold s in W.
  destruct (@handleMessage_pending ma a s W Ha Pa) as [Ea Sa].
  destruct (@handleMessage_pending mb b s W Hb Pb) as [Eb Sb].
  assert (Wa := @wf_handleMessage ma s W). assert (Wb := @wf_handleMessage mb s W).
  assert (Pb' : mapGet b (pendingRequests (handleMessage ma s)) <> None).
  { rewrite Ea.
    match goal with |- context [settle ?p ?o ?x] =>
      destruct (settle_frame p o x) as (_&_&_&Ep&_) end.
    rewrite Ep. cbn [pendingRequests clearTimer with_timers with_pendingRequests].
    rewrite mapGet_mapDelete.
    destruct (_ =? _) eqn:E; [apply Z.eqb_eq in E; congruence | assumption]. }
  assert (Pa' : mapGet a (pendingRequests (handleMessage mb s)) <> None).
  { rewrite Eb.
    match goal with |- context [settle ?p ?o ?x] =>
      destruct (settle_frame p o x) as (_&_&_&Ep&_) end.
    rewrite Ep. cbn [pendingRequests clearTimer with_timers with_pendingRequests].
    rewrite mapGet_mapDelete.
    destruct (_ =? _) eqn:E; [apply Z.eqb_eq in E; congruence | assumption]. }
  destruct (@handleMessage_pending mb b _ Wa Hb Pb') as [Eab _].
  destruct (@handleMessage_pending ma a _ Wb Ha Pa') as [Eba _].
  assert (Fa : forall m x, pendingRequests (settle (RequestP a) m x) = pendingRequests x
                           /\ timers (settle (RequestP a) m x) = timers x)
    by (intros m x; destruct (settle_frame (RequestP a) m x) as (_&_&_&?&_&_&_&_&?&_); auto).
  assert (Fb : forall m x, pendingRequests (settle (RequestP b) m x) = pendingRequests x
                           /\ timers (settle (RequestP b) m x) = timers x)
    by (intros m x; destruct (settle_frame (RequestP b) m x) as (_&_&_&?&_&_&_&_&?&_); auto).
  assert (States : forall p,
             promiseState p s1
             = if ref_eqb p (RequestP b) then Some (Fulfilled (VResponse mb))
               else if ref_eqb p (RequestP a) then Some (Fulfilled (VResponse ma))
               else promiseState p s).
  { intros p. unfold s1. rewrite Eab, settle_state.
    change (promiseState ?q (clearTimer _ (with_pendingRequests _ ?x)))
      with (promiseState q x).
    rewrite Ea, !settle_state.
    change (promiseState ?q (clearTimer _ (with_pendingRequests _ ?x)))
      with (promiseState q x).
    cbn [ref_eqb]. rewrite (proj2 (Z.eqb_neq b a)) by congruence.
    rewrite Sa, Sb. reflexivity. }
  assert (States2 : forall p,
             promiseState p s2
             = if ref_eqb p (RequestP a) then Some (Fulfilled (VResponse ma))
               else if ref_eqb p (RequestP b) then Some (Fulfilled (VResponse mb))
               else promiseState p s).
  { intros p. unfold s2. rewrite Eba, settle_state.
    change (promiseState ?q (clearTimer _ (with_pendingRequests _ ?x)))
      with (promiseState q x).
    rewrite Eb, !settle_state.
    change (promiseState ?q (clearTimer _ (with_pendingRequests _ ?x)))
      with (promiseState q x).
    cbn [ref_eqb]. rewrite (proj2 (Z.eqb_neq a b)) by congruence.
    rewrite Sa, Sb. reflexivity. }
  split_all.
  - rewrite States. cbn [ref_eqb]. rewrite (proj2 (Z.eqb_neq a b)) by congruence.
    now rewrite Z.eqb_refl.
  - rewrite States. cbn [ref_eqb]. now rewrite Z.eqb_refl.
  - unfold s1, s2. rewrite Eab, Eba.
    rewrite (proj1 (Fa _ _)), (proj1 (Fb _ _)).
    cbn [pendingRequests clearTimer with_timers with_pendingRequests].
    rewrite Ea, Eb. rewrite (proj1 (Fa _ _)), (proj1 (Fb _ _)).
    cbn [pendingRequests clearTimer with_timers with_pendingRequests].
    apply filter_swap.
  - unfold s1, s2. rewrite Eab, Eba.
    rewrite (proj2 (Fa _ _)), (proj2 (Fb _ _)).
    cbn [timers clearTimer with_timers with_pendingRequests].
    rewrite Ea, Eb. rewrite (proj2 (Fa _ _)), (proj2 (Fb _ _)).
    cbn [timers clearTimer with_timers with_pendingRequests].
    apply filter_swap.
  - intros p. rewrite States, States2.
    destruct (ref_eqb p (RequestP a)) eqn:E1, (ref_eqb p (RequestP b)) eqn:E2;
      try reflexivity.
    apply ref_eqb_eq in E1, E2. congruence.
Qed.

Lemma clearTimer_disarms t s : armed t (clearTimer t s) = false.
Proof.
  unfold armed, clearTimer. cbn [timers with_timers].
  induction (timers s) as [|x l IH]; [reflexivity|]. cbn [filter].
  destruct (timer_eqb t x) eqn:E; cbn [negb]; [exact IH|].
  cbn [existsb]. now rewrite E.
Qed.

Lemma armed_clearTimer_other t u s :
  timer_eqb u t = false -> armed t (clearTimer u s) = armed t s.
Proof.
  intros H. unfold armed, clearTimer. cbn [timers with_timers].
  induction (timers s) as [|x l IH]; [reflexivity|]. cbn [filter existsb].
  destruct (timer_eqb u x) eqn:E; cbn [negb existsb].
  - rewrite IH. apply timer_eqb_eq in E. subst x.
    replace (timer_eqb t u) with false; [reflexivity|].
    destruct (timer_eqb t u) eqn:E; [|reflexivity].
    apply timer_eqb_eq in E. subst t. now rewrite (proj2 (timer_eqb_eq u u)) in H.
  - now rewrite IH.
Qed.

(** The response to a pending request takes the timeout of that request
    away: the timer was armed and is cleared, every other timer is as it
    was, the timer going off afterwards changes nothing, and the caller
    keeps the response whatever happens later. *)
Theorem response_clears_the_timeout
    (cfg0 : MiniMaxMcpConfig) (ls : list Label) (n : Z)
    (request : PendingRequest) (message : JsonRpcResponse) :
  let s := run parse ls (init cfg0) in
  mapGet n (pendingRequests s) = Some request ->
  id message = IdNum n ->
  let s' := step parse (OnTimer (timer request)) (handleMessage message s) in
  armed (timer request) s = true
  /\ armed (timer request) (handleMessage message s) = false
  /\ (forall t, t <> timer request ->
        armed t (handleMessage message s) = armed t s)
  /\ s' = handleMessage message s
  /\ promiseState (resolve request) s' = Some (Fulfilled (VResponse message))
  /\ (forall later,
        promiseState (resolve request) (run parse later s')
        = Some (Fulfilled (VResponse message))).
Proof.
  intros s Hr Hid s'.
  pose proof (reachable_wf parse cfg0 ls) as W. fold s in W.
  destruct (wf_pending W _ Hr) as (E & Hs & Ha).
  assert (Em : handleMessage message s
               = settle (RequestP n) (Fulfilled (VResponse message))
                   (clearTimer (RequestTimer n)
                      (with_pendingRequests (mapDelete n (pendingRequests s)) s))).
  { unfold handleMessage. rewrite Hid, Hr, E. reflexivity. }
  assert (Et : timers (handleMessage message s)
               = timers (clearTimer (RequestTimer n) s)).
  { rewrite Em.
    match goal with |- context [settle ?p ?o ?x] =>
      destruct (settle_frame p o x) as (_&_&_&_&_&_&_&_&T&_) end.
    rewrite T. reflexivity. }
  assert (A1 : armed (timer request) (handleMessage message s) = false).
  { unfold armed. rewrite Et, E. apply (clearTimer_disarms (RequestTimer n) s). }
  assert (E' : s' = handleMessage message s).
  { unfold s'. cbn [step]. unfold fire. now rewrite A1. }
  assert (P : promiseState (resolve request) (handleMessage message s)
              = Some (Fulfilled (VResponse message))).
  { rewrite Em, E. cbn [resolve recordOf]. rewrite settle_state, ref_eqb_refl.
    change (promiseState (RequestP n) (clearTimer _ (with_pendingRequests _ s)))
      with (promiseState (RequestP n) s).
    now rewrite Hs. }
  split_all.
  - rewrite E. exact Ha.
  - exact A1.
  - intros t Ht. unfold armed at 1. rewrite Et.
    apply (armed_clearTimer_other t (RequestTimer n) s).
    destruct (timer_eqb (RequestTimer n) t) eqn:Eq; [|reflexivity].
    apply timer_eqb_eq in Eq. subst t. rewrite E in Ht. now elim Ht.
  - exact E'.
  - rewrite E'. exact P.
  - intros later. rewrite E'.
    destruct (@keeps_run parse _ later _ (keeps_refl (handleMessage message s)))
      as (_ & _ & K).
    apply K; [exact P | discriminate].
Qed.

End Order.
(** *** Instances *)

Lemma handleData_chunks_witness :
  handleData parseLine (initOkHead ++ initOkTail) (session connecting)
  = handleData parseLine initOkTail
      (handleData parseLine initOkHead (session connecting)).
Proof.
  apply (@handleData_chunks parseLine initOkHead initOkTail (session connecting)).
  apply eqb_eq. vm_compute. reflexivity.
Defined.

Lemma stdout_noise_is_logged_witness :
  let parts := split LF (buffer (session connecting) ++ utf8_decode noise) in
  handleData parseLine noise (session connecting)
  = with_buffer (last parts [])
      (with_console
         (console (session connecting)
          ++ map (fun line => logPrefix ++ line)
               (filter (fun line => negb (Js.eqb line []))
                  (map trim (removelast parts))))
         (session connecting)).
Proof.
  apply (@stdout_noise_is_logged parseLine noise (session connecting)).
  vm_compute. repeat constructor.
Defined.

Lemma responses_in_either_order_witness :
  let s := run parseLine twoCalls (init cfg) in
  let s1 := handleMessage imageOk (handleMessage searchOk s) in
  let s2 := handleMessage searchOk (handleMessage imageOk s) in
  promiseState (RequestP 2) s1 = Some (Fulfilled (VResponse searchOk))
  /\ promiseState (RequestP 3) s1 = Some (Fulfilled (VResponse imageOk))
  /\ pendingRequests s1 = pendingRequests s2
  /\ timers s1 = timers s2
  /\ (forall p, promiseState p s1 = promiseState p s2).
Proof.
  apply (@responses_in_either_order parseLine cfg twoCalls searchOk imageOk 2 3).
  - reflexivity.
  - reflexivity.
  - discriminate.
  - vm_compute. discriminate.
  - vm_compute. discriminate.
Defined.

Lemma response_clears_the_timeout_witness :
  let s := run parseLine searching (init cfg) in
  let s' := step parseLine (OnTimer (timer (recordOf 2))) (handleMessage searchOk s) in
  armed (timer (recordOf 2)) s = true
  /\ armed (timer (recordOf 2)) (handleMessage searchOk s) = false
  /\ (forall t, t <> timer (recordOf 2) ->
        armed t (handleMessage searchOk s) = armed t s)
  /\ s' = handleMessage searchOk s
  /\ promiseState (resolve (recordOf 2)) s' = Some (Fulfilled (VResponse searchOk))
  /\ (forall later,
        promiseState (resolve (recordOf 2)) (run parseLine later s')
        = Some (Fulfilled (VResponse searchOk))).
Proof.
  apply (@response_clears_the_timeout parseLine cfg searching 2 (recordOf 2)
           searchOk).
  - vm_compute. reflexivity.
  - reflexivity.
Defined.

End TransportFacts.

(* ===================================================================== *)
(** ** Failures of the subprocess *)
(* ===================================================================== *)

Module FailureFacts.
Import Js Json Client Examples UtilsFacts ClientFacts CallFacts TransportFacts MoreExamples.
Local Open Scope Z_scope.

(** *** A write that throws *)

Lemma mapDelete_mapSet {V} k (v : V) m :
  mapGet k m = None -> mapDelete k (mapSet k v m) = m.
Proof.
  unfold mapDelete. induction m as [|[k' v'] m IH]; cbn [mapGet mapSet filter fst].
  - now rewrite Z.eqb_refl.
  - destruct (k =? k') eqn:E; [discriminate|]. intros H.
    cbn [filter fst]. rewrite E. cbn [negb]. now rewrite IH.
Qed.

Lemma armed_clearTimer t s : armed t (clearTimer t s) = false.
Proof.
  unfold armed, clearTimer. cbn [timers with_timers].
  induction (timers s) as [|x l IH]; [reflexivity|]. cbn [filter].
  destruct (timer_eqb t x) eqn:E; cbn [negb]; [exact IH|].
  cbn [existsb]. now rewrite E.
Qed.

Section Failures.

Variable parse : jsstring -> option JsonRpcResponse.

(** When the write on the input pipe throws, the request made is undone:
    its promise is rejected with the error thrown, no record and no timer
    are left behind, and nothing is written; the id is used up all the
    same. *)
Theorem sendRequest_write_throws
    (cfg0 : MiniMaxMcpConfig) (ls : list Label)
    (method : jsstring) (params : json) (h : nat) (c : ChildProcess) (e : Error) :
  let s := run parse ls (init cfg0) in
  processStdin s = Some h -> child h s = Some c -> writeError c = Some e ->
  let n := requestId s + 1 in
  let s' := fst (sendRequest method params s) in
  snd (sendRequest method params s) = inr (RequestP n)
  /\ promiseState (RequestP n) s' = Some (Rejected e)
  /\ pendingRequests s' = pendingRequests s
  /\ mapGet n (pendingRequests s') = None
  /\ armed (RequestTimer n) s' = false
  /\ children s' = children s
  /\ requestId s' = n.
Proof.
  intros s Hh Hc He n s'.
  pose proof (reachable_wf parse cfg0 ls) as W. fold s in W.
  pose proof (fresh_request W) as F. fold n in F.
  assert (Hn : mapGet n (pendingRequests s) = None).
  { destruct (mapGet n (pendingRequests s)) as [r|] eqn:E; [|reflexivity].
    destruct (wf_pending W _ E) as (_ & Hs & _). congruence. }
  assert (E : sendRequest method params s
              = (settle (RequestP n) (Rejected e)
                   (clearTimer (RequestTimer n)
                      (with_pendingRequests
                         (mapDelete n (mapSet n (recordOf n) (pendingRequests s)))
                         (setTimer (RequestTimer n)
                            (newPromise (RequestP n) (with_requestId n s))))),
                 inr (RequestP n))).
  { unfold sendRequest. rewrite Hh. fold n. unfold write, child.
    cbn [children with_pendingRequests setTimer with_timers newPromise
         with_promises with_requestId].
    unfold child in Hc. rewrite Hc, He. reflexivity. }
  unfold s'. rewrite E. cbn [fst snd].
  match goal with |- context [settle ?p ?o ?x] =>
    destruct (settle_frame p o x) as (_&_&Er&Ep&_&_&_&Ech&Et&_);
    pose proof (settle_state p o x p) as Es
  end.
  rewrite ref_eqb_refl in Es.
  split_all.
  - reflexivity.
  - rewrite Es. unfold promiseState, newPromise.
    cbn [promises clearTimer with_timers with_pendingRequests setTimer
         with_promises with_requestId].
    unfold promiseState in F. rewrite stateIn_app, F, ref_eqb_refl. reflexivity.
  - rewrite Ep. cbn [pendingRequests clearTimer with_timers with_pendingRequests].
    now apply mapDelete_mapSet.
  - rewrite Ep. cbn [pendingRequests clearTimer with_timers with_pendingRequests].
    now rewrite mapDelete_mapSet.
  - unfold armed. rewrite Et. apply armed_clearTimer.
  - rewrite Ech. reflexivity.
  - rewrite Er. reflexivity.
Qed.


Lemma settle_microtasks p o s :
  promiseState p s = Some Pending ->
  microtasks (settle p o s)
  = microtasks s
    ++ map (fun a => (snd a, o)) (filter (fun a => ref_eqb p (fst a)) (awaiting s)).
Proof. unfold settle. now intros ->. Qed.

(** *** A subprocess that never starts *)

Lemma fresh_startup s k :
  named s -> (fresh s <= k)%nat -> promiseState (StartupP k) s = None.
Proof.
  intros N Hk. destruct (promiseState (StartupP k) s) as [st|] eqn:E;
    [|reflexivity].
  pose proof (@named_fresh s N _ _ E) as L. simpl in L. lia.
Qed.

(** The session [connect] leaves behind when it has to start a subprocess. *)
Lemma connect_starts spawn s :
  named s -> initialized s = false -> initPromise s = None ->
  let f := fresh s in
  connect spawn s
  = (with_initPromise (Some (CallP f))
       (with_awaiting (awaiting s ++ [(StartupP (S f), DoConnectStarted f)])
          (setTimer (StartupInterval (S f))
             (setTimer (StartupTimer (S f))
                (newPromise (StartupP (S f))
                   (newPromise (CallP f)
                      (with_process (Some (length (children s)))
                         (with_children
                            (children s
                             ++ [mkChild (spawnEnv (config s)) (s_pid spawn)
                                   (s_stdin spawn) (s_writeError spawn) false []])
                            s))))))),
     InFlight (CallP f)).
Proof.
  intros N Hi Hp f. unfold connect. rewrite Hi, Hp. unfold doConnect. cbv zeta.
  assert (E1 : forall v w, fresh (with_process v (with_children w s)) = f)
    by reflexivity.
  assert (E2 : forall v w,
             fresh (newPromise (CallP f) (with_process v (with_children w s))) = S f).
  { intros v w. unfold fresh, newPromise. cbn [promises with_promises
      with_process with_children]. rewrite length_app. unfold f, fresh.
    cbn [length]. lia. }
  rewrite !E1, !E2. rewrite await_pending; [reflexivity|].
  unfold promiseState, setTimer, newPromise.
  cbn [promises with_timers with_promises with_process with_children].
  rewrite !stateIn_app.
  pose proof (@fresh_startup s (S f) N ltac:(unfold f; lia)) as F.
  unfold promiseState in F. rewrite F. cbn [ref_eqb]. now rewrite Nat.eqb_refl.
Qed.

Lemma run_app ls ls' s : run parse (ls ++ ls') s = run parse ls' (run parse ls s).
Proof. unfold run. apply fold_left_app. Qed.

Lemma run_repeat l n s : step parse l s = s -> run parse (repeat l n) s = s.
Proof.
  intros H. induction n as [|n IH]; [reflexivity|].
  cbn [repeat]. unfold run in *. cbn [fold_left]. now rewrite H.
Qed.

(** When the subprocess cannot be started it has no process id and Node
    reports it with an [error] event. The polls, before the event and
    after it, change nothing. The event resets the connection ([process]
    and [initPromise] are cleared, the subprocess is killed) but leaves the
    promise of [connect] undecided: it is the startup timer that rejects
    it, with the startup timeout. No request has been made, the poll is
    never cleared, and a later [connect] starts afresh, with a new promise
    and one more subprocess. *)
Theorem startup_timeout_rejects_connect
    (cfg0 : MiniMaxMcpConfig) (ls : list Label)
    (spawn spawn' : SpawnOutcome) (err : Error) (before after : nat) :
  let s := run parse ls (init cfg0) in
  initialized s = false -> initPromise s = None -> microtasks s = [] ->
  pendingRequests s = [] ->
  s_pid spawn = None ->
  let h := length (children s) in
  let p := CallP (fresh s) in
  let k := S (fresh s) in
  let poll := OnTimer (StartupInterval k) in
  let s1 := fst (connect spawn s) in
  let s2 := run parse (repeat poll before ++ [OnError err]) s1 in
  let s3 := run parse (repeat poll after ++ [OnTimer (StartupTimer k); Microtask]) s2 in
  snd (connect spawn s) = InFlight p
  /\ run parse (repeat poll before) s1 = s1
  /\ process s2 = None /\ initPromise s2 = None /\ initialized s2 = false
  /\ child h s2
     = Some (mkChild (spawnEnv cfg0) None (s_stdin spawn) (s_writeError spawn)
               true [])
  /\ promiseState p s2 = Some Pending
  /\ run parse (repeat poll after) s2 = s2
  /\ promiseState p s3 = Some (Rejected startupTimeout)
  /\ requestId s3 = requestId s
  /\ armed (StartupInterval k) s3 = true
  /\ process s3 = None /\ initPromise s3 = None /\ initialized s3 = false
  /\ snd (connect spawn' s3) = InFlight (CallP (S k))
  /\ process (fst (connect spawn' s3)) = Some (S h)
  /\ length (children (fst (connect spawn' s3))) = S (S h).
Proof.
  intros s Hi Hp Hm Hq Hpid h p k poll s1 s2 s3.
  assert (N : named s) by apply named_run, named_init_session.
  assert (C : config s = cfg0) by apply reachable_config.
  pose proof (@connect_starts spawn s N Hi Hp) as E. cbv zeta in E.
  fold p k h in E.
  assert (E1 : s1 = fst (connect spawn s)) by reflexivity.
  rewrite E in E1. cbn [fst] in E1.
  assert (Hpoll : step parse poll s1 = s1).
  { rewrite E1. cbn [step poll]. unfold fire.
    destruct (armed _ _); [|reflexivity].
    cbn [process with_initPromise with_awaiting setTimer with_timers newPromise
         with_promises with_process].
    unfold child.
    cbn [children with_initPromise with_awaiting setTimer with_timers
         newPromise with_promises with_process with_children].
    rewrite nth_error_app2 by (unfold h; lia). unfold h.
    rewrite Nat.sub_diag. cbn [nth_error pid].
    rewrite Hpid. reflexivity. }
  assert (B : run parse (repeat poll before) s1 = s1) by now apply run_repeat.
  set (c0 := mkChild (spawnEnv (config s)) (s_pid spawn) (s_stdin spawn)
               (s_writeError spawn) false []) in *.
  assert (E2 : s2 = with_process None
                      (kill h (with_initPromise None
                                 (with_initialized false
                                    (with_pendingRequests [] s1))))).
  { unfold s2. rewrite run_app, B. unfold run. cbn [fold_left step].
    unfold handleProcessError.
    replace (pendingRequests s1) with (@nil (Z * PendingRequest))
      by (rewrite E1; symmetry; exact Hq).
    cbn [fold_left]. unfold cleanup.
    replace (process (with_initPromise None
                        (with_initialized false (with_pendingRequests [] s1))))
      with (Some h) by (rewrite E1; reflexivity).
    reflexivity. }
  assert (Hpoll2 : step parse poll s2 = s2).
  { rewrite E2. cbn [step poll]. unfold fire.
    destruct (armed _ _); reflexivity. }
  assert (A : run parse (repeat poll after) s2 = s2) by now apply run_repeat.
  assert (Fp : promiseState p s = None) by apply (fresh_call N).
  assert (Fk : promiseState (StartupP k) s = None)
    by (apply fresh_startup; [exact N | unfold k; lia]).
  assert (Hw : filter (fun a => ref_eqb (StartupP k) (fst a)) (awaiting s) = [])
    by now apply filter_awaiting_fresh.
  assert (P2 : promises s2
               = (promises s ++ [(p, Pending)]) ++ [(StartupP k, Pending)]).
  { rewrite E2, E1. reflexivity. }
  assert (T2 : timers s2
               = (timers s ++ [StartupTimer k]) ++ [StartupInterval k]).
  { rewrite E2, E1. reflexivity. }
  assert (W2 : awaiting s2 = awaiting s ++ [(StartupP k, DoConnectStarted (fresh s))]
               /\ microtasks s2 = [] /\ requestId s2 = requestId s
               /\ process s2 = None /\ initPromise s2 = None
               /\ initialized s2 = false
               /\ children s2
                  = updateAt h (fun c => mkChild (env c) (pid c) (stdin c)
                                           (writeError c) true (written c))
                      (children s ++ [c0])).
  { rewrite E2, E1. unfold kill, setTimer, newPromise.
    cbn [awaiting microtasks requestId process initPromise initialized children
         with_process with_children with_initPromise with_initialized
         with_pendingRequests with_awaiting with_timers with_promises].
    split_all; try reflexivity; assumption. }
  destruct W2 as (Aw2 & M2 & R2 & Pr2 & Ip2 & In2 & Ch2).
  assert (Pp2 : promiseState p s2 = Some Pending).
  { unfold promiseState. rewrite P2. unfold promiseState in Fp.
    rewrite !stateIn_app, Fp. now rewrite ref_eqb_refl. }
  assert (Pk2 : promiseState (StartupP k) s2 = Some Pending).
  { unfold promiseState. rewrite P2. unfold promiseState in Fk.
    rewrite !stateIn_app, Fk. cbn [ref_eqb p].
    now rewrite Nat.eqb_refl. }
  set (sT := fire (StartupTimer k) s2).
  assert (ET : sT = settle (StartupP k) (Rejected startupTimeout)
                      (clearTimer (StartupTimer k) s2)).
  { unfold sT, fire.
    replace (armed (StartupTimer k) s2) with true; [reflexivity|].
    unfold armed. rewrite T2.
    rewrite !existsb_app. cbn [existsb timer_eqb]. rewrite Nat.eqb_refl.
    now rewrite ?orb_true_r. }
  assert (MT : microtasks sT = [(DoConnectStarted (fresh s), Rejected startupTimeout)]).
  { rewrite ET, settle_microtasks by exact Pk2.
    cbn [awaiting microtasks clearTimer with_timers].
    rewrite Aw2, M2, filter_app, Hw. cbn [filter fst ref_eqb app map snd].
    rewrite Nat.eqb_refl. reflexivity. }
  assert (PT : promiseState p sT = Some Pending).
  { rewrite ET, settle_state. unfold p at 1. cbn [ref_eqb]. exact Pp2. }
  assert (FT : requestId sT = requestId s
               /\ armed (StartupInterval k) sT = true
               /\ process sT = None
               /\ initialized sT = false
               /\ initPromise sT = None
               /\ children sT = children s2
               /\ length (promises sT) = S k).
  { rewrite ET.
    match goal with |- context [settle ?q ?o ?x] =>
      destruct (settle_frame q o x) as (_&Epr&Er&_&_&Ei&Eip&Ech&Et&_)
    end.
    unfold armed. rewrite Er, Et, Epr, Ei, Eip, Ech.
    cbn [requestId timers process initialized initPromise children clearTimer
         with_timers].
    rewrite T2. split_all; try reflexivity; try assumption.
    - rewrite !filter_app, !existsb_app. cbn [filter timer_eqb negb existsb].
      rewrite ?Nat.eqb_refl. cbn [negb existsb timer_eqb].
      rewrite ?Nat.eqb_refl. now rewrite ?orb_true_r.
    - unfold settle.
      change (promiseState (StartupP k) (clearTimer (StartupTimer k) s2))
        with (promiseState (StartupP k) s2).
      rewrite Pk2.
      cbn [promises with_microtasks with_awaiting with_promises clearTimer
           with_timers].
      rewrite setState_length, P2, !length_app. cbn [length].
      unfold k, fresh. lia. }
  destruct FT as (T1 & T3 & T4 & T5 & T6 & T7 & T8).
  assert (E3 : s3 = settle p (Rejected startupTimeout) (with_microtasks [] sT)).
  { unfold s3. rewrite run_app, A. unfold run. cbn [fold_left step]. fold sT.
    rewrite MT. reflexivity. }
  assert (F3 : promiseState p s3 = Some (Rejected startupTimeout)
               /\ requestId s3 = requestId s
               /\ armed (StartupInterval k) s3 = true
               /\ process s3 = None
               /\ initialized s3 = false
               /\ initPromise s3 = None
               /\ children s3 = children s2
               /\ fresh s3 = S k).
  { rewrite E3.
    match goal with |- context [settle ?q ?o ?x] =>
      destruct (settle_frame q o x) as (_&Epr&Er&_&_&Ei&Eip&Ech&Et&_);
      pose proof (settle_state q o x q) as Es
    end.
    rewrite ref_eqb_refl in Es. unfold armed. rewrite Es, Er, Et, Epr, Ei, Eip, Ech.
    change (promiseState p (with_microtasks [] sT)) with (promiseState p sT).
    rewrite PT. split_all; try reflexivity; try assumption.
    unfold fresh, settle.
    change (promiseState p (with_microtasks [] sT)) with (promiseState p sT).
    rewrite PT.
    cbn [promises with_microtasks with_awaiting with_promises].
    now rewrite setState_length. }
  destruct F3 as (A1 & A2 & A3 & A4 & A5 & A6 & A7 & A8).
  assert (N3 : named s3)
    by (unfold s3, s2, s1; do 2 apply named_run; now apply named_connect).
  pose proof (@connect_starts spawn' s3 N3 A5 A6) as E4. cbv zeta in E4.
  rewrite A8 in E4.
  assert (L2 : length (children s2) = S h).
  { rewrite Ch2.
    assert (G : forall (f : ChildProcess -> ChildProcess) l i,
               length (updateAt i f l) = length l).
    { intros f l. induction l as [|x l IH]; intros [|i]; cbn [updateAt length];
        auto. }
    rewrite G, length_app. cbn [length]. unfold h. lia. }
  split_all; try assumption.
  - now rewrite E.
  - unfold child. rewrite Ch2, nth_error_updateAt.
    rewrite nth_error_app2 by (unfold h; lia). unfold h.
    rewrite Nat.sub_diag. cbn [nth_error option_map c0 env pid stdin writeError written].
    now rewrite Hpid, C.
  - now rewrite E4.
  - rewrite E4. cbn [fst process with_initPromise with_awaiting setTimer
                     with_timers newPromise with_promises with_process].
    now rewrite A7, L2.
  - rewrite E4. cbn [fst children with_initPromise with_awaiting setTimer
                     with_timers newPromise with_promises with_process
                     with_children].
    rewrite length_app, A7, L2. cbn [length]. lia.
Qed.


(** *** Requests in flight at a disconnect *)

(** [disconnect] leaves a pending request as it is: the record stays, the
    promise stays undecided and the timer stays armed, with the subprocess
    gone; the caller hears of it when the timer goes off, with the timeout
    error. *)
Theorem disconnect_leaves_requests_to_their_timeout
    (cfg0 : MiniMaxMcpConfig) (ls : list Label) (n : Z) (request : PendingRequest) :
  let s := run parse ls (init cfg0) in
  mapGet n (pendingRequests s) = Some request ->
  let s1 := step parse CallDisconnect s in
  let s2 := step parse (OnTimer (timer request)) s1 in
  process s1 = None
  /\ mapGet n (pendingRequests s1) = Some request
  /\ promiseState (reject request) s1 = Some Pending
  /\ armed (timer request) s1 = true
  /\ mapGet n (pendingRequests s2) = None
  /\ promiseState (reject request) s2 = Some (Rejected (requestTimeout cfg0)).
Proof.
  intros s Hr s1 s2.
  pose proof (reachable_wf parse cfg0 ls) as W. fold s in W.
  destruct (wf_pending W _ Hr) as (E & Hs & Ha).
  destruct (cleanup_frame s) as (_ & _ & Epr & Ep & Eps & Et & _).
  assert (W1 : wf s1) by (unfold s1; now apply wf_step).
  assert (R1 : mapGet n (pendingRequests s1) = Some request)
    by (unfold s1; cbn [step]; unfold disconnect; now rewrite Ep).
  destruct (@fire_request_timer n request s1 W1 R1) as [F1 F2].
  assert (C1 : config s1 = cfg0).
  { unfold s1, s. change (step parse CallDisconnect (run parse ls (init cfg0)))
      with (fold_left (fun s l => step parse l s) [CallDisconnect]
              (fold_left (fun s l => step parse l s) ls (init cfg0))).
    rewrite <- fold_left_app. apply (reachable_config parse cfg0 (ls ++ [CallDisconnect])). }
  split_all.
  - exact Epr.
  - exact R1.
  - subst request. unfold s1. cbn [step reject recordOf].
    unfold disconnect, promiseState. rewrite Eps. exact Hs.
  - subst request. unfold s1. cbn [step timer recordOf].
    unfold disconnect, armed. rewrite Et. exact Ha.
  - exact F1.
  - unfold s2. cbn [step]. rewrite F2, C1. reflexivity.
Qed.

End Failures.
(** *** Instances *)

Lemma sendRequest_write_throws_witness :
  let s := run parseLine [CallConnect brokenPipe] (init cfg) in
  let n := requestId s + 1 in
  let s' := fst (sendRequest (str "initialize") initializeParams s) in
  snd (sendRequest (str "initialize") initializeParams s) = inr (RequestP n)
  /\ promiseState (RequestP n) s' = Some (Rejected (str "EPIPE"))
  /\ pendingRequests s' = pendingRequests s
  /\ mapGet n (pendingRequests s') = None
  /\ armed (RequestTimer n) s' = false
  /\ children s' = children s
  /\ requestId s' = n.
Proof.
  apply (@sendRequest_write_throws parseLine cfg [CallConnect brokenPipe]
           (str "initialize") initializeParams 0%nat
           (mkChild (spawnEnv cfg) (Some 4243) true (Some (str "EPIPE")) false [])
           (str "EPIPE")).
  - vm_compute. reflexivity.
  - vm_compute. reflexivity.
  - reflexivity.
Defined.

Lemma disconnect_leaves_requests_to_their_timeout_witness :
  let s := run parseLine searching (init cfg) in
  let s1 := step parseLine CallDisconnect s in
  let s2 := step parseLine (OnTimer (timer (recordOf 2))) s1 in
  process s1 = None
  /\ mapGet 2 (pendingRequests s1) = Some (recordOf 2)
  /\ promiseState (reject (recordOf 2)) s1 = Some Pending
  /\ armed (timer (recordOf 2)) s1 = true
  /\ mapGet 2 (pendingRequests s2) = None
  /\ promiseState (reject (recordOf 2)) s2 = Some (Rejected (requestTimeout cfg)).
Proof.
  apply (@disconnect_leaves_requests_to_their_timeout parseLine cfg searching 2
           (recordOf 2)).
  vm_compute. reflexivity.
Defined.

Lemma startup_timeout_rejects_connect_witness :
  let s := run parseLine [] (init cfg) in
  let h := length (children s) in
  let p := CallP (fresh s) in
  let k := S (fresh s) in
  let poll := OnTimer (StartupInterval k) in
  let s1 := fst (connect neverStarts s) in
  let s2 := run parseLine (repeat poll 1 ++ [OnError (str "spawn uvx ENOENT")]) s1 in
  let s3 := run parseLine (repeat poll 3 ++ [OnTimer (StartupTimer k); Microtask]) s2 in
  snd (connect neverStarts s) = InFlight p
  /\ run parseLine (repeat poll 1) s1 = s1
  /\ process s2 = None /\ initPromise s2 = None /\ initialized s2 = false
  /\ child h s2
     = Some (mkChild (spawnEnv cfg) None (s_stdin neverStarts)
               (s_writeError neverStarts) true [])
  /\ promiseState p s2 = Some Pending
  /\ run parseLine (repeat poll 3) s2 = s2
  /\ promiseState p s3 = Some (Rejected startupTimeout)
  /\ requestId s3 = requestId s
  /\ armed (StartupInterval k) s3 = true
  /\ process s3 = None /\ initPromise s3 = None /\ initialized s3 = false
  /\ snd (connect spawned s3) = InFlight (CallP (S k))
  /\ process (fst (connect spawned s3)) = Some (S h)
  /\ length (children (fst (connect spawned s3))) = S (S h).
Proof.
  apply (@startup_timeout_rejects_connect parseLine cfg [] neverStarts spawned
           (str "spawn uvx ENOENT") 1 3);
    reflexivity.
Defined.

End FailureFacts.

(* ===================================================================== *)
(** ** Properties of the handshake *)
(* ===================================================================== *)

Module HandshakeFacts.
Import Js Json Client Examples UtilsFacts ClientFacts CallFacts TransportFacts FailureFacts MoreExamples.
Local Open Scope Z_scope.

Lemma filter_asleep_fresh s q :
  named s -> promiseState q s = None ->
  filter (fun a => negb (ref_eqb q (fst a))) (awaiting s) = awaiting s.
Proof.
  intros N Hq.
  assert (G : forall l, (forall a, In a l -> In a (awaiting s)) ->
                        filter (fun a => negb (ref_eqb q (fst a))) l = l).
  { induction l as [|[p k] l IH]; intros Hl; cbn [filter fst]; [reflexivity|].
    destruct (ref_eqb q p) eqn:E.
    - apply ref_eqb_eq in E. subst p.
      elim (@named_awaiting s N q k); [apply Hl; now left | exact Hq].
    - cbn [negb]. f_equal. apply IH. intros a Ha. apply Hl. now right. }
  apply G. auto.
Qed.

Section Handshake.

Variable parse : jsstring -> option JsonRpcResponse.

(** The subprocess as [doConnect] starts it, and after the request and the
    notification of the handshake. *)
Lemma handshake_request (cfg0 : MiniMaxMcpConfig) (ls : list Label) (processId : Z) :
  let s := run parse ls (init cfg0) in
  initialized s = false -> initPromise s = None -> microtasks s = [] ->
  processId <> 0 ->
  let f := fresh s in
  let k := S f in
  let h := length (children s) in
  let n := requestId s + 1 in
  let line := stringify (requestObject n (str "initialize") initializeParams) ++ [LF] in
  let s1 := run parse [CallConnect (mkSpawn (Some processId) true None);
                       OnTimer (StartupInterval k); Microtask] s in
  child h s1 = Some (mkChild (spawnEnv cfg0) (Some processId) true None false [line])
  /\ process s1 = Some h
  /\ requestId s1 = n
  /\ mapGet n (pendingRequests s1) = Some (recordOf n)
  /\ promiseState (RequestP n) s1 = Some Pending
  /\ promiseState (CallP f) s1 = Some Pending
  /\ filter (fun a => ref_eqb (RequestP n) (fst a)) (awaiting s1)
     = [(RequestP n, InitializeResponded f)]
  /\ microtasks s1 = []
  /\ initialized s1 = false
  /\ initPromise s1 = Some (CallP f)
  /\ armed (StartupTimer k) s1 = false
  /\ armed (StartupInterval k) s1 = false.
Proof.
  intros s Hi Hp Hm Hpid f k h n line s1.
  assert (N : named s) by apply named_run, named_init_session.
  pose proof (reachable_wf parse cfg0 ls) as W. fold s in W.
  pose proof (reachable_config parse cfg0 ls) as Hc. fold s in Hc.
  pose proof (@connect_starts (mkSpawn (Some processId) true None) s N Hi Hp) as E.
  cbv zeta in E. fold f k h in E. cbn [s_pid s_stdin s_writeError] in E.
  rewrite Hc in E.
  set (c0 := mkChild (spawnEnv cfg0) (Some processId) true None false []) in *.
  assert (Fp : promiseState (CallP f) s = None) by apply (fresh_call N).
  assert (Fk : promiseState (StartupP k) s = None)
    by (apply fresh_startup; [exact N | unfold k, f; lia]).
  assert (Fn : promiseState (RequestP n) s = None) by apply (fresh_request W).
  assert (Hw : filter (fun a => ref_eqb (StartupP k) (fst a)) (awaiting s) = [])
    by now apply filter_awaiting_fresh.
  assert (Ha : filter (fun a => negb (ref_eqb (StartupP k) (fst a))) (awaiting s)
               = awaiting s) by now apply filter_asleep_fresh.
  assert (Hn : filter (fun a => ref_eqb (RequestP n) (fst a)) (awaiting s) = [])
    by now apply filter_awaiting_fresh.
  unfold promiseState in Fp, Fk, Fn.
  (* connect *)
  set (sa := fst (connect (mkSpawn (Some processId) true None) s)).
  assert (Ea : sa = fst (connect (mkSpawn (Some processId) true None) s)) by reflexivity.
  rewrite E in Ea. cbn [fst] in Ea.
  (* the poll finds the process id *)
  set (sb := fire (StartupInterval k) sa).
  assert (Child : nth_error (children s ++ [c0]) h = Some c0).
  { unfold h. rewrite nth_error_app2 by lia. now rewrite Nat.sub_diag. }
  assert (Eb : sb = settle (StartupP k) (Fulfilled VUndefined)
                      (clearTimer (StartupInterval k)
                         (clearTimer (StartupTimer k) sa))).
  { unfold sb, fire.
    replace (armed (StartupInterval k) sa) with true.
    2: { rewrite Ea. unfold armed, setTimer.
         cbn [timers with_initPromise with_awaiting with_timers].
         rewrite !existsb_app. cbn [existsb timer_eqb]. rewrite Nat.eqb_refl.
         now rewrite ?orb_true_r. }
    replace (process sa) with (Some h) by (rewrite Ea; reflexivity).
    replace (child h sa) with (Some c0).
    2: { rewrite Ea. unfold child.
         cbn [children with_initPromise with_awaiting setTimer with_timers
              newPromise with_promises with_process with_children].
         now rewrite Child. }
    unfold c0. cbn [pid]. rewrite (proj2 (Z.eqb_neq processId 0) Hpid). reflexivity. }
  assert (Pk : promiseState (StartupP k)
                 (clearTimer (StartupInterval k) (clearTimer (StartupTimer k) sa))
               = Some Pending).
  { rewrite Ea. unfold promiseState, clearTimer, setTimer, newPromise.
    cbn [promises with_initPromise with_awaiting with_timers with_promises
         with_process with_children].
    rewrite !stateIn_app, Fk. cbn [ref_eqb]. now rewrite Nat.eqb_refl. }
  assert (Eb2 : sb = with_microtasks [(DoConnectStarted f, Fulfilled VUndefined)]
                       (with_awaiting (awaiting s)
                          (with_promises
                             (setState (StartupP k) (Fulfilled VUndefined)
                                ((promises s ++ [(CallP f, Pending)])
                                 ++ [(StartupP k, Pending)]))
                             (clearTimer (StartupInterval k)
                                (clearTimer (StartupTimer k) sa))))).
  { rewrite Eb. unfold settle. rewrite Pk. cbv zeta. rewrite Ea.
    cbn [awaiting microtasks promises clearTimer with_timers with_initPromise
         with_awaiting setTimer newPromise with_promises with_process
         with_children].
    rewrite !filter_app, Hw, Ha, Hm. cbn [filter fst ref_eqb negb app map snd].
    rewrite Nat.eqb_refl. cbn [negb app map snd]. rewrite app_nil_r.
    reflexivity. }
  (* the request *)
  set (sb' := with_microtasks [] sb).
  assert (Eproc : process sb' = Some h) by (unfold sb'; rewrite Eb2, Ea; reflexivity).
  assert (Echild : child h sb' = Some c0).
  { unfold sb', child. rewrite Eb2, Ea.
    cbn [children with_microtasks with_awaiting with_promises clearTimer
         with_timers with_initPromise setTimer newPromise with_process
         with_children].
    exact Child. }
  assert (Ereq : requestId sb' = requestId s)
    by (unfold sb'; rewrite Eb2, Ea; reflexivity).
  pose proof (@sendRequest_written (str "initialize") initializeParams sb' h c0
                Eproc Echild eq_refl eq_refl) as Es.
  cbv zeta in Es. rewrite Ereq in Es. fold n in Es. fold line in Es.
  set (sc := with_children
               (updateAt h
                  (fun c => mkChild (env c) (pid c) (stdin c) (writeError c)
                              (killed c) (written c ++ [line]))
                  (children sb'))
               (with_pendingRequests (mapSet n (recordOf n) (pendingRequests sb'))
                  (setTimer (RequestTimer n)
                     (newPromise (RequestP n) (with_requestId n sb'))))) in *.
  assert (Pn : promiseState (RequestP n) sc = Some Pending).
  { unfold sc, sb', promiseState, newPromise. rewrite Eb2.
    cbn [promises with_children with_pendingRequests setTimer with_timers
         with_promises with_requestId with_microtasks with_awaiting].
    rewrite stateIn_app, stateIn_setState. cbn [ref_eqb].
    rewrite !stateIn_app, Fn. cbn [ref_eqb]. now rewrite Z.eqb_refl. }
  assert (E1 : s1 = with_awaiting (awaiting s ++ [(RequestP n, InitializeResponded f)]) sc).
  { unfold s1, run. cbn [fold_left].
    change (step parse (CallConnect (mkSpawn (Some processId) true None)) s) with sa.
    change (step parse (OnTimer (StartupInterval k)) sa) with sb.
    cbn [step]. rewrite Eb2 at 1. cbn [microtasks with_microtasks].
    fold sb'. cbn [resume]. rewrite Es.
    rewrite await_pending by exact Pn.
    replace (awaiting sc) with (awaiting s); [reflexivity|].
    unfold sc, sb'. rewrite Eb2. reflexivity. }
  assert (Pf : promiseState (CallP f) s1 = Some Pending).
  { rewrite E1. unfold sc, sb', promiseState, newPromise. rewrite Eb2.
    cbn [promises with_children with_pendingRequests setTimer with_timers
         with_promises with_requestId with_microtasks with_awaiting].
    rewrite stateIn_app, stateIn_setState. cbn [ref_eqb].
    rewrite !stateIn_app, Fp. cbn [ref_eqb]. now rewrite Nat.eqb_refl. }
  split_all.
  - rewrite E1. unfold child, sc.
    cbn [children with_awaiting with_children].
    replace (children sb') with (children s ++ [c0])
      by (unfold sb'; rewrite Eb2, Ea; reflexivity).
    rewrite nth_error_updateAt, Child. reflexivity.
  - rewrite E1. exact Eproc.
  - rewrite E1. reflexivity.
  - rewrite E1. unfold sc. cbn [pendingRequests with_awaiting with_children
      with_pendingRequests]. now rewrite mapGet_mapSet, Z.eqb_refl.
  - rewrite E1. exact Pn.
  - exact Pf.
  - rewrite E1. cbn [awaiting with_awaiting]. rewrite filter_app, Hn.
    cbn [filter fst ref_eqb app]. now rewrite Z.eqb_refl.
  - rewrite E1. unfold sc, sb'. reflexivity.
  - rewrite E1. unfold sc, sb'. rewrite Eb2, Ea. exact Hi.
  - rewrite E1. unfold sc, sb'. rewrite Eb2, Ea. reflexivity.
  - rewrite E1. unfold sc, sb', armed. rewrite Eb2.
    cbn [timers with_awaiting with_children with_pendingRequests setTimer
         with_timers newPromise with_promises with_requestId with_microtasks
         clearTimer].
    rewrite existsb_app. cbn [existsb timer_eqb]. rewrite orb_false_r.
    apply not_true_is_false. intros H. apply existsb_exists in H.
    destruct H as (t & Ht & Et). apply timer_eqb_eq in Et. subst t.
    apply filter_In in Ht. destruct Ht as [Ht _].
    apply filter_In in Ht. destruct Ht as [_ Ht].
    cbn [timer_eqb] in Ht. now rewrite Nat.eqb_refl in Ht.
  - rewrite E1. unfold sc, sb', armed. rewrite Eb2.
    cbn [timers with_awaiting with_children with_pendingRequests setTimer
         with_timers newPromise with_promises with_requestId with_microtasks
         clearTimer].
    rewrite existsb_app. cbn [existsb timer_eqb]. rewrite orb_false_r.
    apply not_true_is_false. intros H. apply existsb_exists in H.
    destruct H as (t & Ht & Et). apply timer_eqb_eq in Et. subst t.
    apply filter_In in Ht. destruct Ht as [_ Ht].
    cbn [timer_eqb] in Ht. now rewrite Nat.eqb_refl in Ht.
Qed.



(** The session once the response to the request of a continuation has
    been handled. *)
Lemma response_wakes s1 n (k : Cont) response :
  id response = IdNum n ->
  mapGet n (pendingRequests s1) = Some (recordOf n) ->
  promiseState (RequestP n) s1 = Some Pending ->
  filter (fun a => ref_eqb (RequestP n) (fst a)) (awaiting s1) = [(RequestP n, k)] ->
  microtasks s1 = [] ->
  handleMessage response s1
  = with_microtasks [(k, Fulfilled (VResponse response))]
      (with_awaiting
         (filter (fun a => negb (ref_eqb (RequestP n) (fst a))) (awaiting s1))
         (with_promises
            (setState (RequestP n) (Fulfilled (VResponse response)) (promises s1))
            (clearTimer (RequestTimer n)
               (with_pendingRequests (mapDelete n (pendingRequests s1)) s1)))).
Proof.
  intros Hid Hr Hs Ha Hm.
  unfold handleMessage. rewrite Hid, Hr. cbn [timer resolve recordOf].
  unfold settle.
  match goal with |- context [match promiseState ?p ?x with _ => _ end] =>
    change (promiseState p x) with (promiseState p s1) end.
  rewrite Hs.
  cbn [awaiting microtasks promises clearTimer with_timers with_pendingRequests].
  rewrite Ha, Hm. reflexivity.
Qed.

(** [connect()] on a session that has to start the subprocess: once the
    poll finds the process id, [initialize] is sent as the next request,
    alone on the input of the subprocess; when the answer carries no error
    the [initialized] notification follows, the promise of [connect] is
    fulfilled and the session is ready, so that the next [connect] has
    nothing to wait for. *)
Theorem handshake_completes
    (cfg0 : MiniMaxMcpConfig) (ls : list Label) (processId : Z)
    (response : JsonRpcResponse) (spawn : SpawnOutcome) :
  let s := run parse ls (init cfg0) in
  initialized s = false -> initPromise s = None -> microtasks s = [] ->
  processId <> 0 ->
  let f := fresh s in
  let h := length (children s) in
  let n := requestId s + 1 in
  id response = IdNum n -> error response = None ->
  let request :=
    stringify (requestObject n (str "initialize") initializeParams) ++ [LF] in
  let notification :=
    stringify (notificationObject (str "notifications/initialized") (JObj []))
    ++ [LF] in
  let s1 := run parse [CallConnect (mkSpawn (Some processId) true None);
                       OnTimer (StartupInterval (S f)); Microtask] s in
  let s2 := run parse [Microtask] (handleMessage response s1) in
  child h s1 = Some (mkChild (spawnEnv cfg0) (Some processId) true None false [request])
  /\ promiseState (CallP f) s1 = Some Pending
  /\ initialized s2 = true
  /\ promiseState (CallP f) s2 = Some (Fulfilled VUndefined)
  /\ child h s2
     = Some (mkChild (spawnEnv cfg0) (Some processId) true None false
               [request; notification])
  /\ requestId s2 = n
  /\ mapGet n (pendingRequests s2) = None
  /\ armed (RequestTimer n) s2 = false
  /\ armed (StartupTimer (S f)) s2 = false
  /\ armed (StartupInterval (S f)) s2 = false
  /\ connect spawn s2 = (s2, Ready).
Proof.
  intros s Hi Hp Hm Hpid f h n Hid Herr request notification s1 s2.
  destruct (@handshake_request cfg0 ls processId Hi Hp Hm Hpid)
    as (Ch & Pr & Rq & Pd & Pn & Pf & Aw & Mt & In & Ip & T1 & T2).
  fold s f h n request s1 in Ch, Pr, Rq, Pd, Pn, Pf, Aw, Mt, In, Ip, T1, T2.
  pose proof (@response_wakes s1 n (InitializeResponded f) response
                Hid Pd Pn Aw Mt) as Ed.
  set (sd := handleMessage response s1) in *.
  set (sd' := with_microtasks [] sd).
  assert (Chd : child h sd' = child h s1) by (unfold sd'; rewrite Ed; reflexivity).
  assert (Es : sendNotification (str "notifications/initialized") (JObj []) sd'
               = inr (with_children
                        (updateAt h
                           (fun c => mkChild (env c) (pid c) (stdin c) (writeError c)
                                       (killed c) (written c ++ [notification]))
                           (children sd')) sd')).
  { unfold sendNotification, processStdin.
    replace (process sd') with (Some h) by (unfold sd'; rewrite Ed; now rewrite <- Pr).
    rewrite Chd, Ch. cbn [stdin]. unfold write. rewrite Chd, Ch. reflexivity. }
  assert (E2 : s2 = settle (CallP f) (Fulfilled VUndefined)
                      (with_initialized true
                         (with_children
                            (updateAt h
                               (fun c => mkChild (env c) (pid c) (stdin c)
                                           (writeError c) (killed c)
                                           (written c ++ [notification]))
                               (children sd')) sd'))).
  { unfold s2, run. cbn [fold_left step]. rewrite Ed at 1.
    cbn [microtasks with_microtasks]. fold sd'. cbn [resume].
    rewrite Herr, Es. reflexivity. }
  match type of E2 with _ = settle ?q ?o ?x =>
    destruct (settle_frame q o x) as (_&_&Fr&Fp&_&Fi&_&Fc&Ft&_);
    pose proof (settle_state q o x q) as Fs
  end.
  rewrite ref_eqb_refl in Fs. rewrite <- E2 in Fr, Fp, Fi, Fc, Ft, Fs.
  assert (Pd' : promiseState (CallP f) sd' = Some Pending).
  { unfold sd', promiseState. rewrite Ed.
    cbn [promises with_microtasks with_awaiting with_promises].
    rewrite stateIn_setState. cbn [ref_eqb]. exact Pf. }
  split_all.
  - exact Ch.
  - exact Pf.
  - rewrite Fi. reflexivity.
  - rewrite Fs.
    change (promiseState (CallP f) (with_initialized true (with_children _ sd')))
      with (promiseState (CallP f) sd').
    now rewrite Pd'.
  - unfold child. rewrite Fc. cbn [children with_initialized with_children].
    rewrite nth_error_updateAt. fold (child h sd'). rewrite Chd, Ch. reflexivity.
  - rewrite Fr. unfold sd'. rewrite Ed. exact Rq.
  - rewrite Fp. unfold sd'. rewrite Ed.
    cbn [pendingRequests with_initialized with_children with_microtasks
         with_awaiting with_promises clearTimer with_timers with_pendingRequests].
    now rewrite mapGet_mapDelete, Z.eqb_refl.
  - unfold armed. rewrite Ft. unfold sd'. rewrite Ed.
    apply (armed_clearTimer (RequestTimer n)).
  - unfold armed. rewrite Ft. unfold sd'. rewrite Ed.
    cbn [timers with_initialized with_children with_microtasks with_awaiting
         with_promises clearTimer with_timers with_pendingRequests].
    apply not_true_is_false. intros H. apply existsb_exists in H.
    destruct H as (t & Ht & Et). apply timer_eqb_eq in Et. subst t.
    apply filter_In in Ht. destruct Ht as [Ht _].
    apply armed_In in Ht. congruence.
  - unfold armed. rewrite Ft. unfold sd'. rewrite Ed.
    cbn [timers with_initialized with_children with_microtasks with_awaiting
         with_promises clearTimer with_timers with_pendingRequests].
    apply not_true_is_false. intros H. apply existsb_exists in H.
    destruct H as (t & Ht & Et). apply timer_eqb_eq in Et. subst t.
    apply filter_In in Ht. destruct Ht as [Ht _].
    apply armed_In in Ht. congruence.
  - unfold connect. now rewrite Fi.
Qed.

(** When the answer to [initialize] carries an error, [connect] is
    rejected with it and no notification is sent; the subprocess is left
    running and [initPromise] keeps the rejected promise, which every
    later [connect] returns. *)
Theorem handshake_refused
    (cfg0 : MiniMaxMcpConfig) (ls : list Label) (processId : Z)
    (response : JsonRpcResponse) (e : RpcError) (spawn : SpawnOutcome) :
  let s := run parse ls (init cfg0) in
  initialized s = false -> initPromise s = None -> microtasks s = [] ->
  processId <> 0 ->
  let f := fresh s in
  let h := length (children s) in
  let n := requestId s + 1 in
  id response = IdNum n -> error response = Some e ->
  let request :=
    stringify (requestObject n (str "initialize") initializeParams) ++ [LF] in
  let s1 := run parse [CallConnect (mkSpawn (Some processId) true None);
                       OnTimer (StartupInterval (S f)); Microtask] s in
  let s2 := run parse [Microtask] (handleMessage response s1) in
  promiseState (CallP f) s2 = Some (Rejected (initializeFailed e))
  /\ initialized s2 = false
  /\ initPromise s2 = Some (CallP f)
  /\ process s2 = Some h
  /\ child h s2
     = Some (mkChild (spawnEnv cfg0) (Some processId) true None false [request])
  /\ connect spawn s2 = (s2, InFlight (CallP f)).
Proof.
  intros s Hi Hp Hm Hpid f h n Hid Herr request s1 s2.
  destruct (@handshake_request cfg0 ls processId Hi Hp Hm Hpid)
    as (Ch & Pr & Rq & Pd & Pn & Pf & Aw & Mt & In & Ip & T1 & T2).
  fold s f h n request s1 in Ch, Pr, Rq, Pd, Pn, Pf, Aw, Mt, In, Ip, T1, T2.
  pose proof (@response_wakes s1 n (InitializeResponded f) response
                Hid Pd Pn Aw Mt) as Ed.
  set (sd := handleMessage response s1) in *.
  set (sd' := with_microtasks [] sd).
  assert (E2 : s2 = settle (CallP f) (Rejected (initializeFailed e)) sd').
  { unfold s2, run. cbn [fold_left step]. rewrite Ed at 1.
    cbn [microtasks with_microtasks]. fold sd'. cbn [resume].
    now rewrite Herr. }
  match type of E2 with _ = settle ?q ?o ?x =>
    destruct (settle_frame q o x) as (_&Fpr&_&_&_&Fi&Fip&Fc&_);
    pose proof (settle_state q o x q) as Fs
  end.
  rewrite ref_eqb_refl in Fs. rewrite <- E2 in Fpr, Fi, Fip, Fc, Fs.
  assert (Pd' : promiseState (CallP f) sd' = Some Pending).
  { unfold sd', promiseState. rewrite Ed.
    cbn [promises with_microtasks with_awaiting with_promises].
    rewrite stateIn_setState. cbn [ref_eqb]. exact Pf. }
  assert (I2 : initialized s2 = false)
    by (rewrite Fi; unfold sd'; rewrite Ed; exact In).
  assert (P2 : initPromise s2 = Some (CallP f))
    by (rewrite Fip; unfold sd'; rewrite Ed; exact Ip).
  split_all.
  - now rewrite Fs, Pd'.
  - exact I2.
  - exact P2.
  - rewrite Fpr. unfold sd'. rewrite Ed. exact Pr.
  - unfold child. rewrite Fc. unfold sd'. rewrite Ed. exact Ch.
  - unfold connect. now rewrite I2, P2.
Qed.

End Handshake.
(** *** Instances *)

Lemma handshake_completes_witness :
  let s := run parseLine [] (init cfg) in
  let f := fresh s in
  let h := length (children s) in
  let n := requestId s + 1 in
  let request :=
    stringify (requestObject n (str "initialize") initializeParams) ++ [LF] in
  let notification :=
    stringify (notificationObject (str "notifications/initialized") (JObj []))
    ++ [LF] in
  let s1 := run parseLine [CallConnect (mkSpawn (Some 4242) true None);
                           OnTimer (StartupInterval (S f)); Microtask] s in
  let s2 := run parseLine [Microtask] (handleMessage initOk s1) in
  child h s1 = Some (mkChild (spawnEnv cfg) (Some 4242) true None false [request])
  /\ promiseState (CallP f) s1 = Some Pending
  /\ initialized s2 = true
  /\ promiseState (CallP f) s2 = Some (Fulfilled VUndefined)
  /\ child h s2
     = Some (mkChild (spawnEnv cfg) (Some 4242) true None false
               [request; notification])
  /\ requestId s2 = n
  /\ mapGet n (pendingRequests s2) = None
  /\ armed (RequestTimer n) s2 = false
  /\ armed (StartupTimer (S f)) s2 = false
  /\ armed (StartupInterval (S f)) s2 = false
  /\ connect neverStarts s2 = (s2, Ready).
Proof.
  apply (@handshake_completes parseLine cfg [] 4242 initOk neverStarts);
    try reflexivity.
  discriminate.
Defined.

Lemma handshake_refused_witness :
  let s := run parseLine [] (init cfg) in
  let f := fresh s in
  let h := length (children s) in
  let n := requestId s + 1 in
  let request :=
    stringify (requestObject n (str "initialize") initializeParams) ++ [LF] in
  let s1 := run parseLine [CallConnect (mkSpawn (Some 4242) true None);
                           OnTimer (StartupInterval (S f)); Microtask] s in
  let s2 := run parseLine [Microtask] (handleMessage initError s1) in
  promiseState (CallP f) s2
  = Some (Rejected (initializeFailed (mkRpcError (-32600) (str "boom") None)))
  /\ initialized s2 = false
  /\ initPromise s2 = Some (CallP f)
  /\ process s2 = Some h
  /\ child h s2
     = Some (mkChild (spawnEnv cfg) (Some 4242) true None false [request])
  /\ connect spawned s2 = (s2, InFlight (CallP f)).
Proof.
  apply (@handshake_refused parseLine cfg [] 4242 initError
           (mkRpcError (-32600) (str "boom") None) spawned);
    try reflexivity.
  discriminate.
Defined.

End HandshakeFacts.

(* ===================================================================== *)
(** ** Properties of a tool call, from the first call on *)
(* ===================================================================== *)

Module ToolCallFacts.
Import Js Json Client Examples UtilsFacts ClientFacts CallFacts TransportFacts FailureFacts HandshakeFacts MoreExamples.
Local Open Scope Z_scope.

Lemma fresh_request_above s n :
  wf s -> requestId s < n -> promiseState (RequestP n) s = None.
Proof.
  intros [Hc Hi _ _] Hn. unfold promiseState.
  destruct (stateIn _ _) eqn:E; [|reflexivity].
  assert (H : In n (requestIds (promises s)))
    by (apply requestIds_In; congruence).
  fold (issued s) in H. rewrite Hi in H. apply upto_In in H; lia.
Qed.

Lemma fresh_call_above s k :
  named s -> (fresh s <= k)%nat -> promiseState (CallP k) s = None.
Proof.
  intros N Hk. destruct (promiseState (CallP k) s) as [st|] eqn:E;
    [|reflexivity].
  pose proof (@named_fresh s N _ _ E) as L. simpl in L. lia.
Qed.

Lemma updateAt_length {A} (f : A -> A) l i : length (updateAt i f l) = length l.
Proof.
  revert i. induction l as [|x l IH]; intros [|i]; cbn [updateAt length]; auto.
Qed.

Section ColdCalls.

Variable parse : jsstring -> option JsonRpcResponse.

(** The session [callTool] leaves behind when [connect] has to start a
    subprocess: the promise of the call, then what [connect] adds, then the
    call waiting for the promise of [connect]. *)
Lemma callTool_starts name args spawn s :
  named s -> initialized s = false -> initPromise s = None ->
  let f := fresh s in
  let g := S f in
  let k := S g in
  callTool name args spawn s
  = (with_awaiting
       ((awaiting s ++ [(StartupP k, DoConnectStarted g)])
        ++ [(CallP g, CallToolConnected name args f)])
       (with_initPromise (Some (CallP g))
          (with_awaiting (awaiting s ++ [(StartupP k, DoConnectStarted g)])
             (setTimer (StartupInterval k)
                (setTimer (StartupTimer k)
                   (newPromise (StartupP k)
                      (newPromise (CallP g)
                         (with_process (Some (length (children s)))
                            (with_children
                               (children s
                                ++ [mkChild (spawnEnv (config s)) (s_pid spawn)
                                      (s_stdin spawn) (s_writeError spawn)
                                      false []])
                               (newPromise (CallP f) s))))))))),
     CallP f).
Proof.
  intros N Hi Hp f g k. unfold callTool. cbv zeta. fold f.
  set (t := newPromise (CallP f) s).
  assert (Nt : named t) by (apply named_newPromise; [reflexivity | exact N]).
  assert (Ft : fresh t = g).
  { unfold t, fresh, newPromise. cbn [promises with_promises].
    rewrite length_app. cbn [length]. unfold g, f, fresh. lia. }
  pose proof (@connect_starts spawn t Nt Hi Hp) as E. cbv zeta in E.
  rewrite Ft in E. fold k in E. rewrite E.
  rewrite await_pending; [reflexivity|].
  unfold promiseState, setTimer, newPromise.
  cbn [promises with_initPromise with_awaiting with_timers with_promises
       with_process with_children].
  rewrite !stateIn_app.
  pose proof (@fresh_call_above t g Nt ltac:(lia)) as F.
  unfold promiseState in F. rewrite F. now rewrite ref_eqb_refl.
Qed.

(** [callTool] on a session that has to start the subprocess, up to the
    request [initialize]. *)
Lemma cold_call_request (cfg0 : MiniMaxMcpConfig) (ls : list Label)
    (name : jsstring) (args : json) (processId : Z) :
  let s := run parse ls (init cfg0) in
  initialized s = false -> initPromise s = None -> microtasks s = [] ->
  processId <> 0 ->
  let f := fresh s in
  let g := S f in
  let k := S g in
  let h := length (children s) in
  let n := requestId s + 1 in
  let line := stringify (requestObject n (str "initialize") initializeParams) ++ [LF] in
  let s1 := run parse [CallTool name args (mkSpawn (Some processId) true None);
                       OnTimer (StartupInterval k); Microtask] s in
  child h s1 = Some (mkChild (spawnEnv cfg0) (Some processId) true None false [line])
  /\ length (children s1) = S h
  /\ process s1 = Some h
  /\ requestId s1 = n
  /\ mapGet n (pendingRequests s1) = Some (recordOf n)
  /\ promiseState (RequestP n) s1 = Some Pending
  /\ promiseState (CallP g) s1 = Some Pending
  /\ promiseState (CallP f) s1 = Some Pending
  /\ awaiting s1
     = (awaiting s ++ [(CallP g, CallToolConnected name args f)])
       ++ [(RequestP n, InitializeResponded g)]
  /\ microtasks s1 = []
  /\ initialized s1 = false
  /\ buffer s1 = buffer s.
Proof.
  intros s Hi Hp Hm Hpid f g k h n line s1.
  assert (N : named s) by apply named_run, named_init_session.
  pose proof (reachable_wf parse cfg0 ls) as W. fold s in W.
  pose proof (reachable_config parse cfg0 ls) as Hc. fold s in Hc.
  pose proof (@callTool_starts name args (mkSpawn (Some processId) true None) s
                N Hi Hp) as E.
  cbv zeta in E. fold f g k h in E. cbn [s_pid s_stdin s_writeError] in E.
  rewrite Hc in E.
  set (c0 := mkChild (spawnEnv cfg0) (Some processId) true None false []) in *.
  set (K := CallToolConnected name args f) in *.
  assert (Ff : promiseState (CallP f) s = None) by apply (fresh_call N).
  assert (Fg : promiseState (CallP g) s = None)
    by (apply fresh_call_above; [exact N | unfold g, f; lia]).
  assert (Fk : promiseState (StartupP k) s = None)
    by (apply fresh_startup; [exact N | unfold k, g, f; lia]).
  assert (Fn : promiseState (RequestP n) s = None) by apply (fresh_request W).
  assert (Hw : filter (fun a => ref_eqb (StartupP k) (fst a)) (awaiting s) = [])
    by now apply filter_awaiting_fresh.
  assert (Ha : filter (fun a => negb (ref_eqb (StartupP k) (fst a))) (awaiting s)
               = awaiting s) by now apply filter_asleep_fresh.
  unfold promiseState in Ff, Fg, Fk, Fn.
  (* callTool *)
  set (sa := fst (callTool name args (mkSpawn (Some processId) true None) s)).
  assert (Ea : sa = fst (callTool name args (mkSpawn (Some processId) true None) s))
    by reflexivity.
  rewrite E in Ea. cbn [fst] in Ea.
  (* the poll finds the process id *)
  set (sb := fire (StartupInterval k) sa).
  assert (Child : nth_error (children s ++ [c0]) h = Some c0).
  { unfold h. rewrite nth_error_app2 by lia. now rewrite Nat.sub_diag. }
  assert (Eb : sb = settle (StartupP k) (Fulfilled VUndefined)
                      (clearTimer (StartupInterval k)
                         (clearTimer (StartupTimer k) sa))).
  { unfold sb, fire.
    replace (armed (StartupInterval k) sa) with true.
    2: { rewrite Ea. unfold armed, setTimer.
         cbn [timers with_initPromise with_awaiting with_timers].
         rewrite !existsb_app. cbn [existsb timer_eqb]. rewrite Nat.eqb_refl.
         now rewrite ?orb_true_r. }
    replace (process sa) with (Some h) by (rewrite Ea; reflexivity).
    replace (child h sa) with (Some c0).
    2: { rewrite Ea. unfold child.
         cbn [children with_initPromise with_awaiting setTimer with_timers
              newPromise with_promises with_process with_children].
         now rewrite Child. }
    unfold c0. cbn [pid]. rewrite (proj2 (Z.eqb_neq processId 0) Hpid). reflexivity. }
  assert (Pk : promiseState (StartupP k)
                 (clearTimer (StartupInterval k) (clearTimer (StartupTimer k) sa))
               = Some Pending).
  { rewrite Ea. unfold promiseState, clearTimer, setTimer, newPromise.
    cbn [promises with_initPromise with_awaiting with_timers with_promises
         with_process with_children].
    rewrite !stateIn_app, Fk. cbn [ref_eqb]. now rewrite Nat.eqb_refl. }
  assert (Eb2 : sb = with_microtasks [(DoConnectStarted g, Fulfilled VUndefined)]
                       (with_awaiting (awaiting s ++ [(CallP g, K)])
                          (with_promises
                             (setState (StartupP k) (Fulfilled VUndefined)
                                (((promises s ++ [(CallP f, Pending)])
                                  ++ [(CallP g, Pending)])
                                 ++ [(StartupP k, Pending)]))
                             (clearTimer (StartupInterval k)
                                (clearTimer (StartupTimer k) sa))))).
  { rewrite Eb. unfold settle. rewrite Pk. cbv zeta. rewrite Ea.
    cbn [awaiting microtasks promises clearTimer with_timers with_initPromise
         with_awaiting setTimer newPromise with_promises with_process
         with_children].
    rewrite !filter_app, Hw, Ha, Hm. cbn [filter fst ref_eqb negb app map snd K].
    rewrite Nat.eqb_refl. cbn [negb app map snd]. rewrite app_nil_r.
    reflexivity. }
  (* the request *)
  set (sb' := with_microtasks [] sb).
  assert (Eproc : process sb' = Some h) by (unfold sb'; rewrite Eb2, Ea; reflexivity).
  assert (Echild : child h sb' = Some c0).
  { unfold sb', child. rewrite Eb2, Ea.
    cbn [children with_microtasks with_awaiting with_promises clearTimer
         with_timers with_initPromise setTimer newPromise with_process
         with_children].
    exact Child. }
  assert (Ereq : requestId sb' = requestId s)
    by (unfold sb'; rewrite Eb2, Ea; reflexivity).
  pose proof (@sendRequest_written (str "initialize") initializeParams sb' h c0
                Eproc Echild eq_refl eq_refl) as Es.
  cbv zeta in Es. rewrite Ereq in Es. fold n in Es. fold line in Es.
  set (sc := with_children
               (updateAt h
                  (fun c => mkChild (env c) (pid c) (stdin c) (writeError c)
                              (killed c) (written c ++ [line]))
                  (children sb'))
               (with_pendingRequests (mapSet n (recordOf n) (pendingRequests sb'))
                  (setTimer (RequestTimer n)
                     (newPromise (RequestP n) (with_requestId n sb'))))) in *.
  assert (Pn : promiseState (RequestP n) sc = Some Pending).
  { unfold sc, sb', promiseState, newPromise. rewrite Eb2.
    cbn [promises with_children with_pendingRequests setTimer with_timers
         with_promises with_requestId with_microtasks with_awaiting].
    rewrite stateIn_app, stateIn_setState. cbn [ref_eqb].
    rewrite !stateIn_app, Fn. cbn [ref_eqb]. now rewrite Z.eqb_refl. }
  assert (E1 : s1 = with_awaiting
                      ((awaiting s ++ [(CallP g, K)])
                       ++ [(RequestP n, InitializeResponded g)]) sc).
  { unfold s1, run. cbn [fold_left].
    change (step parse (CallTool name args (mkSpawn (Some processId) true None)) s)
      with sa.
    change (step parse (OnTimer (StartupInterval k)) sa) with sb.
    cbn [step]. rewrite Eb2 at 1. cbn [microtasks with_microtasks].
    fold sb'. cbn [resume]. rewrite Es.
    rewrite await_pending by exact Pn.
    replace (awaiting sc) with (awaiting s ++ [(CallP g, K)]); [reflexivity|].
    unfold sc, sb'. rewrite Eb2. reflexivity. }
  assert (Kids : children sb' = children s ++ [c0])
    by (unfold sb'; rewrite Eb2, Ea; reflexivity).
  split_all.
  - rewrite E1. unfold child, sc.
    cbn [children with_awaiting with_children].
    rewrite Kids, nth_error_updateAt, Child. reflexivity.
  - rewrite E1. unfold sc. cbn [children with_awaiting with_children].
    rewrite updateAt_length, Kids, length_app. cbn [length]. unfold h. lia.
  - rewrite E1. exact Eproc.
  - rewrite E1. reflexivity.
  - rewrite E1. unfold sc. cbn [pendingRequests with_awaiting with_children
      with_pendingRequests]. now rewrite mapGet_mapSet, Z.eqb_refl.
  - rewrite E1. exact Pn.
  - rewrite E1. unfold sc, sb', promiseState, newPromise. rewrite Eb2.
    cbn [promises with_children with_pendingRequests setTimer with_timers
         with_promises with_requestId with_microtasks with_awaiting].
    rewrite stateIn_app, stateIn_setState. cbn [ref_eqb].
    rewrite !stateIn_app, Fg. cbn [ref_eqb]. rewrite Nat.eqb_refl.
    now rewrite (proj2 (Nat.eqb_neq g f)) by (unfold g; lia).
  - rewrite E1. unfold sc, sb', promiseState, newPromise. rewrite Eb2.
    cbn [promises with_children with_pendingRequests setTimer with_timers
         with_promises with_requestId with_microtasks with_awaiting].
    rewrite stateIn_app, stateIn_setState. cbn [ref_eqb].
    rewrite !stateIn_app, Ff. cbn [ref_eqb]. now rewrite Nat.eqb_refl.
  - rewrite E1. reflexivity.
  - rewrite E1. unfold sc, sb'. reflexivity.
  - rewrite E1. unfold sc, sb'. rewrite Eb2, Ea. exact Hi.
  - rewrite E1. unfold sc, sb'. rewrite Eb2, Ea. reflexivity.
Qed.

Lemma filter_none_asleep {A} (p : A -> bool) l :
  filter p l = [] -> filter (fun a => negb (p a)) l = l.
Proof.
  induction l as [|x l IH]; cbn [filter]; [reflexivity|].
  destruct (p x); [discriminate|]. intros H. cbn [negb]. now rewrite IH.
Qed.

(** The handshake ends well while a call is waiting for it: the
    notification is sent, the session is ready, and the call goes on to
    send its request. *)
Lemma cold_call_sent s1 (aw : list (PromiseRef * Cont))
    (name : jsstring) (args : json) (f g : nat) (n : Z) (h : nat)
    (c : ChildProcess) (answer : JsonRpcResponse) :
  wf s1 -> f <> g -> requestId s1 = n ->
  id answer = IdNum n -> error answer = None ->
  mapGet n (pendingRequests s1) = Some (recordOf n) ->
  promiseState (RequestP n) s1 = Some Pending ->
  promiseState (CallP g) s1 = Some Pending ->
  promiseState (CallP f) s1 = Some Pending ->
  awaiting s1
  = (aw ++ [(CallP g, CallToolConnected name args f)])
    ++ [(RequestP n, InitializeResponded g)] ->
  filter (fun a => ref_eqb (RequestP n) (fst a)) aw = [] ->
  filter (fun a => ref_eqb (CallP g) (fst a)) aw = [] ->
  filter (fun a => ref_eqb (RequestP (n + 1)) (fst a)) aw = [] ->
  microtasks s1 = [] ->
  process s1 = Some h -> child h s1 = Some c ->
  stdin c = true -> writeError c = None ->
  let notification :=
    stringify (notificationObject (str "notifications/initialized") (JObj []))
    ++ [LF] in
  let callLine :=
    stringify (requestObject (n + 1) (str "tools/call")
                 (JObj [(str "name", JStr name); (str "arguments", args)]))
    ++ [LF] in
  let s2 := run parse [Microtask; Microtask] (handleMessage answer s1) in
  child h s2
  = Some (mkChild (env c) (pid c) (stdin c) (writeError c) (killed c)
            ((written c ++ [notification]) ++ [callLine]))
  /\ length (children s2) = length (children s1)
  /\ initialized s2 = true
  /\ requestId s2 = n + 1
  /\ mapGet (n + 1) (pendingRequests s2) = Some (recordOf (n + 1))
  /\ promiseState (RequestP (n + 1)) s2 = Some Pending
  /\ promiseState (CallP f) s2 = Some Pending
  /\ promiseState (CallP g) s2 = Some (Fulfilled VUndefined)
  /\ filter (fun a => ref_eqb (RequestP (n + 1)) (fst a)) (awaiting s2)
     = [(RequestP (n + 1), CallToolResponded f)]
  /\ microtasks s2 = []
  /\ buffer s2 = buffer s1.
Proof.
  intros W Hfg Rq Hid Herr Pd Pn Pg Pf Aw Hn Hg Hn1 Mt Pr Ch Hin Hwe
         notification callLine s2.
  set (K := CallToolConnected name args f) in *.
  assert (Aw1 : filter (fun a => ref_eqb (RequestP n) (fst a)) (awaiting s1)
                = [(RequestP n, InitializeResponded g)]).
  { rewrite Aw, !filter_app, Hn. cbn [filter fst ref_eqb app].
    now rewrite Z.eqb_refl. }
  assert (Aw2 : filter (fun a => negb (ref_eqb (RequestP n) (fst a))) (awaiting s1)
                = aw ++ [(CallP g, K)]).
  { rewrite Aw, !filter_app, (filter_none_asleep _ _ Hn).
    cbn [filter fst ref_eqb negb app]. rewrite Z.eqb_refl. cbn [negb].
    now rewrite app_nil_r. }
  pose proof (@response_wakes s1 n (InitializeResponded g) answer
                Hid Pd Pn Aw1 Mt) as Ed.
  rewrite Aw2 in Ed.
  set (sd := handleMessage answer s1) in *.
  set (sd' := with_microtasks [] sd).
  assert (Chd : child h sd' = Some c) by (unfold sd'; rewrite Ed; exact Ch).
  assert (Prd : process sd' = Some h) by (unfold sd'; rewrite Ed; exact Pr).
  assert (Es : sendNotification (str "notifications/initialized") (JObj []) sd'
               = inr (with_children
                        (updateAt h
                           (fun c => mkChild (env c) (pid c) (stdin c) (writeError c)
                                       (killed c) (written c ++ [notification]))
                           (children sd')) sd')).
  { unfold sendNotification, processStdin.
    rewrite Prd, Chd, Hin. unfold write. rewrite Chd, Hwe. reflexivity. }
  set (y := with_initialized true
              (with_children
                 (updateAt h
                    (fun c => mkChild (env c) (pid c) (stdin c) (writeError c)
                                (killed c) (written c ++ [notification]))
                    (children sd')) sd')) in *.
  assert (Py : promises y
               = setState (RequestP n) (Fulfilled (VResponse answer)) (promises s1))
    by (unfold y, sd'; rewrite Ed; reflexivity).
  assert (Pgy : promiseState (CallP g) y = Some Pending).
  { unfold promiseState. rewrite Py, stateIn_setState. cbn [ref_eqb]. exact Pg. }
  set (se := settle (CallP g) (Fulfilled VUndefined) y).
  assert (Ee : se = with_microtasks [(K, Fulfilled VUndefined)]
                      (with_awaiting aw
                         (with_promises
                            (setState (CallP g) (Fulfilled VUndefined) (promises y))
                            y))).
  { unfold se, settle. rewrite Pgy. cbv zeta.
    replace (awaiting y) with (aw ++ [(CallP g, K)])
      by (unfold y, sd'; rewrite Ed; reflexivity).
    replace (microtasks y) with (@nil (Cont * PromiseState))
      by (unfold y, sd'; reflexivity).
    rewrite !filter_app, Hg, (filter_none_asleep _ _ Hg).
    cbn [filter fst ref_eqb negb app map snd K]. rewrite Nat.eqb_refl.
    cbn [negb app map snd]. now rewrite app_nil_r. }
  set (se' := with_microtasks [] se).
  assert (Kids : children se' = updateAt h
                    (fun c => mkChild (env c) (pid c) (stdin c) (writeError c)
                                (killed c) (written c ++ [notification]))
                    (children s1)).
  { unfold se'. rewrite Ee. unfold y, sd'. rewrite Ed. reflexivity. }
  set (c' := mkChild (env c) (pid c) (stdin c) (writeError c) (killed c)
               (written c ++ [notification])).
  assert (Che : child h se' = Some c').
  { unfold child. rewrite Kids, nth_error_updateAt. unfold child in Ch.
    now rewrite Ch. }
  assert (Pre : process se' = Some h)
    by (unfold se'; rewrite Ee; unfold y; exact Prd).
  assert (Rqe : requestId se' = n).
  { unfold se'. rewrite Ee. unfold y, sd'. rewrite Ed. exact Rq. }
  pose proof (@sendRequest_written (str "tools/call")
                (JObj [(str "name", JStr name); (str "arguments", args)])
                se' h c' Pre Che Hin Hwe) as Es2.
  cbv zeta in Es2. rewrite Rqe in Es2. fold callLine in Es2.
  set (sf := with_children
               (updateAt h
                  (fun c => mkChild (env c) (pid c) (stdin c) (writeError c)
                              (killed c) (written c ++ [callLine]))
                  (children se'))
               (with_pendingRequests
                  (mapSet (n + 1) (recordOf (n + 1)) (pendingRequests se'))
                  (setTimer (RequestTimer (n + 1))
                     (newPromise (RequestP (n + 1))
                        (with_requestId (n + 1) se'))))) in *.
  assert (Pse : promises se'
                = setState (CallP g) (Fulfilled VUndefined)
                    (setState (RequestP n) (Fulfilled (VResponse answer))
                       (promises s1))).
  { unfold se'. rewrite Ee. cbn [promises with_microtasks with_awaiting
      with_promises]. now rewrite Py. }
  assert (Fn1 : stateIn (RequestP (n + 1)) (promises se') = None).
  { rewrite Pse, !stateIn_setState. cbn [ref_eqb].
    rewrite (proj2 (Z.eqb_neq (n + 1) n)) by lia.
    pose proof (fresh_request W) as F. rewrite Rq in F. exact F. }
  assert (Pn1 : promiseState (RequestP (n + 1)) sf = Some Pending).
  { unfold sf, promiseState, newPromise.
    cbn [promises with_children with_pendingRequests setTimer with_timers
         with_promises with_requestId].
    rewrite stateIn_app, Fn1. now rewrite ref_eqb_refl. }
  assert (E2 : s2 = with_awaiting (aw ++ [(RequestP (n + 1), CallToolResponded f)]) sf).
  { assert (S1 : step parse Microtask sd = se).
    { cbn [step]. rewrite Ed at 1. cbn [microtasks with_microtasks].
      fold sd'. cbn [resume]. now rewrite Herr, Es. }
    assert (S2 : step parse Microtask se
                 = await (RequestP (n + 1)) (CallToolResponded f) sf).
    { cbn [step]. rewrite Ee at 1. cbn [microtasks with_microtasks].
      fold se'. unfold K. cbn [resume]. now rewrite Es2. }
    unfold s2, run. cbn [fold_left]. fold sd. rewrite S1, S2.
    rewrite await_pending by exact Pn1.
    replace (awaiting sf) with aw; [reflexivity|].
    unfold sf, se'. rewrite Ee. reflexivity. }
  split_all.
  - rewrite E2. unfold child, sf. cbn [children with_awaiting with_children].
    rewrite nth_error_updateAt. fold (child h se'). rewrite Che. reflexivity.
  - rewrite E2. unfold sf. cbn [children with_awaiting with_children].
    now rewrite updateAt_length, Kids, updateAt_length.
  - rewrite E2. unfold sf, se'. rewrite Ee. reflexivity.
  - rewrite E2. reflexivity.
  - rewrite E2. unfold sf. cbn [pendingRequests with_awaiting with_children
      with_pendingRequests]. now rewrite mapGet_mapSet, Z.eqb_refl.
  - rewrite E2. exact Pn1.
  - rewrite E2. unfold sf, promiseState, newPromise.
    cbn [promises with_awaiting with_children with_pendingRequests setTimer
         with_timers with_promises with_requestId].
    rewrite stateIn_app, Pse, !stateIn_setState. cbn [ref_eqb].
    rewrite (proj2 (Nat.eqb_neq f g)) by exact Hfg.
    unfold promiseState in Pf. now rewrite Pf.
  - rewrite E2. unfold sf, promiseState, newPromise.
    cbn [promises with_awaiting with_children with_pendingRequests setTimer
         with_timers with_promises with_requestId].
    rewrite stateIn_app, Pse, !stateIn_setState. rewrite ref_eqb_refl.
    cbn [ref_eqb]. unfold promiseState in Pg. now rewrite Pg.
  - rewrite E2. cbn [awaiting with_awaiting]. rewrite filter_app, Hn1.
    cbn [filter fst ref_eqb app]. now rewrite Z.eqb_refl.
  - rewrite E2. unfold sf, se'. reflexivity.
  - rewrite E2. unfold sf, se'. rewrite Ee. unfold y, sd'. rewrite Ed.
    reflexivity.
Qed.

(** The handshake is refused while a call is waiting for it: the call is
    rejected with the error of [connect], and nothing more is sent. *)
Lemma cold_call_refused s1 (aw : list (PromiseRef * Cont))
    (name : jsstring) (args : json) (f g : nat) (n : Z)
    (answer : JsonRpcResponse) (e : RpcError) :
  f <> g ->
  id answer = IdNum n -> error answer = Some e ->
  mapGet n (pendingRequests s1) = Some (recordOf n) ->
  promiseState (RequestP n) s1 = Some Pending ->
  promiseState (CallP g) s1 = Some Pending ->
  promiseState (CallP f) s1 = Some Pending ->
  awaiting s1
  = (aw ++ [(CallP g, CallToolConnected name args f)])
    ++ [(RequestP n, InitializeResponded g)] ->
  filter (fun a => ref_eqb (RequestP n) (fst a)) aw = [] ->
  filter (fun a => ref_eqb (CallP g) (fst a)) aw = [] ->
  microtasks s1 = [] ->
  let s2 := run parse [Microtask; Microtask] (handleMessage answer s1) in
  promiseState (CallP f) s2 = Some (Rejected (initializeFailed e))
  /\ promiseState (CallP g) s2 = Some (Rejected (initializeFailed e))
  /\ children s2 = children s1
  /\ requestId s2 = requestId s1
  /\ initialized s2 = initialized s1.
Proof.
  intros Hfg Hid Herr Pd Pn Pg Pf Aw Hn Hg Mt s2.
  set (K := CallToolConnected name args f) in *.
  assert (Aw1 : filter (fun a => ref_eqb (RequestP n) (fst a)) (awaiting s1)
                = [(RequestP n, InitializeResponded g)]).
  { rewrite Aw, !filter_app, Hn. cbn [filter fst ref_eqb app].
    now rewrite Z.eqb_refl. }
  assert (Aw2 : filter (fun a => negb (ref_eqb (RequestP n) (fst a))) (awaiting s1)
                = aw ++ [(CallP g, K)]).
  { rewrite Aw, !filter_app, (filter_none_asleep _ _ Hn).
    cbn [filter fst ref_eqb negb app]. rewrite Z.eqb_refl. cbn [negb].
    now rewrite app_nil_r. }
  pose proof (@response_wakes s1 n (InitializeResponded g) answer
                Hid Pd Pn Aw1 Mt) as Ed.
  rewrite Aw2 in Ed.
  set (sd := handleMessage answer s1) in *.
  set (sd' := with_microtasks [] sd).
  assert (Pgd : promiseState (CallP g) sd' = Some Pending).
  { unfold sd', promiseState. rewrite Ed.
    cbn [promises with_microtasks with_awaiting with_promises].
    rewrite stateIn_setState. cbn [ref_eqb]. exact Pg. }
  set (se := settle (CallP g) (Rejected (initializeFailed e)) sd').
  assert (Ee : se = with_microtasks [(K, Rejected (initializeFailed e))]
                      (with_awaiting aw
                         (with_promises
                            (setState (CallP g) (Rejected (initializeFailed e))
                               (promises sd'))
                            sd'))).
  { unfold se, settle. rewrite Pgd. cbv zeta.
    replace (awaiting sd') with (aw ++ [(CallP g, K)])
      by (unfold sd'; rewrite Ed; reflexivity).
    replace (microtasks sd') with (@nil (Cont * PromiseState)) by reflexivity.
    rewrite !filter_app, Hg, (filter_none_asleep _ _ Hg).
    cbn [filter fst ref_eqb negb app map snd K]. rewrite Nat.eqb_refl.
    cbn [negb app map snd]. now rewrite app_nil_r. }
  set (se' := with_microtasks [] se).
  assert (E2 : s2 = settle (CallP f) (Rejected (initializeFailed e)) se').
  { assert (S1 : step parse Microtask sd = se).
    { cbn [step]. rewrite Ed at 1. cbn [microtasks with_microtasks].
      fold sd'. cbn [resume]. now rewrite Herr. }
    assert (S2 : step parse Microtask se
                 = settle (CallP f) (Rejected (initializeFailed e)) se').
    { cbn [step]. rewrite Ee at 1. cbn [microtasks with_microtasks].
      fold se'. unfold K. reflexivity. }
    unfold s2, run. cbn [fold_left]. fold sd. now rewrite S1, S2. }
  assert (Pse : promises se'
                = setState (CallP g) (Rejected (initializeFailed e))
                    (setState (RequestP n) (Fulfilled (VResponse answer))
                       (promises s1))).
  { unfold se'. rewrite Ee. unfold sd'. rewrite Ed. reflexivity. }
  assert (Pfe : promiseState (CallP f) se' = Some Pending).
  { unfold promiseState. rewrite Pse, !stateIn_setState. cbn [ref_eqb].
    now rewrite (proj2 (Nat.eqb_neq f g)) by exact Hfg. }
  match type of E2 with _ = settle ?q ?o ?x =>
    destruct (settle_frame q o x) as (_&_&Fr&_&_&Fi&_&Fc&_);
    pose proof (settle_state q o x) as Fs
  end.
  rewrite <- E2 in Fr, Fi, Fc, Fs.
  split_all.
  - now rewrite Fs, ref_eqb_refl, Pfe.
  - rewrite Fs. cbn [ref_eqb]. rewrite (proj2 (Nat.eqb_neq g f)) by congruence.
    unfold promiseState. rewrite Pse, stateIn_setState, ref_eqb_refl.
    rewrite stateIn_setState. cbn [ref_eqb]. unfold promiseState in Pg.
    now rewrite Pg.
  - rewrite Fc. unfold se'. rewrite Ee. unfold sd'. rewrite Ed. reflexivity.
  - rewrite Fr. unfold se'. rewrite Ee. unfold sd'. rewrite Ed. reflexivity.
  - rewrite Fi. unfold se'. rewrite Ee. unfold sd'. rewrite Ed. reflexivity.
Qed.

(** C7: [callTool] first makes sure that the session is connected, then
    sends [tools/call] with [{name, arguments}], and the response decides
    the call, once.

    On a ready session nothing is spawned and the request is written with
    the next id. On a session that is not connected and has no connection
    under way, one subprocess is spawned and [initialize] is sent alone;
    the call waits, and [tools/call] is written, after the notification,
    only when the answer to [initialize] has come without an error; when
    that answer carries an error the call fails with the error of
    [connect] and no [tools/call] is written. On a session whose
    connection is under way nothing is spawned or written: the call waits
    for that connection, and fails with its error when it has failed.

    In each case a response with an error fails the call with the message
    of that error; any other response completes it with the result of the
    response, or with an empty content list when the result is missing or
    null; and the outcome, once there, is never replaced. *)
Theorem callTool_round_trip
    (cfg0 : MiniMaxMcpConfig) (ls : list Label)
    (name : jsstring) (args : json)
    (data : list N) (line : jsstring) (response : JsonRpcResponse) :
  let s := run parse ls (init cfg0) in
  microtasks s = [] -> buffer s = [] ->
  utf8_decode data = line ++ [LF] -> ~ In LF line ->
  trim line <> [] -> parse (trim line) = Some response ->
  let request := fun n : Z =>
    stringify
      (JObj [(str "jsonrpc", JStr (str "2.0"));
             (str "id", JNum n);
             (str "method", JStr (str "tools/call"));
             (str "params",
              JObj [(str "name", JStr name); (str "arguments", args)])])
    ++ [LF] in
  let outcome :=
    match error response with
    | Some e => Rejected (str "Tool call failed: " ++ message e)
    | None =>
        Fulfilled (VResult match result response with
                           | None | Some JNull => JObj [(str "content", JArr [])]
                           | Some r => r
                           end)
    end in
  (* the session is ready *)
  (forall (spawn : SpawnOutcome) (h : nat) (c : ChildProcess),
     initialized s = true ->
     process s = Some h -> child h s = Some c ->
     stdin c = true -> writeError c = None ->
     id response = IdNum (requestId s + 1) ->
     let call := snd (callTool name args spawn s) in
     let s1 := run parse [CallTool name args spawn; Microtask] s in
     let s2 := run parse [OnStdout data; Microtask] s1 in
     child h s1
     = Some (mkChild (env c) (pid c) (stdin c) (writeError c) (killed c)
               (written c ++ [request (requestId s + 1)]))
     /\ length (children s1) = length (children s)
     /\ promiseState call s1 = Some Pending
     /\ promiseState call s2 = Some outcome
     /\ (forall later, promiseState call (run parse later s2) = Some outcome))
  /\
  (* the session is not connected *)
  (forall (processId : Z)
          (data0 : list N) (line0 : jsstring) (answer : JsonRpcResponse),
     initialized s = false -> initPromise s = None -> processId <> 0 ->
     utf8_decode data0 = line0 ++ [LF] -> ~ In LF line0 ->
     trim line0 <> [] -> parse (trim line0) = Some answer ->
     id answer = IdNum (requestId s + 1) ->
     let spawn := mkSpawn (Some processId) true None in
     let h := length (children s) in
     let poll := OnTimer (StartupInterval (S (S (fresh s)))) in
     let initialize :=
       stringify
         (JObj [(str "jsonrpc", JStr (str "2.0"));
                (str "id", JNum (requestId s + 1));
                (str "method", JStr (str "initialize"));
                (str "params", initializeParams)])
       ++ [LF] in
     let notification :=
       stringify
         (JObj [(str "jsonrpc", JStr (str "2.0"));
                (str "method", JStr (str "notifications/initialized"));
                (str "params", JObj [])])
       ++ [LF] in
     let subprocess :=
       mkChild (spawnEnv cfg0) (Some processId) true None false in
     let call := snd (callTool name args spawn s) in
     let s1 := run parse [CallTool name args spawn; poll; Microtask] s in
     let s2 := run parse [OnStdout data0; Microtask; Microtask] s1 in
     let s3 := run parse [OnStdout data; Microtask] s2 in
     length (children s1) = S (length (children s))
     /\ process s1 = Some h
     /\ child h s1 = Some (subprocess [initialize])
     /\ promiseState call s1 = Some Pending
     /\ (error answer = None ->
         initialized s2 = true
         /\ child h s2
            = Some (subprocess
                      [initialize; notification; request (requestId s + 2)])
         /\ promiseState call s2 = Some Pending
         /\ (id response = IdNum (requestId s + 2) ->
             promiseState call s3 = Some outcome
             /\ (forall later,
                   promiseState call (run parse later s3) = Some outcome)))
     /\ (forall e, error answer = Some e ->
         let failure := Rejected (str "MCP initialize failed: " ++ message e) in
         promiseState call s2 = Some failure
         /\ initialized s2 = false
         /\ child h s2 = Some (subprocess [initialize])
         /\ requestId s2 = requestId s + 1
         /\ (forall later,
               promiseState call (run parse later s2) = Some failure)))
  /\
  (* the connection is under way, or has failed *)
  (forall (spawn : SpawnOutcome) (p : PromiseRef),
     initialized s = false -> initPromise s = Some p ->
     let call := snd (callTool name args spawn s) in
     let s1 := run parse [CallTool name args spawn; Microtask] s in
     (promiseState p s = Some Pending ->
      children s1 = children s
      /\ requestId s1 = requestId s
      /\ promiseState call s1 = Some Pending
      /\ awaiting s1
         = awaiting s ++ [(p, CallToolConnected name args (fresh s))])
     /\ (forall e, promiseState p s = Some (Rejected e) ->
         children s1 = children s
         /\ requestId s1 = requestId s
         /\ promiseState call s1 = Some (Rejected e)
         /\ (forall later,
               promiseState call (run parse later s1) = Some (Rejected e)))).
Proof.
  intros s Hm Hb Hd Hl Ht Hpa request outcome.
  assert (W : wf s) by apply reachable_wf.
  assert (N : named s) by apply named_run, named_init_session.
  assert (Final : forall x q o, promiseState q x = Some o -> o <> Pending ->
                    forall later, promiseState q (run parse later x) = Some o).
  { intros x q o Hq Ho later.
    destruct (@keeps_run parse x later x (keeps_refl x)) as (_ & _ & K).
    now apply K. }
  split; [|split].
  - (* ready *)
    intros spawn h c Hi Hp Hc Hs Hw Hid.
    exact (@callTool_on_ready_session parse cfg0 ls name args spawn h c data line
             response Hi Hp Hc Hs Hw Hm Hb Hd Hl Ht Hpa Hid).
  - (* not connected *)
    intros processId data0 line0 answer Hi Hip Hpid Hd0 Hl0 Ht0 Hpa0 Hid0
           spawn h poll initialize notification subprocess call s1 s2 s3.
    set (f := fresh s). set (g := S f). set (n := requestId s + 1).
    assert (Ecall : call = CallP f).
    { unfold call. unfold spawn. now rewrite callTool_starts. }
    destruct (@cold_call_request cfg0 ls name args processId Hi Hip Hm Hpid)
      as (Ch & Len & Pr & Rq & Pd & Pn & Pg & Pf & Aw & Mt & In1 & Bf).
    change (child h s1 = Some (subprocess [initialize])) in Ch.
    change (length (children s1) = S h) in Len.
    change (process s1 = Some h) in Pr.
    change (requestId s1 = n) in Rq.
    change (mapGet n (pendingRequests s1) = Some (recordOf n)) in Pd.
    change (promiseState (RequestP n) s1 = Some Pending) in Pn.
    change (promiseState (CallP g) s1 = Some Pending) in Pg.
    change (promiseState (CallP f) s1 = Some Pending) in Pf.
    change (awaiting s1
            = (awaiting s ++ [(CallP g, CallToolConnected name args f)])
              ++ [(RequestP n, InitializeResponded g)]) in Aw.
    change (microtasks s1 = []) in Mt.
    change (initialized s1 = false) in In1.
    change (buffer s1 = buffer s) in Bf.
    assert (W1 : wf s1) by (unfold s1; now apply wf_run).
    assert (Fn : filter (fun a => ref_eqb (RequestP n) (fst a)) (awaiting s) = [])
      by (apply filter_awaiting_fresh; [exact N | apply (fresh_request W)]).
    assert (Fg : filter (fun a => ref_eqb (CallP g) (fst a)) (awaiting s) = []).
    { apply filter_awaiting_fresh; [exact N|].
      apply fresh_call_above; [exact N | unfold g, f; lia]. }
    assert (Fn1 : filter (fun a => ref_eqb (RequestP (n + 1)) (fst a)) (awaiting s)
                  = []).
    { apply filter_awaiting_fresh; [exact N|].
      apply fresh_request_above; [exact W | unfold n; lia]. }
    assert (Hfg : f <> g) by (unfold g; lia).
    assert (E0 : step parse (OnStdout data0) s1 = handleMessage answer s1).
    { cbn [step].
      apply (@handleData_one_line parse data0 line0 answer s1);
        [rewrite Bf; exact Hb | exact Hd0 | exact Hl0 | exact Ht0 | exact Hpa0]. }
    assert (E2 : s2 = run parse [Microtask; Microtask] (handleMessage answer s1)).
    { unfold s2, run. cbn [fold_left]. now rewrite E0. }
    split_all.
    + exact Len.
    + exact Pr.
    + exact Ch.
    + rewrite Ecall. exact Pf.
    + intros Herr.
      destruct (@cold_call_sent s1 (awaiting s) name args f g n h _ answer
                  W1 Hfg Rq Hid0 Herr Pd Pn Pg Pf Aw Fn Fg Fn1 Mt Pr Ch
                  eq_refl eq_refl)
        as (Ch2 & _ & In2 & Rq2 & Pd2 & Pn2 & Pf2 & _ & Aw2 & Mt2 & Bf2).
      rewrite <- E2 in Ch2, In2, Rq2, Pd2, Pn2, Pf2, Aw2, Mt2, Bf2.
      split_all.
      * exact In2.
      * rewrite Ch2. unfold subprocess, request, n.
        replace (requestId s + 1 + 1) with (requestId s + 2) by lia.
        reflexivity.
      * rewrite Ecall. exact Pf2.
      * intros Hid.
        assert (O : promiseState call s3 = Some outcome).
        { unfold s3, run. cbn [fold_left].
          change (step parse (OnStdout data) s2) with (handleData parse data s2).
          rewrite (@handleData_one_line parse data line response s2);
            [| rewrite Bf2, Bf; exact Hb | exact Hd | exact Hl | exact Ht
             | exact Hpa].
          rewrite Ecall.
          apply (@response_settles_call parse s2 (n + 1) f response); auto.
          rewrite Hid. f_equal. unfold n. lia. }
        split; [exact O|].
        apply Final; [exact O|].
        unfold outcome. destruct (error response); discriminate.
    + intros e Herr failure.
      destruct (@cold_call_refused s1 (awaiting s) name args f g n answer e
                  Hfg Hid0 Herr Pd Pn Pg Pf Aw Fn Fg Mt)
        as (Pf2 & _ & Ch2 & Rq2 & In2).
      rewrite <- E2 in Pf2, Ch2, Rq2, In2.
      assert (O : promiseState call s2 = Some failure)
        by (rewrite Ecall; exact Pf2).
      split_all.
      * exact O.
      * now rewrite In2.
      * unfold child. rewrite Ch2. exact Ch.
      * now rewrite Rq2.
      * apply Final; [exact O | discriminate].
  - (* under way *)
    intros spawn p Hi Hip call s1.
    set (f := fresh s). set (t := newPromise (CallP f) s).
    set (K := CallToolConnected name args f).
    assert (Ec : callTool name args spawn s = (await p K t, CallP f)).
    { unfold callTool, connect. cbv zeta. fold f. fold t.
      change (initialized t) with (initialized s).
      change (initPromise t) with (initPromise s).
      now rewrite Hi, Hip. }
    assert (Ecall : call = CallP f) by (unfold call; now rewrite Ec).
    assert (Pt : promiseState p t = promiseState p s).
    { unfold t, promiseState, newPromise. cbn [promises with_promises].
      rewrite stateIn_app.
      pose proof (@named_init s N p Hip) as X. unfold promiseState in X.
      now destruct (stateIn p (promises s)). }
    assert (Pft : promiseState (CallP f) t = Some Pending).
    { unfold t, promiseState, newPromise. cbn [promises with_promises].
      rewrite stateIn_app. pose proof (fresh_call N) as X.
      unfold promiseState in X. fold f in X. rewrite X.
      now rewrite ref_eqb_refl. }
    assert (E1 : s1 = step parse Microtask (await p K t)).
    { unfold s1, run. cbn [fold_left].
      change (step parse (CallTool name args spawn) s)
        with (fst (callTool name args spawn s)).
      now rewrite Ec. }
    split.
    + (* pending *)
      intros Ps.
      assert (E1' : s1 = with_awaiting (awaiting s ++ [(p, K)]) t).
      { rewrite E1. rewrite await_pending by (rewrite Pt; exact Ps). cbn [step].
        change (microtasks (with_awaiting (awaiting t ++ [(p, K)]) t))
          with (microtasks s).
        rewrite Hm. reflexivity. }
      split_all.
      * rewrite E1'. reflexivity.
      * rewrite E1'. reflexivity.
      * rewrite Ecall, E1'. exact Pft.
      * rewrite E1'. reflexivity.
    + (* failed *)
      intros e Ps.
      assert (E1' : s1 = settle (CallP f) (Rejected e) (with_microtasks [] t)).
      { rewrite E1. unfold await. rewrite Pt, Ps.
        cbn [step microtasks with_microtasks].
        change (microtasks t) with (microtasks s). rewrite Hm. reflexivity. }
      match type of E1' with _ = settle ?q ?o ?x =>
        destruct (settle_frame q o x) as (_&_&Fr&_&_&_&_&Fc&_);
        pose proof (settle_state q o x q) as Fs
      end.
      rewrite ref_eqb_refl in Fs. rewrite <- E1' in Fr, Fc, Fs.
      change (promiseState (CallP f) (with_microtasks [] t))
        with (promiseState (CallP f) t) in Fs.
      rewrite Pft in Fs.
      assert (O : promiseState call s1 = Some (Rejected e))
        by (rewrite Ecall; exact Fs).
      split_all.
      * rewrite Fc. reflexivity.
      * rewrite Fr. reflexivity.
      * exact O.
      * apply Final; [exact O | discriminate].
Qed.

End ColdCalls.
(** *** Instances *)

Lemma callTool_round_trip_witness :
  (* a ready session *)
  (let s := run parseLine handshake (init cfg) in
   let call := snd (callTool (str "web_search") (webSearchArgs searchParams)
                      spawned s) in
   let s1 := run parseLine
               [CallTool (str "web_search") (webSearchArgs searchParams) spawned;
                Microtask] s in
   let s2 := run parseLine [OnStdout (wire searchOkJson); Microtask] s1 in
   (initialized s = true /\ child 0 s = Some readyChild
    /\ id searchOk = IdNum (requestId s + 1))
   /\ length (children s1) = length (children s)
   /\ promiseState call s1 = Some Pending
   /\ promiseState call s2 = Some (Fulfilled (VResult (textResult (str "hi"))))
   /\ (forall later,
         promiseState call (run parseLine later s2)
         = Some (Fulfilled (VResult (textResult (str "hi"))))))
  /\
  (* a session that never connected; the handshake goes well *)
  (let s := run parseLine [] (init cfg) in
   let call := snd (callTool (str "web_search") (webSearchArgs searchParams)
                      spawned s) in
   let s1 := run parseLine
               [CallTool (str "web_search") (webSearchArgs searchParams) spawned;
                OnTimer (StartupInterval (S (S (fresh s)))); Microtask] s in
   let s2 := run parseLine [OnStdout (wire initOkJson); Microtask; Microtask] s1 in
   let s3 := run parseLine [OnStdout (wire searchOkJson); Microtask] s2 in
   (initialized s = false /\ initPromise s = None
    /\ id initOk = IdNum (requestId s + 1) /\ error initOk = None
    /\ id searchOk = IdNum (requestId s + 2))
   /\ length (children s1) = S (length (children s))
   /\ process s1 = Some (length (children s))
   /\ promiseState call s1 = Some Pending
   /\ initialized s2 = true
   /\ promiseState call s2 = Some Pending
   /\ promiseState call s3 = Some (Fulfilled (VResult (textResult (str "hi"))))
   /\ (forall later,
         promiseState call (run parseLine later s3)
         = Some (Fulfilled (VResult (textResult (str "hi"))))))
  /\
  (* a session that never connected; the handshake is refused *)
  (let s := run parseLine [] (init cfg) in
   let call := snd (callTool (str "web_search") (webSearchArgs searchParams)
                      spawned s) in
   let s1 := run parseLine
               [CallTool (str "web_search") (webSearchArgs searchParams) spawned;
                OnTimer (StartupInterval (S (S (fresh s)))); Microtask] s in
   let s2 := run parseLine [OnStdout (wire initErrorJson); Microtask; Microtask] s1 in
   error initError = Some (mkRpcError (-32600) (str "boom") None)
   /\ promiseState call s2
      = Some (Rejected (str "MCP initialize failed: "
                        ++ message (mkRpcError (-32600) (str "boom") None)))
   /\ initialized s2 = false
   /\ requestId s2 = requestId s + 1)
  /\
  (* a session whose connection is under way *)
  (let s := run parseLine connecting (init cfg) in
   let call := snd (callTool (str "web_search") (webSearchArgs searchParams)
                      spawned s) in
   let s1 := run parseLine
               [CallTool (str "web_search") (webSearchArgs searchParams) spawned;
                Microtask] s in
   (initialized s = false /\ initPromise s = Some (CallP 0)
    /\ promiseState (CallP 0) s = Some Pending)
   /\ children s1 = children s
   /\ requestId s1 = requestId s
   /\ promiseState call s1 = Some Pending).
Proof.
  assert (H6 : utf8_decode (wire searchOkJson) = stringify searchOkJson ++ [LF])
    by (vm_compute; reflexivity).
  assert (H7 : ~ In LF (stringify searchOkJson))
    by (vm_compute; intuition discriminate).
  assert (H8 : trim (stringify searchOkJson) <> [])
    by (vm_compute; discriminate).
  assert (H9 : parseLine (trim (stringify searchOkJson)) = Some searchOk)
    by (vm_compute; reflexivity).
  split; [|split; [|split]].
  - (* ready *)
    assert (H1 : initialized (run parseLine handshake (init cfg)) = true)
      by (vm_compute; reflexivity).
    assert (H2 : process (run parseLine handshake (init cfg)) = Some 0%nat)
      by (vm_compute; reflexivity).
    assert (H3 : child 0 (run parseLine handshake (init cfg)) = Some readyChild)
      by (vm_compute; reflexivity).
    assert (H4 : microtasks (run parseLine handshake (init cfg)) = [])
      by (vm_compute; reflexivity).
    assert (H5 : buffer (run parseLine handshake (init cfg)) = [])
      by (vm_compute; reflexivity).
    assert (H10 : id searchOk
                  = IdNum (requestId (run parseLine handshake (init cfg)) + 1))
      by (vm_compute; reflexivity).
    pose proof (@callTool_round_trip parseLine cfg handshake
                  (str "web_search") (webSearchArgs searchParams)
                  (wire searchOkJson) (stringify searchOkJson) searchOk
                  H4 H5 H6 H7 H8 H9) as T.
    cbv zeta in T. destruct T as (T & _ & _).
    specialize (T spawned 0%nat readyChild H1 H2 H3 eq_refl eq_refl H10).
    cbv zeta.
    split; [split_all; assumption|].
    exact (proj2 T).
  - (* never connected, handshake accepted *)
    assert (G1 : utf8_decode (wire initOkJson) = stringify initOkJson ++ [LF])
      by (vm_compute; reflexivity).
    assert (G2 : ~ In LF (stringify initOkJson))
      by (vm_compute; intuition discriminate).
    assert (G3 : trim (stringify initOkJson) <> [])
      by (vm_compute; discriminate).
    assert (G4 : parseLine (trim (stringify initOkJson)) = Some initOk)
      by (vm_compute; reflexivity).
    assert (G5 : (4242 : Z) <> 0) by discriminate.
    pose proof (@callTool_round_trip parseLine cfg []
                  (str "web_search") (webSearchArgs searchParams)
                  (wire searchOkJson) (stringify searchOkJson) searchOk
                  eq_refl eq_refl H6 H7 H8 H9) as T.
    cbv zeta in T. destruct T as (_ & T & _).
    specialize (T 4242 (wire initOkJson) (stringify initOkJson) initOk
                  eq_refl eq_refl G5 G1 G2 G3 G4 eq_refl).
    destruct T as (T1 & T2 & _ & T4 & T5 & _).
    destruct (T5 eq_refl) as (T6 & _ & T8 & T9).
    destruct (T9 eq_refl) as (T10 & T11).
    cbv zeta.
    split; [split_all; reflexivity|].
    split; [exact T1|]. split; [exact T2|]. split; [exact T4|].
    split; [exact T6|]. split; [exact T8|]. split; [exact T10 | exact T11].
  - (* never connected, handshake refused *)
    assert (G1 : utf8_decode (wire initErrorJson) = stringify initErrorJson ++ [LF])
      by (vm_compute; reflexivity).
    assert (G2 : ~ In LF (stringify initErrorJson))
      by (vm_compute; intuition discriminate).
    assert (G3 : trim (stringify initErrorJson) <> [])
      by (vm_compute; discriminate).
    assert (G4 : parseLine (trim (stringify initErrorJson)) = Some initError)
      by (vm_compute; reflexivity).
    assert (G5 : (4242 : Z) <> 0) by discriminate.
    pose proof (@callTool_round_trip parseLine cfg []
                  (str "web_search") (webSearchArgs searchParams)
                  (wire searchOkJson) (stringify searchOkJson) searchOk
                  eq_refl eq_refl H6 H7 H8 H9) as T.
    cbv zeta in T. destruct T as (_ & T & _).
    specialize (T 4242 (wire initErrorJson) (stringify initErrorJson) initError
                  eq_refl eq_refl G5 G1 G2 G3 G4 eq_refl).
    destruct T as (_ & _ & _ & _ & _ & T).
    destruct (T (mkRpcError (-32600) (str "boom") None) eq_refl)
      as (T1 & T2 & _ & T4 & _).
    cbv zeta.
    split; [reflexivity|].
    split; [exact T1|]. split; [exact T2 | exact T4].
  - (* under way *)
    assert (H1 : initialized (run parseLine connecting (init cfg)) = false)
      by (vm_compute; reflexivity).
    assert (H2 : initPromise (run parseLine connecting (init cfg)) = Some (CallP 0))
      by (vm_compute; reflexivity).
    assert (H3 : promiseState (CallP 0) (run parseLine connecting (init cfg))
                 = Some Pending)
      by (vm_compute; reflexivity).
    assert (H4 : microtasks (run parseLine connecting (init cfg)) = [])
      by (vm_compute; reflexivity).
    assert (H5 : buffer (run parseLine connecting (init cfg)) = [])
      by (vm_compute; reflexivity).
    pose proof (@callTool_round_trip parseLine cfg connecting
                  (str "web_search") (webSearchArgs searchParams)
                  (wire searchOkJson) (stringify searchOkJson) searchOk
                  H4 H5 H6 H7 H8 H9) as T.
    cbv zeta in T. destruct T as (_ & _ & T).
    destruct (T spawned (CallP 0) H1 H2) as (T1 & _).
    destruct (T1 H3) as (T2 & T3 & T4 & _).
    cbv zeta.
    split; [split_all; assumption|].
    split; [exact T2|]. split; [exact T3 | exact T4].
Defined.

End ToolCallFacts.

(* ===================================================================== *)
(** ** Properties of the configuration *)
(* ===================================================================== *)

Module ConfigFacts.
Import Js Json Utils Client Examples UtilsFacts Files FormatFacts Config MoreExamples.
Local Open Scope Z_scope.

(** *** parseInt *)

Lemma str_cons c s : str (String c s) = N_of_ascii c :: str s.
Proof. reflexivity. Qed.

Lemma uint_digits d : forallb is_digit (str (NilEmpty.string_of_uint d)) = true.
Proof.
  induction d; cbn [NilEmpty.string_of_uint]; rewrite ?str_cons;
    cbn [forallb]; try reflexivity; rewrite IHd; reflexivity.
Qed.

Lemma leadingDigits_app ds rest :
  forallb is_digit ds = true ->
  match rest with u :: _ => is_digit u = false | [] => True end ->
  leadingDigits (ds ++ rest) = ds.
Proof.
  intros Hd Hr. induction ds as [|d ds IH]; cbn [app leadingDigits].
  - destruct rest as [|u rest]; [reflexivity|]. cbn [leadingDigits]. now rewrite Hr.
  - cbn [forallb] in Hd. apply andb_true_iff in Hd. destruct Hd as [H1 H2].
    now rewrite H1, IH.
Qed.

(** The digits of a numeral, read from the left with an accumulator. *)
Lemma value_acc d acc :
  fold_left (fun a u => 10 * a + Z.of_N (u - 48))
    (str (NilEmpty.string_of_uint d)) (Z.pos acc)
  = Z.pos (Pos.of_uint_acc d acc).
Proof.
  revert acc. induction d; intros acc;
    cbn [NilEmpty.string_of_uint Pos.of_uint_acc]; rewrite ?str_cons;
    cbn [fold_left]; try reflexivity;
    rewrite <- IHd; f_equal;
    match goal with
    | |- context [Z.of_N ?n] =>
        let v := eval vm_compute in (Z.of_N n) in change (Z.of_N n) with v
    end; lia.
Qed.

Lemma value_uint d :
  digitsValue (str (NilEmpty.string_of_uint d)) = Z.of_N (Pos.of_uint d).
Proof.
  unfold digitsValue. induction d;
    cbn [NilEmpty.string_of_uint Pos.of_uint]; rewrite ?str_cons;
    cbn [fold_left]; try reflexivity;
    try (change (10 * 0 + Z.of_N (N_of_ascii "0" - 48)) with 0; exact IHd);
    match goal with
    | |- fold_left _ _ ?a = _ =>
        let v := eval cbv in a in change a with v
    end; rewrite value_acc; reflexivity.
Qed.


Lemma trimStart_spaces ws s :
  forallb is_space ws = true -> trimStart (ws ++ s) = trimStart s.
Proof.
  induction ws as [|u ws IH]; [reflexivity|]. cbn [forallb app trimStart].
  intros H. apply andb_true_iff in H. destruct H as [H1 H2]. now rewrite H1, IH.
Qed.

Lemma digit_facts u :
  is_digit u = true ->
  is_space u = false /\ (u =? 45)%N = false /\ (u =? 43)%N = false.
Proof.
  unfold is_digit, is_space. intros H. apply andb_true_iff in H.
  destruct H as [H1 H2]. apply N.leb_le in H1, H2.
  repeat match goal with
         | |- context [(?a =? ?b)%N] =>
             rewrite (proj2 (N.eqb_neq a b)) by lia
         | |- context [(?a <=? ?b)%N] =>
             first [ rewrite (proj2 (N.leb_gt a b)) by lia
                   | rewrite (proj2 (N.leb_le a b)) by lia ]
         end.
  cbn. auto.
Qed.

(** A run of digits, not empty, followed by something that is no digit. *)
Lemma parseInt10_digits ds rest :
  ds <> [] -> forallb is_digit ds = true ->
  match rest with u :: _ => is_digit u = false | [] => True end ->
  parseInt10 (ds ++ rest) = Some (digitsValue ds)
  /\ parseInt10 (45%N :: ds ++ rest) = Some (- digitsValue ds).
Proof.
  intros Hne Hd Hr. pose proof (leadingDigits_app ds rest Hd Hr) as L.
  destruct ds as [|d ds']; [congruence|].
  assert (Hd0 : is_digit d = true)
    by (cbn [forallb] in Hd; now apply andb_true_iff in Hd).
  destruct (digit_facts d Hd0) as (S1 & S2 & S3).
  unfold parseInt10. split.
  - cbn [app trimStart]. rewrite S1, S2, S3.
    change (d :: ds' ++ rest) with ((d :: ds') ++ rest). rewrite L.
    f_equal; lia.
  - cbn [trimStart]. change (is_space 45) with false. cbv iota.
    change (45 =? 45)%N with true. cbv iota.
    rewrite L. f_equal; lia.
Qed.

Lemma of_Z_parts n :
  exists ds, ds <> [] /\ forallb is_digit ds = true
             /\ digitsValue ds = Z.abs n
             /\ of_Z n = if n <? 0 then 45%N :: ds else ds.
Proof.
  assert (P : forall p,
             str (NilEmpty.string_of_uint (Pos.to_uint p)) <> []
             /\ digitsValue (str (NilEmpty.string_of_uint (Pos.to_uint p))) = Z.pos p).
  { intros p. split.
    - pose proof (DecimalPos.Unsigned.to_uint_nonnil p) as H.
      destruct (Pos.to_uint p); try congruence; discriminate.
    - rewrite value_uint, DecimalPos.Unsigned.of_to. reflexivity. }
  unfold of_Z. destruct n as [|p|p]; cbn [Z.to_int NilEmpty.string_of_int Z.ltb Z.compare].
  - exists (str "0"). repeat split; discriminate.
  - exists (str (NilEmpty.string_of_uint (Pos.to_uint p))).
    destruct (P p). repeat split; auto using uint_digits.
  - exists (str (NilEmpty.string_of_uint (Pos.to_uint p))).
    destruct (P p). repeat split; auto using uint_digits.
Qed.

Lemma parseInt10_of_Z n rest :
  match rest with u :: _ => is_digit u = false | [] => True end ->
  parseInt10 (of_Z n ++ rest) = Some n.
Proof.
  intros Hr. destruct (of_Z_parts n) as (ds & Hne & Hd & Hv & E).
  destruct (parseInt10_digits rest Hne Hd Hr) as [P1 P2].
  rewrite E. destruct (Z.ltb_spec n 0).
  - cbn [app]. rewrite P2. f_equal. lia.
  - rewrite P1. f_equal. lia.
Qed.

(** [parseInt] reads back what [String] writes: white space before the
    number is skipped, and what follows its digits is ignored. *)
Theorem parseInt10_reads_leading_integer
    (ws rest : jsstring) (n fallback : Z) :
  forallb is_space ws = true ->
  - 2 ^ 53 < n < 2 ^ 53 ->
  match rest with u :: _ => is_digit u = false | [] => True end ->
  parseInt10 (ws ++ of_Z n ++ rest) = Some n
  /\ parseEnvInt (Some (of_Z n ++ rest)) fallback = n.
Proof.
  intros Hws _ Hr. pose proof (parseInt10_of_Z n rest Hr) as G.
  split.
  - unfold parseInt10 in *. now rewrite trimStart_spaces.
  - unfold parseEnvInt. rewrite G.
    destruct (of_Z n ++ rest) eqn:E0; [|reflexivity].
    apply app_eq_nil in E0. destruct E0 as [E0 _]. now apply of_Z_nonempty in E0.
Qed.

(** *** mergeConfig and validateConfig *)

Lemma orElse_idem {A} (a b : option A) : orElse (orElse a b) b = orElse a b.
Proof. now destruct a, b. Qed.

(** Merging is idempotent; the merged configuration always has a host, a
    resource mode and the three numbers; and merging it again under any
    other environment leaves these five as they are: a value that is set
    is never replaced by the environment. *)
Theorem mergeConfig_layers (overrides : MiniMaxMcpConfig) (env env' : Env) :
  let c := mergeConfig overrides env in
  mergeConfig c env = c
  /\ (apiHost c <> None /\ resourceMode c <> None /\ timeoutMs c <> None
      /\ Client.maxBytes c <> None /\ Client.maxLines c <> None)
  /\ (apiHost (mergeConfig c env') = apiHost c
      /\ resourceMode (mergeConfig c env') = resourceMode c
      /\ timeoutMs (mergeConfig c env') = timeoutMs c
      /\ Client.maxBytes (mergeConfig c env') = Client.maxBytes c
      /\ Client.maxLines (mergeConfig c env') = Client.maxLines c).
Proof.
  destruct overrides as [k h b r t mb ml], env as [e1 e2 e3 e4 e5 e6 e7].
  cbv zeta. unfold mergeConfig.
  cbn [apiKey apiHost basePath resourceMode timeoutMs Client.maxBytes
       Client.maxLines MINIMAX_API_KEY MINIMAX_API_HOST MINIMAX_MCP_BASE_PATH
       MINIMAX_API_RESOURCE_MODE MINIMAX_MCP_TIMEOUT_MS MINIMAX_MCP_MAX_BYTES
       MINIMAX_MCP_MAX_LINES DEFAULT_CONFIG].
  split_all.
  - rewrite !orElse_idem.
    destruct t, mb, ml; reflexivity.
  - destruct h, e2; discriminate.
  - destruct r, e4; discriminate.
  - destruct t; discriminate.
  - destruct mb; discriminate.
  - destruct ml; discriminate.
  - destruct h, e2; reflexivity.
  - destruct r, e4; reflexivity.
  - destruct t; reflexivity.
  - destruct mb; reflexivity.
  - destruct ml; reflexivity.
Qed.

(** The merged configuration passes [validateConfig] exactly when the
    overrides carry a key that is not empty or, the overrides carrying no
    key at all, the environment does: an empty key in the overrides hides
    the key of the environment. *)
Theorem validateConfig_after_merge (overrides : MiniMaxMcpConfig) (env : Env) :
  validateConfig (mergeConfig overrides env) = None
  <-> match apiKey overrides with
      | Some key => key <> []
      | None => exists key, MINIMAX_API_KEY env = Some key /\ key <> []
      end.
Proof.
  unfold validateConfig, mergeConfig. cbn [apiKey DEFAULT_CONFIG].
  destruct (apiKey overrides) as [[|u key]|]; cbn [orElse truthy].
  - split; [discriminate | congruence].
  - split; [discriminate | reflexivity].
  - destruct (MINIMAX_API_KEY env) as [[|u key]|]; cbn [orElse truthy].
    + split; [discriminate | intros (key & [= <-] & H); congruence].
    + split; [intros _; eexists; split; [reflexivity | discriminate] | reflexivity].
    + split; [discriminate | intros (key & H & _); discriminate].
Qed.

(** *** redactSensitiveData *)

(** Redaction never lets a key through, changes no other field, and can
    be repeated. *)
Theorem redactSensitiveData_hides_the_key (config : MiniMaxMcpConfig) :
  let r := redactSensitiveData config in
  (apiKey r = None \/ apiKey r = Some (str "***REDACTED***"))
  /\ (apiKey r = None <-> validateConfig config <> None)
  /\ (apiHost r, basePath r, resourceMode r, timeoutMs r,
      Client.maxBytes r, Client.maxLines r)
     = (apiHost config, basePath config, resourceMode config, timeoutMs config,
        Client.maxBytes config, Client.maxLines config)
  /\ redactSensitiveData r = r.
Proof.
  destruct config as [[[|u key]|] h b m t mb ml]; cbv zeta;
    unfold redactSensitiveData, validateConfig; cbn; split_all;
    try reflexivity; try (now left); try (now right);
    try (split; [discriminate | congruence]);
    try (split; [congruence | discriminate]);
    try (split; [intros _; discriminate | reflexivity]).
Qed.


(** *** Configuration files *)

Section Loading.

Variable join : list jsstring -> jsstring.
Variable cwd homedir : jsstring.
Variable parseConfig : jsstring -> option MiniMaxMcpConfig.

Lemma loadFrom_merges paths env fs :
  exists overrides,
    fst (loadFrom parseConfig paths env fs) = mergeConfig overrides env.
Proof.
  induction paths as [|path rest IH]; cbn [loadFrom].
  - now exists noOverrides.
  - destruct (readFile path fs) as [raw|]; [|exact IH].
    destruct (parseConfig raw) as [parsed|]; [now exists parsed|].
    destruct (loadFrom parseConfig rest env fs). exact IH.
Qed.

(** Whatever the files hold, [loadConfig] returns a configuration, and it
    has a host, a resource mode and the three numbers. *)
Theorem loadConfig_is_complete
    (customPath : option jsstring) (env : Env) (fs : FileSystem) :
  let c := fst (loadConfig join cwd homedir parseConfig customPath env fs) in
  apiHost c <> None /\ resourceMode c <> None /\ timeoutMs c <> None
  /\ Client.maxBytes c <> None /\ Client.maxLines c <> None.
Proof.
  cbv zeta. unfold loadConfig.
  destruct (loadFrom_merges
              match resolveConfigPath join homedir customPath with
              | Some path => [path]
              | None => CONFIG_PATHS join cwd homedir
              end env fs) as [o ->].
  apply (mergeConfig_layers o env env).
Qed.

(** With a custom path, that file alone is read: the files of the default
    locations make no difference, a path that begins with a tilde is taken
    from the home directory, and a missing file gives the configuration of
    the environment and the defaults, without a warning. *)
Theorem loadConfig_custom_path_only
    (custom : jsstring) (env : Env) (fs fs' : FileSystem) :
  custom <> [] ->
  let path := if startsWith (str "~") custom
              then join [homedir; slice_from 1 custom] else custom in
  resolveConfigPath join homedir (Some custom) = Some path
  /\ (readFile path fs = readFile path fs' ->
      loadConfig join cwd homedir parseConfig (Some custom) env fs
      = loadConfig join cwd homedir parseConfig (Some custom) env fs')
  /\ (readFile path fs = None ->
      loadConfig join cwd homedir parseConfig (Some custom) env fs
      = (mergeConfig noOverrides env, [])).
Proof.
  intros Hne path.
  assert (E : resolveConfigPath join homedir (Some custom) = Some path).
  { unfold resolveConfigPath. destruct custom; [congruence | reflexivity]. }
  split; [exact E|]. unfold loadConfig. rewrite E. cbn [loadFrom].
  split.
  - intros ->. reflexivity.
  - intros ->. reflexivity.
Qed.

(** [ensureDefaultConfig] writes the file once and never overwrites it;
    and once it is there the numbers, the host and the resource mode come
    from the file: the variables of the environment for them are no longer
    looked at. *)
Theorem generated_config_shadows_environment (env : Env) (fs : FileSystem) :
  readFile (globalPath join homedir) fs = None ->
  readFile (projectPath join cwd) fs = None ->
  parseConfig defaultConfigText = Some DEFAULT_CONFIG ->
  let fs1 := fst (ensureDefaultConfig join homedir true fs) in
  snd (ensureDefaultConfig join homedir true fs) = true
  /\ readFile (globalPath join homedir) fs1 = Some defaultConfigText
  /\ ensureDefaultConfig join homedir true fs1 = (fs1, false)
  /\ loadConfig join cwd homedir parseConfig None env fs1
     = (mkConfig (MINIMAX_API_KEY env) (Some (str "https://api.minimax.io"))
          (MINIMAX_MCP_BASE_PATH env) (Some (str "url"))
          (Some 60000) (Some 51200) (Some 2000),
        []).
Proof.
  intros Hg Hp Hparse fs1.
  assert (E : ensureDefaultConfig join homedir true fs
              = ((globalPath join homedir, defaultConfigText) :: fs, true)).
  { unfold ensureDefaultConfig. now rewrite Hg. }
  unfold fs1. rewrite E. cbn [fst snd].
  assert (R : readFile (globalPath join homedir)
                ((globalPath join homedir, defaultConfigText) :: fs)
              = Some defaultConfigText).
  { cbn [readFile]. now rewrite eqb_refl. }
  split_all.
  - reflexivity.
  - exact R.
  - unfold ensureDefaultConfig. now rewrite R.
  - unfold loadConfig, resolveConfigPath, CONFIG_PATHS.
    cbn [loadFrom].
    assert (M : mergeConfig DEFAULT_CONFIG env
                = mkConfig (MINIMAX_API_KEY env) (Some (str "https://api.minimax.io"))
                    (MINIMAX_MCP_BASE_PATH env) (Some (str "url"))
                    (Some 60000) (Some 51200) (Some 2000)).
    { unfold mergeConfig. cbn [apiKey apiHost basePath resourceMode timeoutMs
        Client.maxBytes Client.maxLines DEFAULT_CONFIG orElse].
      f_equal; now destruct (_ env). }
    cbn [readFile].
    destruct (Js.eqb (projectPath join cwd) (globalPath join homedir)).
    + now rewrite Hparse, M.
    + rewrite Hp, eqb_refl, Hparse, M. reflexivity.
Qed.

End Loading.

(** *** Instances *)

Lemma parseInt10_reads_leading_integer_witness :
  parseInt10 (str "  " ++ of_Z 30000 ++ str "ms") = Some 30000
  /\ parseEnvInt (Some (of_Z 30000 ++ str "ms")) 60000 = 30000.
Proof.
  apply (@parseInt10_reads_leading_integer (str "  ") (str "ms") 30000 60000).
  - reflexivity.
  - lia.
  - reflexivity.
Defined.

Lemma loadConfig_custom_path_only_witness :
  let custom := str "~/mm.json" in
  let fs := [(joinPaths [str "/home/u"; str "/mm.json"], timeoutFile)] in
  let fs' := (projectPath joinPaths (str "/work"), defaultConfigText) :: fs in
  let path := if startsWith (str "~") custom
              then joinPaths [str "/home/u"; slice_from 1 custom] else custom in
  resolveConfigPath joinPaths (str "/home/u") (Some custom) = Some path
  /\ (readFile path fs = readFile path fs' ->
      loadConfig joinPaths (str "/work") (str "/home/u") parseFile (Some custom) keyEnv fs
      = loadConfig joinPaths (str "/work") (str "/home/u") parseFile (Some custom) keyEnv fs')
  /\ (readFile path fs = None ->
      loadConfig joinPaths (str "/work") (str "/home/u") parseFile (Some custom) keyEnv fs
      = (mergeConfig noOverrides keyEnv, [])).
Proof.
  apply (@loadConfig_custom_path_only joinPaths (str "/work") (str "/home/u")
           parseFile (str "~/mm.json") keyEnv).
  discriminate.
Defined.

Lemma generated_config_shadows_environment_witness :
  let fs1 := fst (ensureDefaultConfig joinPaths (str "/home/u") true []) in
  snd (ensureDefaultConfig joinPaths (str "/home/u") true []) = true
  /\ readFile (globalPath joinPaths (str "/home/u")) fs1 = Some defaultConfigText
  /\ ensureDefaultConfig joinPaths (str "/home/u") true fs1 = (fs1, false)
  /\ loadConfig joinPaths (str "/work") (str "/home/u") parseFile None keyEnv fs1
     = (mkConfig (MINIMAX_API_KEY keyEnv) (Some (str "https://api.minimax.io"))
          (MINIMAX_MCP_BASE_PATH keyEnv) (Some (str "url"))
          (Some 60000) (Some 51200) (Some 2000),
        []).
Proof.
  apply (@generated_config_shadows_environment joinPaths (str "/work")
           (str "/home/u") parseFile keyEnv []).
  - reflexivity.
  - reflexivity.
  - vm_compute. reflexivity.
Defined.

End ConfigFacts.

(* ===================================================================== *)
(** ** Properties of the front ends *)
(* ===================================================================== *)

Module FrontEndFacts.
Import Js Json Utils Client Examples UtilsFacts Files FormatFacts Config ConfigFacts Cli Extension MoreExamples.
Local Open Scope Z_scope.

(** *** parseArgs *)

Lemma optionSet_In key value options k v :
  In (k, v) (optionSet key value options) ->
  (exists k', Js.eqb key k' = true /\ k = k' /\ v = value) \/ In (k, v) options.
Proof.
  unfold optionSet. destruct (Js.eqb key (str "__proto__")); [now right|].
  induction options as [|[k0 v0] rest IH]; cbn [optionPut].
  - intros [[= <- <-]|[]]. left. exists key. now rewrite eqb_refl.
  - destruct (Js.eqb key k0) eqn:E.
    + intros [[= <- <-]|H]; [left; now exists k0 | right; now right].
    + intros [[= <- <-]|H]; [right; now left|].
      destruct (IH H) as [L|R]; [now left | right; now right].
Qed.

Lemma optionGet_In key options v :
  optionGet key options = Some v -> In (key, v) options.
Proof.
  induction options as [|[k0 v0] rest IH]; cbn [optionGet]; [discriminate|].
  destruct (Js.eqb key k0) eqn:E.
  - intros [= <-]. apply eqb_eq in E. subst. now left.
  - intros H. right. auto.
Qed.

Lemma flagName_plain arg : ~ In 45%N (flagName arg).
Proof.
  unfold flagName. intros H. apply filter_In in H. destruct H as [_ H].
  now rewrite N.eqb_refl in H.
Qed.

Lemma parseLoop_collected all n args o p :
  (length args <= n)%nat ->
  (forall a, In a args -> In a all) ->
  collected all o p ->
  collected all (fst (parseLoop args o p)) (snd (parseLoop args o p)).
Proof.
  revert args o p. induction n as [|n IH]; intros args o p Hn Hin Hc.
  - destruct args; [exact Hc | cbn [length] in Hn; lia].
  - destruct args as [|arg rest]; [exact Hc|]. cbn [length] in Hn.
    assert (Hset : forall value,
               value = str "true" \/ (In value all /\ value <> [] /\ isFlag value = false) ->
               collected all (optionSet (flagName arg) value o) p).
    { intros value Hv. destruct Hc as [Ho Hp]. split; [|exact Hp].
      intros k v H. apply optionSet_In in H.
      destruct H as [(k' & E & -> & ->)|H]; [|now apply Ho].
      apply eqb_eq in E. subst k'. split; [apply flagName_plain | exact Hv]. }
    cbn [parseLoop]. destruct (isFlag arg) eqn:Ef.
    + destruct rest as [|next rest']; [apply Hset; now left|].
      destruct (negb (Js.eqb next []) && negb (isFlag next)) eqn:Ev.
      * apply IH.
        -- cbn [length] in Hn. lia.
        -- intros a Ha. apply Hin. right. now right.
        -- apply Hset. right. apply andb_true_iff in Ev. destruct Ev as [E1 E2].
           apply negb_true_iff in E1, E2. split_all.
           ++ apply Hin. right. now left.
           ++ intros ->. discriminate.
           ++ exact E2.
      * apply IH; [lia | intros a Ha; apply Hin; now right | apply Hset; now left].
    + apply IH; [lia | intros a Ha; apply Hin; now right |].
      destruct Hc as [Ho Hp]. split; [exact Ho|].
      intros a Ha. apply in_app_iff in Ha. destruct Ha as [Ha|[<-|[]]]; [now apply Hp|].
      split; [apply Hin; now left | exact Ef].
Qed.


(** The arguments after the command are sorted faithfully: a positional
    argument is one of them and does not begin with two dashes; the name of
    an option has no dash left in it; and the value of an option is the
    text "true" or one of the arguments, not empty and not beginning with
    two dashes. *)
Theorem parseArgs_sorts_arguments (argv : list jsstring) :
  let p := parseArgs argv in
  let args := tl (slice_from 2 argv) in
  command p = hd_error (slice_from 2 argv)
  /\ (forall a, In a (positional p) -> In a args /\ isFlag a = false)
  /\ (forall name value, In (name, value) (options p) ->
        ~ In 45%N name
        /\ (value = str "true"
            \/ (In value args /\ value <> [] /\ isFlag value = false))).
Proof.
  intros p args. unfold p, parseArgs. cbv zeta. fold args.
  pose proof (@parseLoop_collected args (length args) args [] []
                (le_n _) (fun a H => H)) as C.
  destruct (parseLoop args [] []) as [o ps]. cbn [fst snd] in C.
  cbn [command options positional].
  destruct C as [Co Cp]; [split; intros; contradiction|].
  split_all; [reflexivity | exact Cp | exact Co].
Qed.

(** *** The search command *)

Lemma of_Z_positive_plain n :
  0 < n -> Js.eqb (of_Z n) [] = false /\ isFlag (of_Z n) = false.
Proof.
  intros Hn. destruct (of_Z_parts n) as (ds & Hne & Hd & _ & E).
  rewrite (proj2 (Z.ltb_ge n 0)) in E by lia. rewrite E.
  destruct ds as [|d ds]; [congruence|]. split; [reflexivity|].
  cbn [forallb] in Hd. apply andb_true_iff in Hd. destruct Hd as [Hd _].
  destruct (digit_facts d Hd) as (_ & H45 & _).
  unfold isFlag. change (str "--") with [45%N; 45%N]. cbn [startsWith].
  now rewrite (N.eqb_sym 45 d), H45.
Qed.

(** [search <query> --num-results N], with the option before or after the
    query, asks the tool for [N] results: the request carries [query] and
    [num_results]. A switch placed just before the query takes the query
    as its value, and the command ends with the error of a missing query. *)
Theorem cli_search_request (node script query switch : jsstring) (n : Z) :
  query <> [] -> isFlag query = false ->
  0 < n < 2 ^ 53 ->
  isFlag switch = true -> flagName switch <> str "query" ->
  let after := [node; script; str "search"; query; str "--num-results"; of_Z n] in
  let before := [node; script; str "search"; str "--num-results"; of_Z n; query] in
  let params := mkWebSearchParams query (Some n) None in
  searchCommand (parseArgs after) = Some params
  /\ searchCommand (parseArgs before) = Some params
  /\ webSearchArgs params
     = JObj [(str "query", JStr query); (str "num_results", JNum n)]
  /\ searchCommand (parseArgs [node; script; str "search"; switch; query]) = None.
Proof.
  intros Hq Hf Hn Hs Hname after before params.
  destruct (of_Z_positive_plain (proj1 Hn)) as [Z1 Z2].
  assert (Hqe : Js.eqb query [] = false) by (destruct query; [congruence | reflexivity]).
  assert (Hp : parseInt10 (of_Z n) = Some n).
  { rewrite <- (app_nil_r (of_Z n)). now apply parseInt10_of_Z. }
  assert (Hn0 : (n =? 0) = false) by (apply Z.eqb_neq; lia).
  assert (Hz : exists u r, of_Z n = u :: r).
  { destruct (of_Z n); [discriminate | eauto]. }
  destruct Hz as (u & r & Ez).
  assert (Hqc : exists v w, query = v :: w).
  { destruct query; [congruence | eauto]. }
  destruct Hqc as (v & w & Eq).
  split_all.
  - unfold after, parseArgs, slice_from, clamp. cbn [length Z.ltb Z.compare].
    change (Z.to_nat _) with 2%nat. cbn [skipn tl hd_error parseLoop].
    rewrite Hf. change (isFlag (str "--num-results")) with true. cbv iota.
    rewrite Z1, Z2. cbn [negb andb app].
    change (flagName (str "--num-results")) with (str "numresults").
    unfold searchCommand. cbn [positional options nth_error].
    unfold optionSet. change (Js.eqb (str "numresults") (str "__proto__")) with false.
    cbv iota. cbn [optionPut optionGet].
    change (Js.eqb (str "query") (str "numresults")) with false.
    change (Js.eqb (str "numresults") (str "numresults")) with true.
    change (Js.eqb (str "recencydays") (str "numresults")) with false.
    change (Js.eqb (str "recencyDays") (str "numresults")) with false.
    cbv iota. unfold orTruthy. rewrite Eq. cbn [truthy default].
    rewrite <- Eq. rewrite Ez. cbn [truthy]. rewrite <- Ez.
    unfold numberOption. rewrite Hp, Hn0. reflexivity.
  - unfold before, parseArgs, slice_from, clamp. cbn [length Z.ltb Z.compare].
    change (Z.to_nat _) with 2%nat. cbn [skipn tl hd_error parseLoop].
    change (isFlag (str "--num-results")) with true. cbv iota.
    rewrite Z1, Z2. cbn [negb andb app]. rewrite Hf. cbn [app].
    change (flagName (str "--num-results")) with (str "numresults").
    unfold searchCommand. cbn [positional options nth_error].
    unfold optionSet. change (Js.eqb (str "numresults") (str "__proto__")) with false.
    cbv iota. cbn [optionPut optionGet].
    change (Js.eqb (str "query") (str "numresults")) with false.
    change (Js.eqb (str "numresults") (str "numresults")) with true.
    change (Js.eqb (str "recencydays") (str "numresults")) with false.
    change (Js.eqb (str "recencyDays") (str "numresults")) with false.
    cbv iota. unfold orTruthy. rewrite Eq. cbn [truthy default].
    rewrite <- Eq. rewrite Ez. cbn [truthy]. rewrite <- Ez.
    unfold numberOption. rewrite Hp, Hn0. reflexivity.
  - unfold webSearchArgs, params. cbn [Client.query numResults recencyDays nonZero].
    rewrite Hn0. reflexivity.
  - unfold parseArgs, slice_from, clamp. cbn [length Z.ltb Z.compare].
    change (Z.to_nat _) with 2%nat. cbn [skipn tl hd_error parseLoop].
    rewrite Hs, Hqe, Hf. cbn [negb andb].
    unfold searchCommand. cbn [positional options nth_error].
    unfold optionSet.
    destruct (Js.eqb (flagName switch) (str "__proto__")); [reflexivity|].
    cbn [optionPut optionGet].
    destruct (Js.eqb (str "query") (flagName switch)) eqn:E2;
      [apply eqb_eq in E2; congruence|].
    reflexivity.
Qed.


(** [understand <path>] asks for a description with the default prompt;
    [--prompt <text>] replaces it, and [--prompt] with nothing after it
    asks with the prompt "true". *)
Theorem cli_understand_request (node script path text : jsstring) :
  path <> [] -> isFlag path = false ->
  text <> [] -> isFlag text = false ->
  let request image prompt :=
    JObj [(str "image_source", JStr image); (str "prompt", JStr prompt)] in
  let sent argv := option_map understandImageArgs (understandCommand (parseArgs argv)) in
  sent [node; script; str "understand"; path]
  = Some (request path (str "Describe this image in detail"))
  /\ sent [node; script; str "understand"; path; str "--prompt"; text]
     = Some (request path text)
  /\ sent [node; script; str "understand"; path; str "--prompt"]
     = Some (request path (str "true"))
  /\ sent [node; script; str "understand"] = None.
Proof.
  intros Hp Hf Ht Hft request sent.
  assert (Hte : Js.eqb text [] = false) by (destruct text; [congruence | reflexivity]).
  destruct path as [|v w]; [congruence|].
  destruct text as [|t0 t1]; [congruence|].
  unfold sent, request, parseArgs, slice_from, clamp.
  cbn [length Z.ltb Z.compare]. change (Z.to_nat _) with 2%nat.
  cbn [skipn tl hd_error parseLoop]. rewrite Hf.
  change (isFlag (str "--prompt")) with true. cbv iota.
  rewrite Hte, Hft. cbn [negb andb app].
  change (flagName (str "--prompt")) with (str "prompt").
  unfold understandCommand, optionSet.
  change (Js.eqb (str "prompt") (str "__proto__")) with false. cbv iota.
  cbn [positional options nth_error optionPut optionGet orTruthy truthy default].
  change (Js.eqb (str "prompt") (str "prompt")) with true. cbv iota.
  unfold understandImageArgs.
  cbn [option_map imagePath prompt truthy default].
  split_all; reflexivity.
Qed.

(** *** The configuration of the extension *)

Section GetConfig.

Variable join : list jsstring -> jsstring.
Variable cwd homedir : jsstring.
Variable parseConfig : jsstring -> option MiniMaxMcpConfig.

(** The extension takes the key, the host and the two budgets from its
    flags or else from the configuration loaded, and nothing more: the
    timeout, the base path and the resource mode of a configuration file
    never reach the client, which gets those of the environment or the
    defaults. *)
Theorem getConfig_leaves_file_settings_out
    (flags : Flags) (env : Env) (fs : FileSystem) (maxBytes maxLines : option Z) :
  let base :=
    fst (loadConfig join cwd homedir parseConfig (configFlag flags) env fs) in
  budgetFlag (maxBytesFlag flags) (Client.maxBytes base) = Some maxBytes ->
  budgetFlag (maxLinesFlag flags) (Client.maxLines base) = Some maxLines ->
  exists c,
    getConfig join cwd homedir parseConfig flags env fs = Some c
    /\ timeoutMs c = Some (parseEnvInt (MINIMAX_MCP_TIMEOUT_MS env) 60000)
    /\ basePath c = MINIMAX_MCP_BASE_PATH env
    /\ resourceMode c = orElse (MINIMAX_API_RESOURCE_MODE env) (Some (str "url"))
    /\ apiKey c = orElse (apiKeyFlag flags) (apiKey base)
    /\ apiHost c = orElse (hostFlag flags) (apiHost base)
    /\ Client.maxBytes c = maxBytes
    /\ Client.maxLines c = maxLines.
Proof.
  intros base Hb Hl. unfold getConfig. fold base. rewrite Hb, Hl.
  eexists. split; [reflexivity|].
  assert (B : exists o, base = mergeConfig o env).
  { unfold base, loadConfig. apply loadFrom_merges. }
  destruct B as [o B].
  assert (C := mergeConfig_layers o env env). cbv zeta in C. rewrite <- B in C.
  destruct C as (_ & (C1 & _ & _ & C4 & C5) & _).
  assert (K : orElse (apiKey base) (MINIMAX_API_KEY env) = apiKey base).
  { rewrite B. unfold mergeConfig. cbn [apiKey DEFAULT_CONFIG].
    destruct (apiKey o), (MINIMAX_API_KEY env); reflexivity. }
  unfold mergeConfig.
  cbn [apiKey apiHost basePath resourceMode timeoutMs Client.maxBytes
       Client.maxLines DEFAULT_CONFIG orElse the default].
  split; [reflexivity|]. split; [now destruct (MINIMAX_MCP_BASE_PATH env)|].
  split; [reflexivity|]. split_all.
  - destruct (apiKeyFlag flags); [reflexivity|]. cbn [orElse].
    destruct (apiKey base); [reflexivity|]. cbn [orElse] in *.
    now destruct (MINIMAX_API_KEY env).
  - destruct (hostFlag flags); [reflexivity|]. cbn [orElse].
    destruct (apiHost base); [reflexivity | congruence].
  - unfold budgetFlag in Hb. destruct (maxBytesFlag flags) as [f|].
    + destruct (parseInt10 f); [injection Hb as <-; reflexivity | discriminate].
    + injection Hb as <-. destruct (Client.maxBytes base); [reflexivity | congruence].
  - unfold budgetFlag in Hl. destruct (maxLinesFlag flags) as [f|].
    + destruct (parseInt10 f); [injection Hl as <-; reflexivity | discriminate].
    + injection Hl as <-. destruct (Client.maxLines base); [reflexivity | congruence].
Qed.

End GetConfig.

(** *** Instances *)

Lemma cli_search_request_witness :
  let after := [str "node"; str "cli"; str "search"; str "rust";
                str "--num-results"; of_Z 10] in
  let before := [str "node"; str "cli"; str "search"; str "--num-results";
                 of_Z 10; str "rust"] in
  let params := mkWebSearchParams (str "rust") (Some 10) None in
  searchCommand (parseArgs after) = Some params
  /\ searchCommand (parseArgs before) = Some params
  /\ webSearchArgs params
     = JObj [(str "query", JStr (str "rust")); (str "num_results", JNum 10)]
  /\ searchCommand
       (parseArgs [str "node"; str "cli"; str "search"; str "--verbose"; str "rust"])
     = None.
Proof.
  apply (@cli_search_request (str "node") (str "cli") (str "rust")
           (str "--verbose") 10).
  - discriminate.
  - reflexivity.
  - lia.
  - reflexivity.
  - vm_compute. discriminate.
Defined.

Lemma cli_understand_request_witness :
  let request image prompt :=
    JObj [(str "image_source", JStr image); (str "prompt", JStr prompt)] in
  let sent argv := option_map understandImageArgs (understandCommand (parseArgs argv)) in
  sent [str "node"; str "cli"; str "understand"; str "a.png"]
  = Some (request (str "a.png") (str "Describe this image in detail"))
  /\ sent [str "node"; str "cli"; str "understand"; str "a.png"; str "--prompt";
           str "colours"]
     = Some (request (str "a.png") (str "colours"))
  /\ sent [str "node"; str "cli"; str "understand"; str "a.png"; str "--prompt"]
     = Some (request (str "a.png") (str "true"))
  /\ sent [str "node"; str "cli"; str "understand"] = None.
Proof.
  apply (@cli_understand_request (str "node") (str "cli") (str "a.png")
           (str "colours")).
  - discriminate.
  - reflexivity.
  - discriminate.
  - reflexivity.
Defined.

Lemma getConfig_leaves_file_settings_out_witness :
  let fs := [(projectPath joinPaths (str "/work"), timeoutFile)] in
  let base := fst (loadConfig joinPaths (str "/work") (str "/home/u") parseFile
                     (configFlag noFlags) emptyEnv fs) in
  timeoutMs base = Some 5
  /\ exists c,
       getConfig joinPaths (str "/work") (str "/home/u") parseFile noFlags emptyEnv fs
       = Some c
       /\ timeoutMs c = Some (parseEnvInt (MINIMAX_MCP_TIMEOUT_MS emptyEnv) 60000)
       /\ basePath c = MINIMAX_MCP_BASE_PATH emptyEnv
       /\ resourceMode c
          = orElse (MINIMAX_API_RESOURCE_MODE emptyEnv) (Some (str "url"))
       /\ apiKey c = orElse (apiKeyFlag noFlags) (apiKey base)
       /\ apiHost c = orElse (hostFlag noFlags) (apiHost base)
       /\ Client.maxBytes c = Some 51200
       /\ Client.maxLines c = Some 2000.
Proof.
  split; [vm_compute; reflexivity|].
  apply (@getConfig_leaves_file_settings_out joinPaths (str "/work")
           (str "/home/u") parseFile noFlags emptyEnv
           [(projectPath joinPaths (str "/work"), timeoutFile)]
           (Some 51200) (Some 2000)).
  - vm_compute. reflexivity.
  - vm_compute. reflexivity.
Defined.

End FrontEndFacts.
